(** * Portal de Notas HTML: the catalog engine of [assets/js/main.js]

    A shallow embedding of the [NotesPortal] class: the two pure classifiers
    ([detectFileCategory], [extractFileNumber]), the category partition
    ([categorizeFiles]), the in-memory cache test ([isCacheValid]) and the
    loader with its fallback ([loadFiles], [loadFromGitHub], [loadLocalFiles]).
    The repository holds a second, earlier copy of the script whose loader
    behaves differently; it is embedded in the module [Legacy].
    Around the catalog the file also embeds the repository record
    ([extractRepoInfo]), the persisted cache ([setCachedData],
    [getCachedData], [clearCache]), the tab bar ([renderCategoryTabs],
    [switchCategory]), the search over the cards ([filterFiles]) and the
    timer of the automatic update ([init], [setupAutoUpdate],
    [pauseAutoUpdate], [resumeAutoUpdate], [destroy]).

    Conventions of the embedding.
    - A JavaScript string is a Rocq [string]; an ASCII character is one
      element, any other character is the sequence of its UTF-8 bytes.  The
      bytes above 127 are neither letters, digits nor white space and are
      left alone by [toUpperCase]: the embedding is exact on ASCII names.
    - A JavaScript number is [option Z]: [Some z] is the integer [z] and
      [None] is NaN.  Integers are exact below 2^53, that is for every digit
      run of at most fifteen digits; what is proved about the value of a
      number is stated for names with such runs ([exactNumbers]).
    - A method of the class is a function on the machine state (the fields of
      the object together with the browser: clock, local storage, network
      answer, rendered view) that returns normally or throws. *)

From Stdlib Require Import ZArith Ascii String List Bool Lia Permutation Sorted DecimalString.
From stdpp Require Import base option list gmap strings fin_maps.

Local Open Scope Z_scope.

(** ** JavaScript strings *)

Module JS.

Definition number : Type := option Z.

Definition code (c : ascii) : N := N_of_ascii c.

Definition isUpperChar (c : ascii) : bool := ((65 <=? code c) && (code c <=? 90))%N.
Definition isLowerChar (c : ascii) : bool := ((97 <=? code c) && (code c <=? 122))%N.
Definition isDigitChar (c : ascii) : bool := ((48 <=? code c) && (code c <=? 57))%N.
Definition isLetterChar (c : ascii) : bool := isUpperChar c || isLowerChar c.
Definition isAlnumChar (c : ascii) : bool := isLetterChar c || isDigitChar c.

(** white space of [\s] within ASCII: TAB, LF, VT, FF, CR and the space *)
Definition isSpaceChar (c : ascii) : bool :=
  ((9 <=? code c) && (code c <=? 13) || (code c =? 32))%N.

Definition toUpperChar (c : ascii) : ascii :=
  if isLowerChar c then ascii_of_N (code c - 32) else c.
Definition toLowerChar (c : ascii) : ascii :=
  if isUpperChar c then ascii_of_N (code c + 32) else c.

Fixpoint toUpperCase (s : string) : string :=
  match s with
  | EmptyString => EmptyString
  | String c s' => String (toUpperChar c) (toUpperCase s')
  end.

Fixpoint toLowerCase (s : string) : string :=
  match s with
  | EmptyString => EmptyString
  | String c s' => String (toLowerChar c) (toLowerCase s')
  end.

(** [s.startsWith(p)] *)
Fixpoint startsWith (s p : string) {struct p} : bool :=
  match p, s with
  | EmptyString, _ => true
  | String _ _, EmptyString => false
  | String b p', String a s' => if Ascii.eqb a b then startsWith s' p' else false
  end.

(** [s.includes(t)]: [t] starts at some position of [s] *)
Fixpoint includes (s t : string) : bool :=
  startsWith s t ||
  match s with
  | EmptyString => false
  | String _ s' => includes s' t
  end.

(** [s.endsWith(t)] *)
Fixpoint endsWith (s t : string) : bool :=
  String.eqb s t ||
  match s with
  | EmptyString => false
  | String _ s' => endsWith s' t
  end.

(** [s.split(sep)] for a separator of one character *)
Fixpoint split (sep : ascii) (s : string) : list string :=
  match s with
  | EmptyString => [EmptyString]
  | String c s' =>
      if Ascii.eqb c sep then EmptyString :: split sep s'
      else match split sep s' with
           | segment :: rest => String c segment :: rest
           | [] => [String c EmptyString]
           end
  end.

(** the first [n] characters of [s] *)
Fixpoint take (n : nat) (s : string) : string :=
  match n, s with
  | S n', String c s' => String c (take n' s')
  | _, _ => EmptyString
  end.

End JS.

Import JS.

(** ** The categorizer *)

(** [const categoryPriority = ['DPP', 'DC', 'DA', 'RLM', 'PT', 'MT', 'DP', 'INF']] *)
Definition categoryPriority : list string :=
  ["DPP"; "DC"; "DA"; "RLM"; "PT"; "MT"; "DP"; "INF"].

(** the test of one [categoryKey] inside the loop of [detectFileCategory] *)
Definition categoryTest (upperFileName categoryKey : string) : bool :=
  includes upperFileName ("_" +:+ categoryKey +:+ "_") ||
  includes upperFileName ("-" +:+ categoryKey +:+ "-") ||
  includes upperFileName (" " +:+ categoryKey +:+ " ") ||
  startsWith upperFileName (categoryKey +:+ "_") ||
  startsWith upperFileName (categoryKey +:+ "-").

(** the [for (const categoryKey of categoryPriority)] loop with its early
    [return], and the final [return 'GERAL'] *)
Fixpoint detectLoop (upperFileName : string) (keys : list string) : string :=
  match keys with
  | [] => "GERAL"
  | categoryKey :: rest =>
      if categoryTest upperFileName categoryKey then categoryKey
      else detectLoop upperFileName rest
  end.

Definition detectFileCategory (fileName : string) : string :=
  let upperFileName := toUpperCase fileName in
  detectLoop upperFileName categoryPriority.


(** ** Regular expressions

    The fragment of JavaScript regular expressions that the script uses:
    literal characters, character classes, greedy quantifiers on a class,
    capturing groups, sequence, alternation and the end anchor.  Matching is
    the backtracking search of the language: the leftmost start position
    wins, and at one position the alternatives are tried in order, a greedy
    quantifier the longest run first. *)

Module Regex.

Inductive cset : Type :=
| CChar (c : ascii)              (* a literal character *)
| CRange (lo hi : ascii)         (* [lo-hi] *)
| CDigit                         (* \d *)
| CSpace                         (* \s *)
| CUnion (a b : cset).           (* [ab] *)

Inductive regex : Type :=
| Atom (c : cset)
| Rep (c : cset) (lo : nat) (hi : option nat)   (* c{lo,hi}; c+ is c{1,} and c? is c{0,1} *)
| Group (r : regex)                             (* ( r ) *)
| Seq (r1 r2 : regex)
| Alt (r1 r2 : regex)
| Eos.                                          (* $ *)

(** a pattern with its [i] flag *)
Record pattern : Type := Pattern { body : regex; ignoreCase : bool }.

Fixpoint cset_mem (cs : cset) (x : ascii) : bool :=
  match cs with
  | CChar c => Ascii.eqb x c
  | CRange lo hi => ((code lo <=? code x) && (code x <=? code hi))%N
  | CDigit => isDigitChar x
  | CSpace => isSpaceChar x
  | CUnion a b => cset_mem a x || cset_mem b x
  end.

(** with the [i] flag a character matches when a member of the class has
    the same canonical (upper-case) form *)
Definition cset_match (ci : bool) (cs : cset) (x : ascii) : bool :=
  cset_mem cs x || (ci && (cset_mem cs (toUpperChar x) || cset_mem cs (toLowerChar x))).

(** the text consumed between the input [s] and the remaining input [s'] *)
Definition consumed (s s' : string) : string :=
  take (String.length s - String.length s') s.

Section Matcher.
Context {A : Type}.

(** greedy [c{lo,hi}] followed by the continuation [k] *)
Fixpoint rep (ci : bool) (c : cset) (lo : nat) (hi : option nat)
    (s : string) (k : string -> option A) {struct s} : option A :=
  let stop := match lo with O => k s | S _ => None end in
  match hi with
  | Some O => stop
  | _ =>
      match s with
      | String x s' =>
          if cset_match ci c x then
            match rep ci c (Nat.pred lo) (option_map Nat.pred hi) s' k with
            | Some a => Some a
            | None => stop
            end
          else stop
      | EmptyString => stop
      end
  end.

(** [rmatch ci r s caps k]: match [r] at the head of [s], then go on with
    [k] on the remaining input and the captures so far; [None] is
    failure, after which the caller backtracks.  The groups of the
    patterns below are neither nested nor under an alternative, so the
    captures come out in the order of their opening parentheses. *)
Fixpoint rmatch (ci : bool) (r : regex) (s : string) (caps : list string)
    (k : string -> list string -> option A) {struct r} : option A :=
  match r with
  | Atom c =>
      match s with
      | String x s' => if cset_match ci c x then k s' caps else None
      | EmptyString => None
      end
  | Rep c lo hi => rep ci c lo hi s (fun s' => k s' caps)
  | Group r1 =>
      rmatch ci r1 s caps (fun s' caps' => k s' (caps' ++ [consumed s s']))
  | Seq r1 r2 =>
      rmatch ci r1 s caps (fun s' caps' => rmatch ci r2 s' caps' k)
  | Alt r1 r2 =>
      match rmatch ci r1 s caps k with
      | Some a => Some a
      | None => rmatch ci r2 s caps k
      end
  | Eos =>
      match s with
      | EmptyString => k s caps
      | String _ _ => None
      end
  end.
End Matcher.

(** the result of a successful search: the text before the match, the
    match array [[m[0]; m[1]; ...]] and the text after the match *)
Record found : Type := Found { before : string; groups : list string; after : string }.

(** a match that starts exactly at the head of [s] *)
Definition matchHere (p : pattern) (s : string) : option (list string * string) :=
  rmatch (ignoreCase p) (body p) s []
    (fun s' caps => Some (consumed s s' :: caps, s')).

(** try the start positions from left to right; [pre] is the text already
    skipped *)
Fixpoint searchFrom (p : pattern) (pre : string) (s : string) : option found :=
  match matchHere p s with
  | Some (m, rest) => Some (Found pre m rest)
  | None =>
      match s with
      | EmptyString => None
      | String c s' => searchFrom p (pre +:+ String c EmptyString) s'
      end
  end.

Definition exec (p : pattern) (s : string) : option found := searchFrom p EmptyString s.

(** [s.match(p)] for a pattern without the [g] flag: the match array or null *)
Definition strMatch (s : string) (p : pattern) : option (list string) :=
  groups <$> exec p s.

(** [s.replace(p, '')] for a pattern without the [g] flag *)
Definition strRemove (s : string) (p : pattern) : string :=
  match exec p s with
  | Some f => before f +:+ after f
  | None => s
  end.

End Regex.

Import Regex.

(** ** [parseInt(s, 10)] *)

Definition digitValue (c : ascii) : Z := Z.of_N (code c) - 48.

(** the value of the longest prefix of digits, read after [acc] *)
Fixpoint parseDigits (acc : Z) (s : string) : Z :=
  match s with
  | String c s' => if isDigitChar c then parseDigits (10 * acc + digitValue c) s' else acc
  | EmptyString => acc
  end.

Fixpoint skipSpaces (s : string) : string :=
  match s with
  | String c s' => if isSpaceChar c then skipSpaces s' else s
  | EmptyString => s
  end.

(** leading white space, an optional sign, then digits; NaN without a digit.
    The value is the integer that the digits write.  The number of the
    script is that integer for up to fifteen digits; beyond 2^53 it is
    rounded, and the theorems about numbers are stated for runs of at most
    fifteen digits. *)
Definition parseInt (s : string) : number :=
  let unsigned (t : string) : number :=
    match t with
    | String c _ => if isDigitChar c then Some (parseDigits 0 t) else None
    | EmptyString => None
    end in
  match skipSpaces s with
  | String "-" t => Z.opp <$> unsigned t
  | String "+" t => unsigned t
  | t => unsigned t
  end.

(** ** The number extractor *)

Definition letters : cset := CRange "A" "Z".
Definition lit (c : ascii) : regex := Atom (CChar c).

(** [/\.html?$/i] *)
Definition extensionPattern : pattern :=
  Pattern (Seq (lit ".") (Seq (lit "h") (Seq (lit "t") (Seq (lit "m")
            (Seq (Rep (CChar "l") 0 (Some 1%nat)) Eos))))) true.

(** [/_([A-Z]+)_(\d{3,4})/i] *)
Definition patternUnderscore : pattern :=
  Pattern (Seq (lit "_") (Seq (Group (Rep letters 1 None))
            (Seq (lit "_") (Group (Rep CDigit 3 (Some 4%nat)))))) true.

(** [/([A-Z]+)-(\d{3,4})/i] *)
Definition patternHyphen : pattern :=
  Pattern (Seq (Group (Rep letters 1 None))
            (Seq (lit "-") (Group (Rep CDigit 3 (Some 4%nat))))) true.

(** [/([A-Z]+)\s+(\d{3,4})/i] *)
Definition patternSpace : pattern :=
  Pattern (Seq (Group (Rep letters 1 None))
            (Seq (Rep CSpace 1 None) (Group (Rep CDigit 3 (Some 4%nat))))) true.

(** [/(\d{3,4})(?:\s|[-_]|$)/] *)
Definition patternBoundary : pattern :=
  Pattern (Seq (Group (Rep CDigit 3 (Some 4%nat)))
            (Alt (Atom CSpace) (Alt (Atom (CUnion (CChar "-") (CChar "_"))) Eos))) false.

(** [/(\d{3,})/] *)
Definition patternRun : pattern :=
  Pattern (Group (Rep CDigit 3 None)) false.

(** [/(\d+)/] *)
Definition patternAnyNumber : pattern :=
  Pattern (Group (Rep CDigit 1 None)) false.

Definition patterns : list pattern :=
  [patternUnderscore; patternHyphen; patternSpace; patternBoundary; patternRun].

(** [match[i]] of a match array; a missing element is [undefined], which
    [parseInt] turns into NaN as it does the empty string *)
Definition matchItem (m : list string) (i : nat) : string := nth i m EmptyString.

(** the [for (const pattern of patterns)] loop: [Some n] is [return n],
    [None] is falling out of the loop *)
Fixpoint patternLoop (baseName : string) (ps : list pattern) : option number :=
  match ps with
  | [] => None
  | pattern :: rest =>
      match strMatch baseName pattern with
      | Some m =>
          if (3 <=? length m)%nat then Some (parseInt (matchItem m 2))
          else if (2 <=? length m)%nat then Some (parseInt (matchItem m 1))
          else patternLoop baseName rest
      | None => patternLoop baseName rest
      end
  end.

Definition extractFileNumber (fileName : string) : number :=
  let baseName := strRemove fileName extensionPattern in
  match patternLoop baseName patterns with
  | Some number => number
  | None =>
      match strMatch baseName patternAnyNumber with
      | Some anyNumber => parseInt (matchItem anyNumber 1)
      | None => Some 9999
      end
  end.

(** ** Numbers and sorting *)

(** [a !== b] on numbers: NaN differs from everything, itself included *)
Definition strictNe (a b : number) : bool :=
  match a, b with
  | Some x, Some y => negb (x =? y)
  | _, _ => true
  end.

(** [a - b] on numbers *)
Definition sub (a b : number) : number :=
  match a, b with
  | Some x, Some y => Some (x - y)
  | _, _ => None
  end.

(** [Array.prototype.sort(cmp)].  The sort of the language is stable, and a
    comparator that answers NaN is read as 0; for a consistent comparator
    the result is the one of this insertion sort. *)
Section Sort.
Context {A : Type} (cmp : A -> A -> number).

Definition order (x y : A) : Z := default 0 (cmp x y).

Fixpoint insertSorted (x : A) (l : list A) : list A :=
  match l with
  | [] => [x]
  | y :: l' => if order x y <=? 0 then x :: y :: l' else y :: insertSorted x l'
  end.

Fixpoint sortBy (l : list A) : list A :=
  match l with
  | [] => []
  | x :: l' => insertSorted x (sortBy l')
  end.
End Sort.

(** ** The data model *)

(** an element of [this.files] *)
Record NoteFile : Type := mkNoteFile {
  name : string;
  path : string;
  size : Z;
  url : string;
  download_url : option string;
  lastModified : string;
  source : option string }.

(** an element of a category: [{...file, category, numericOrder}] *)
Record CatFile : Type := mkCatFile {
  base : NoteFile;
  category : string;
  numericOrder : number }.

(** a value of [this.categories] *)
Record Category : Type := mkCategory {
  title : string;                (* the field [name] *)
  icon : string;
  color : string;
  members : list CatFile }.      (* the field [files] *)

(** [this.currentRepo]; the earlier script has no [useGitHubAPI] field *)
Record Repo : Type := mkRepo {
  owner : string;
  repo : string;
  branch : string;
  isLocal : bool;
  useGitHubAPI : option bool }.

(** an entry of the listing that the GitHub contents API answers *)
Record Entry : Type := mkEntry {
  e_name : string;
  e_path : string;
  e_size : Z;
  e_type : string;
  e_download_url : option string }.

(** what [fetch] does: it rejects, or it resolves with a status and a body,
    whose JSON is a listing or is not *)
Inductive FetchOutcome : Type :=
| Rejected (message : string)
| Responded (status : Z) (statusText : string) (json : option (list Entry)).

(** the item ['notes-portal-cache'] of the local storage *)
Inductive StoredItem : Type :=
| Stored (cachedFiles : list NoteFile) (timestamp : Z) (version : string)
| Unparsable.

(** what [filesContainer] shows *)
Inductive View : Type :=
| Blank
| LoadingView
| Grid (cards : list string)
| EmptyState
| ErrorView (message : string).

(** the calls to the browser that reach outside the page *)
Inductive Call : Type :=
| CallFetch (apiUrl : string)
| CallSetTimeout (ms : Z)
| CallGetItem
| CallSetItem
| CallRemoveItem.

Inductive Error : Type :=
| NotesFolderNotFound                 (* 'Pasta notes não encontrada - usando método local' *)
| HttpError (status : Z) (statusText : string)
| FetchRejected (message : string)
| JsonError
| TypeError (what : string).

(** The object and the browser around it.  [filesContainer] is [None] while
    the element is missing; [clock] is what [Date.now()] reads; [network] is
    what the next [fetch] does and [latency] the time it takes. *)
Record Machine : Type := mkMachine {
  files : list NoteFile;
  categories : gmap string Category;
  activeCategory : string;
  currentRepo : Repo;
  lastUpdate : option Z;
  filesContainer : option View;
  loadingState : bool;
  clock : Z;
  localStorage : option StoredItem;
  storageWritable : bool;
  network : FetchOutcome;
  latency : Z;
  calls : list Call }.

Definition set_files (v : list NoteFile) (m : Machine) : Machine :=
  mkMachine v (categories m) (activeCategory m) (currentRepo m) (lastUpdate m)
    (filesContainer m) (loadingState m) (clock m) (localStorage m)
    (storageWritable m) (network m) (latency m) (calls m).
Definition set_categories (v : gmap string Category) (m : Machine) : Machine :=
  mkMachine (files m) v (activeCategory m) (currentRepo m) (lastUpdate m)
    (filesContainer m) (loadingState m) (clock m) (localStorage m)
    (storageWritable m) (network m) (latency m) (calls m).
Definition set_lastUpdate (v : option Z) (m : Machine) : Machine :=
  mkMachine (files m) (categories m) (activeCategory m) (currentRepo m) v
    (filesContainer m) (loadingState m) (clock m) (localStorage m)
    (storageWritable m) (network m) (latency m) (calls m).
Definition set_view (v : View) (m : Machine) : Machine :=
  mkMachine (files m) (categories m) (activeCategory m) (currentRepo m) (lastUpdate m)
    (const v <$> filesContainer m) (loadingState m) (clock m) (localStorage m)
    (storageWritable m) (network m) (latency m) (calls m).
Definition set_loadingState (v : bool) (m : Machine) : Machine :=
  mkMachine (files m) (categories m) (activeCategory m) (currentRepo m) (lastUpdate m)
    (filesContainer m) v (clock m) (localStorage m)
    (storageWritable m) (network m) (latency m) (calls m).
Definition set_clock (v : Z) (m : Machine) : Machine :=
  mkMachine (files m) (categories m) (activeCategory m) (currentRepo m) (lastUpdate m)
    (filesContainer m) (loadingState m) v (localStorage m)
    (storageWritable m) (network m) (latency m) (calls m).
Definition set_localStorage (v : option StoredItem) (m : Machine) : Machine :=
  mkMachine (files m) (categories m) (activeCategory m) (currentRepo m) (lastUpdate m)
    (filesContainer m) (loadingState m) (clock m) v
    (storageWritable m) (network m) (latency m) (calls m).
Definition record (c : Call) (m : Machine) : Machine :=
  mkMachine (files m) (categories m) (activeCategory m) (currentRepo m) (lastUpdate m)
    (filesContainer m) (loadingState m) (clock m) (localStorage m)
    (storageWritable m) (network m) (latency m) (calls m ++ [c]).

(** ** The repository of the page *)

(** the test [isLocalEnvironment] of [extractRepoInfo] *)
Definition isLocalEnvironment (hostname protocol : string) : bool :=
  String.eqb hostname "localhost" ||
  String.eqb hostname "127.0.0.1" ||
  includes hostname "local" ||
  String.eqb protocol "file:" ||
  String.eqb hostname "" ||
  negb (includes hostname ".").

(** [extractRepoInfo()], on the host name, the path and the protocol of
    [window.location] *)
Definition extractRepoInfo (hostname pathname protocol : string) : Repo :=
  if isLocalEnvironment hostname protocol
  then mkRepo "local" "dev_notes" "main" true (Some false)
  else
    let pathParts := List.filter (fun p => negb (String.eqb p "")) (split "/" pathname) in
    if endsWith hostname ".github.io" then
      let owner := hd EmptyString (split "." hostname) in
      let repo := match pathParts with
                  | part :: _ => part
                  | [] => owner +:+ ".github.io"
                  end in
      mkRepo owner repo "main" false (Some true)
    else mkRepo "local" "dev_notes" "main" true (Some false).

(** ** Methods: state passing with exceptions *)

Inductive outcome (A : Type) : Type :=
| Returned (a : A)
| Thrown (e : Error).
Arguments Returned {A} a.
Arguments Thrown {A} e.

Definition M (A : Type) : Type := Machine -> outcome A * Machine.

Definition ret {A} (a : A) : M A := fun m => (Returned a, m).
Definition throw {A} (e : Error) : M A := fun m => (Thrown e, m).
Definition bind {A B} (c : M A) (f : A -> M B) : M B :=
  fun m => match c m with
           | (Returned a, m') => f a m'
           | (Thrown e, m') => (Thrown e, m')
           end.
(** [try { c } catch (e) { h e }] *)
Definition tryCatch {A} (c : M A) (h : Error -> M A) : M A :=
  fun m => match c m with
           | (Thrown e, m') => h e m'
           | r => r
           end.
(** [try { c } finally { f }], for an [f] that does not throw *)
Definition tryFinally {A} (c : M A) (f : Machine -> Machine) : M A :=
  fun m => let (r, m') := c m in (r, f m').
(** a step that changes the machine and cannot throw *)
Definition step (f : Machine -> Machine) : M unit := fun m => (Returned tt, f m).
(** read the machine *)
Definition ask {A} (f : Machine -> A) : M A := fun m => (Returned (f m), m).

Notation "'let!' x ':=' c 'in' k" := (bind c (fun x => k))
  (at level 10, x name, c at level 100, k at level 200).
Notation "c '>>' k" := (bind c (fun _ => k))
  (at level 100, k at level 200, right associativity).

(** the machine a method leaves behind *)
Definition run {A} (c : M A) (m : Machine) : Machine := snd (c m).
Definition result {A} (c : M A) (m : Machine) : outcome A := fst (c m).

Fixpoint forEach {A} (l : list A) (body : A -> M unit) : M unit :=
  match l with
  | [] => ret tt
  | x :: l' => body x >> forEach l' body
  end.

(** ** What the browser provides

    The functions of the platform whose values the script uses without
    defining them: string collation, URI escaping and the conversions
    between time values and date strings. *)
Class Builtins : Type := {
  localeCompare : string -> string -> Z;          (* a.localeCompare(b) *)
  encodeURIComponent : string -> string;
  toISOString : Z -> string;                      (* new Date(t).toISOString() *)
  localDateISO : number -> number -> number -> string;
                                                  (* new Date(y, m, d).toISOString() *)
  dateValue : string -> number                    (* the time value of new Date(s) *)
}.

(** ** Constants of the constructor *)

(** [this.cacheDuration = 5 * 60 * 1000] *)
Definition cacheDuration : Z := 5 * 60 * 1000.

(** [this.categories] *)
Definition initialCategories : gmap string Category :=
  list_to_map
    [ ("DC", mkCategory "Direito Constitucional" "⚖️" "#3498db" []);
      ("DA", mkCategory "Direito Administrativo" "🏛️" "#9b59b6" []);
      ("RLM", mkCategory "Raciocínio Lógico" "🧠" "#e74c3c" []);
      ("PT", mkCategory "Língua Portuguesa" "📚" "#27ae60" []);
      ("MT", mkCategory "Matemática" "🔢" "#f39c12" []);
      ("DPP", mkCategory "Processo Penal" "⚔️" "#e67e22" []);
      ("DP", mkCategory "Direito Penal" "🛡️" "#c0392b" []);
      ("INF", mkCategory "Informática" "💻" "#2c3e50" []);
      ("GERAL", mkCategory "Geral" "📋" "#95a5a6" []) ].

(** ** The in-memory cache test *)

(** [this.lastUpdate && (Date.now() - this.lastUpdate) < this.cacheDuration
    && this.files.length > 0], as the truth value the callers test.  A
    number is truthy unless it is 0. *)
Definition isCacheValid (m : Machine) : bool :=
  match lastUpdate m with
  | None => false
  | Some t =>
      negb (t =? 0) && (clock m - t <? cacheDuration) && (0 <? length (files m))%nat
  end.

(** ** The persisted cache *)

(** [setCachedData(data)]: a failure of [setItem] is caught and logged *)
Definition setCachedData (data : list NoteFile) (m : Machine) : Machine :=
  let m := record CallSetItem m in
  if storageWritable m
  then set_localStorage (Some (Stored data (clock m) "1.0.0")) m
  else m.

(** [getCachedData()]: null when the item is missing, unparsable or older
    than one hour; an old item is removed *)
Definition getCachedData (m : Machine) : option (list NoteFile) * Machine :=
  let m := record CallGetItem m in
  match localStorage m with
  | None => (None, m)
  | Some Unparsable => (None, m)
  | Some (Stored cachedFiles timestamp _) =>
      if clock m - timestamp >? 3600000
      then (None, set_localStorage None (record CallRemoveItem m))
      else (Some cachedFiles, m)
  end.

(** ** Categories *)

Definition clearMembers (c : Category) : Category :=
  mkCategory (title c) (icon c) (color c) [].
Definition pushMember (x : CatFile) (c : Category) : Category :=
  mkCategory (title c) (icon c) (color c) (members c ++ [x]).
Definition setMembers (l : list CatFile) (c : Category) : Category :=
  mkCategory (title c) (icon c) (color c) l.

(** [{...file, category: category, numericOrder: this.extractFileNumber(file.name)}] *)
Definition enrich (file : NoteFile) : CatFile :=
  mkCatFile file (detectFileCategory (name file)) (extractFileNumber (name file)).

(** the body of [this.files.forEach(file => ...)]: reading [.files] of a
    missing category is a TypeError *)
Definition placeFile (file : NoteFile) : M unit :=
  fun m =>
    let category := detectFileCategory (name file) in
    match categories m !! category with
    | Some c =>
        (Returned tt,
         set_categories (<[category := pushMember (enrich file) c]> (categories m)) m)
    | None => (Thrown (TypeError "this.categories[category] is undefined"), m)
    end.

Section Catalog.
Context `{Builtins}.

(** the comparator of the sort inside each category *)
Definition compareMembers (a b : CatFile) : number :=
  let numA := numericOrder a in
  let numB := numericOrder b in
  if strictNe numA numB then sub numA numB
  else Some (localeCompare (name (base a)) (name (base b))).

(** the comparator of the sort of the main list *)
Definition compareFiles (a b : NoteFile) : number :=
  let categoryA := detectFileCategory (name a) in
  let categoryB := detectFileCategory (name b) in
  let byCategory := Some (localeCompare categoryA categoryB) in
  if String.eqb categoryA categoryB then
    let numA := extractFileNumber (name a) in
    let numB := extractFileNumber (name b) in
    if strictNe numA numB then sub numA numB else byCategory
  else byCategory.

(** the comparator of [loadLocalFiles] and [debugLocalFiles] *)
Definition compareByNumber (a b : NoteFile) : number :=
  let numA := extractFileNumber (name a) in
  let numB := extractFileNumber (name b) in
  if strictNe numA numB then sub numA numB
  else Some (localeCompare (name a) (name b)).

(** [(a, b) => new Date(b.lastModified) - new Date(a.lastModified)] *)
Definition compareByDateDesc (a b : NoteFile) : number :=
  sub (dateValue (lastModified b)) (dateValue (lastModified a)).

Definition categorizeFiles : M unit :=
  step (fun m => set_categories (clearMembers <$> categories m) m) >>
  (let! fs := ask files in forEach fs placeFile) >>
  step (fun m =>
    set_categories ((fun c => setMembers (sortBy compareMembers (members c)) c)
                      <$> categories m) m) >>
  step (fun m => set_files (sortBy compareFiles (files m)) m).

(** [getActiveFiles()]; a member of a category is shown by its file *)
Definition getActiveFiles (m : Machine) : list NoteFile :=
  if String.eqb (activeCategory m) "todos" then files m
  else match categories m !! activeCategory m with
       | Some c => base <$> members c
       | None => []
       end.

(** [renderFiles()] *)
Definition renderFiles (m : Machine) : Machine :=
  match filesContainer m with
  | None => m
  | Some _ =>
      let activeFiles := getActiveFiles m in
      if (length activeFiles =? 0)%nat then set_view EmptyState m
      else setCachedData (files m) (set_view (Grid (name <$> activeFiles)) m)
  end.

(** [renderError(message)] *)
Definition renderError (message : string) (m : Machine) : Machine :=
  set_view (ErrorView message) m.

End Catalog.

(** ** The sources of the catalog *)

(** [const knownFiles = [...]] of [loadLocalFiles] *)
Definition knownFiles : list string :=
  [ "2025_08_08_RLM_001 - Estruturas logicas .html";
    "2025_08_08_RLM_002 - Estruturas logicas verdade mentira.html";
    "2025_06_25_DC_001 - Introducao a teoria geral dos direitos fundamentais fixacao.html";
    "2025_06_25_DC_002 - Caracteristicas dos direitos fundamentais fixacao.html";
    "2025_06_25_DC_003 - Classificacao dos direitos fundamentais fixacao.html";
    "2025_06_25_DC_004 - Eficacia e aplicacao.html";
    "2025_06_25_DC_005- Teoria dos Direitos Fundamentais Conteúdo e Restrições.html";
    "2025_06_25_DC_006- Teoria dos Direitos Fundamentais Tratados Internacionais de Direitos Humanos.html";
    "2025_06_25_DC_007- Direito a vida fixacao.html";
    "2025_06_25_DC_008- Direito a liberdade fixacao.html";
    "2025_06_25_DC_009- Direito a liberdade de Expressao fixacao.html";
    "2025_06_25_DC_010- Direito a liberdade de Expressao fixacao.html";
    "2025_06_25_DC_011 - Aprofundamento - Eficacia dos direitos fundamentais.html";
    "2025_06_25_DC_012 - Liberdade religiosa fixacao.html";
    "2025_06_25_DC_013 - liberdade de locomocao fixacao.html";
    "2025_06_25_DC_014 - Liberdade de associacao  e reuniaofixacao.html";
    "2025_06_25_DC_015 - Direito a igualdade fixacao.html";
    "2025_06_25_DC_016 - igualdade entre homens e mulheres fixacao.html";
    "2025_06_25_DC_017 - Direito a privacidade fixacao.html";
    "2025_06_25_DC_018 - Direito a privacidade sigilo ao domicilio fixacao.html";
    "2025_06_25_DC_019 - Direito a privacidade sigilo de correspondencia fixacao.html";
    "2025_06_25_DC_020 - Direito a privavidade Sigilo bancario e fiscal fixacao.html";
    "2025_06_25_DC_021 - Direito a privavidade Sigilo de Dados e Comunicações Telefônicas fixacao.html";
    "2025_06_25_DC_022 - Direito a propriedade fixacao.html";
    "2025_06_25_DC_023 - Direitos e Instrumentos de Cidadania perante o Estado e a Justiça fixacao.html";
    "2025_06_25_DC_024 - Direitos individuais proteção ao Direito Adquirido a Coisa Julgada e ao Ato Jurídico Perfeito juiz natural e juri popular fixacao.html";
    "2025_07_08_DC_025 - Principios constitucionais legalidade anterioridade fixacao.html";
    "2025_07_08_DC_026 - mandado de criminalizacao crimes hediondos e equiparaveis fixacao.html";
    "2025_07_08_DC_027 - Garantias penais relativas as prisões fixacao.html";
    "2025_07_08_DC_028 - Garantias processuais dos presos fixacao.html";
    "2025_07_08_DC_029 - Garantias processuais dos presos fixacao.html";
    "2025_07_08_DC_030- Garantias fundamentais habeas corpus fixacao.html";
    "2025_07_08_DC_031- Garantias fundamentais habeas data.html";
    "2025_07_12_DC_032- Garantias fundamentais mandado de segurança parte I fixacao.html";
    "2025_07_14_DC_033 - Mandado de segurança parte II coletivo fixacao.html";
    "2025_07_14_DC_034 - Mandado de injuncao fixacao.html";
    "2025_07_14_DC_035 - Acao popular.html";
    "2025_07_14_DC_036 - Tratados internacionais sobre direitos humanos.html";
    "2025_07_15_DP_001 - Infracao penal fixacao.html";
    "2025_07_15_DP_002 - Fato tipico fixacao.html";
    "2025_07_15_DP_003 - Fato tipico conduta.html";
    "2025_07_16_DP_004 - Dolo.html";
    "2025_07_16_DP_005 - Culpa parte I.html";
    "2025_07_16_DP_006 - Culpa parte II.html";
    "2025_07_18_DP_007 - Resultado.html";
    "2025_07_18_DP_008 - Nexo causal parte I.html";
    "2025_07_18_DP_009 - Nexo causal parte II Concausas.html" ].
(** [const allKnownFiles = [...]] of [debugLocalFiles] *)
Definition allKnownFiles : list string :=
  [ "2025_06_25_DC_001 - Introducao a teoria geral dos direitos fundamentais fixacao.html";
    "2025_06_25_DC_002 - Caracteristicas dos direitos fundamentais fixacao.html";
    "2025_06_25_DC_003 - Classificacao dos direitos fundamentais fixacao.html";
    "2025_06_25_DC_004 - Eficacia e aplicacao.html";
    "2025_06_25_DC_005- Teoria dos Direitos Fundamentais Conteúdo e Restrições.html";
    "2025_06_25_DC_006- Teoria dos Direitos Fundamentais Tratados Internacionais de Direitos Humanos.html";
    "2025_06_25_DC_007- Direito a vida fixacao.html";
    "2025_06_25_DC_008- Direito a liberdade fixacao.html";
    "2025_06_25_DC_009- Direito a liberdade de Expressao fixacao.html";
    "2025_06_25_DC_010- Direito a liberdade de Expressao fixacao.html";
    "2025_06_25_DC_011 - Aprofundamento - Eficacia dos direitos fundamentais.html";
    "2025_06_25_DC_012 - Liberdade religiosa fixacao.html";
    "2025_06_25_DC_013 - liberdade de locomocao fixacao.html";
    "2025_06_25_DC_014 - Liberdade de associacao  e reuniaofixacao.html";
    "2025_06_25_DC_015 - Direito a igualdade fixacao.html";
    "2025_06_25_DC_016 - igualdade entre homens e mulheres fixacao.html";
    "2025_06_25_DC_017 - Direito a privacidade fixacao.html";
    "2025_06_25_DC_018 - Direito a privacidade sigilo ao domicilio fixacao.html";
    "2025_06_25_DC_019 - Direito a privacidade sigilo de correspondencia fixacao.html";
    "2025_06_25_DC_020 - Direito a privavidade Sigilo bancario e fiscal fixacao.html";
    "2025_06_25_DC_021 - Direito a privavidade Sigilo de Dados e Comunicações Telefônicas fixacao.html";
    "2025_06_25_DC_022 - Direito a propriedade fixacao.html";
    "2025_06_25_DC_023 - Direitos e Instrumentos de Cidadania perante o Estado e a Justiça fixacao.html";
    "2025_06_25_DC_024 - Direitos individuais proteção ao Direito Adquirido a Coisa Julgada e ao Ato Jurídico Perfeito juiz natural e juri popular fixacao.html";
    "2025_07_08_DC_025 - Principios constitucionais legalidade anterioridade fixacao.html";
    "2025_07_08_DC_026 - mandado de criminalizacao crimes hediondos e equiparaveis fixacao.html";
    "2025_07_08_DC_027 - Garantias penais relativas as prisões fixacao.html";
    "2025_07_08_DC_028 - Garantias processuais dos presos fixacao.html";
    "2025_07_08_DC_029 - Garantias processuais dos presos fixacao.html";
    "2025_07_08_DC_030- Garantias fundamentais habeas corpus fixacao.html";
    "2025_07_08_DC_031- Garantias fundamentais habeas data.html";
    "2025_07_12_DC_032- Garantias fundamentais mandado de segurança parte I fixacao.html";
    "2025_07_14_DC_033 - Mandado de segurança parte II coletivo fixacao.html";
    "2025_07_14_DC_034 - Mandado de injuncao fixacao.html";
    "2025_07_14_DC_035 - Acao popular.html";
    "2025_07_14_DC_036 - Tratados internacionais sobre direitos humanos.html";
    "2025_07_15_DP_001 - Infracao penal fixacao.html";
    "2025_07_15_DP_002 - Fato tipico fixacao.html";
    "2025_07_15_DP_003 - Fato tipico conduta.html";
    "2025_07_16_DP_004 - Dolo.html";
    "2025_07_16_DP_005 - Culpa parte I.html";
    "2025_07_16_DP_006 - Culpa parte II.html";
    "2025_07_18_DP_007 - Resultado.html";
    "2025_07_18_DP_008 - Nexo causal parte I.html";
    "2025_07_18_DP_009 - Nexo causal parte II Concausas.html";
    "exemplo-nota-interativa.html" ].

(** the patterns of [discoverNewFiles] *)
Record Probe : Type := mkProbe {
  prefix : string; suffix : string; rangeFrom : nat; rangeTo : nat; postfix : string }.

Definition discoveryPatterns : list Probe :=
  [ mkProbe "2025_" "_DC_" 37 50 " - ";
    mkProbe "2025_" "_DP_" 10 30 " - ";
    mkProbe "2025_" "_CC_" 1 20 " - ";
    mkProbe "2025_" "_CP_" 1 20 " - " ].

(** [i.toString().padStart(3, '0')] *)
Definition paddedNum (i : nat) : string :=
  let digits := NilEmpty.string_of_uint (Nat.to_uint i) in
  match String.length digits with
  | 1%nat => "00" +:+ digits
  | 2%nat => "0" +:+ digits
  | _ => digits
  end.

(** [testFileExists(pattern, num)] resolves to null on both of its paths *)
Definition testFileExists (pattern : Probe) (num : string) : option NoteFile := None.

(** [/2025_(\d{2})_(\d{2})/] *)
Definition datePattern : pattern :=
  Pattern (Seq (lit "2") (Seq (lit "0") (Seq (lit "2") (Seq (lit "5") (Seq (lit "_")
            (Seq (Group (Rep CDigit 2 (Some 2%nat)))
              (Seq (lit "_") (Group (Rep CDigit 2 (Some 2%nat)))))))))) false.

(** [response.ok] *)
Definition ok (status : Z) : bool := (200 <=? status) && (status <=? 299).

(** [await fetch(apiUrl, ...)] *)
Definition fetch (apiUrl : string) : M (Z * string * option (list Entry)) :=
  fun m =>
    let m := set_clock (clock m + latency m) (record (CallFetch apiUrl) m) in
    match network m with
    | Rejected message => (Thrown (FetchRejected message), m)
    | Responded status statusText json => (Returned (status, statusText, json), m)
    end.

(** [await new Promise(resolve => setTimeout(resolve, ms))] *)
Definition sleep (ms : Z) : M unit :=
  step (fun m => set_clock (clock m + ms) (record (CallSetTimeout ms) m)).

(** [file.type === 'file' && file.name.endsWith('.html')] *)
Definition isNote (file : Entry) : bool :=
  String.eqb (e_type file) "file" && endsWith (e_name file) ".html".

Definition apiUrlOf (r : Repo) : string :=
  "https://api.github.com/repos/" +:+ owner r +:+ "/" +:+ repo r +:+ "/contents/notes".

Section Loader.
Context `{Builtins}.

(** the date that [loadLocalFiles] reads off the name; [now] is [new Date()] *)
Definition dateOfName (now : Z) (fileName : string) : string :=
  if includes fileName "2025_06_25" then "2025-06-25T00:00:00.000Z"
  else if includes fileName "2025_07_08" then "2025-07-08T00:00:00.000Z"
  else if includes fileName "2025_07_12" then "2025-07-12T00:00:00.000Z"
  else if includes fileName "2025_07_14" then "2025-07-14T00:00:00.000Z"
  else if includes fileName "2025_07_15" then "2025-07-15T00:00:00.000Z"
  else if includes fileName "2025_07_16" then "2025-07-16T00:00:00.000Z"
  else if includes fileName "2025_07_18" then "2025-07-18T00:00:00.000Z"
  else if includes fileName "2025_08_08" then "2025-08-08T00:00:00.000Z"
  else toISOString now.

(** the callback of [knownFiles.map] *)
Definition localFile (now : Z) (index : nat) (fileName : string) : NoteFile :=
  mkNoteFile fileName ("notes/" +:+ fileName) (8000 + Z.of_nat index * 1000)
    ("./notes/" +:+ encodeURIComponent fileName) None (dateOfName now fileName) None.

(** the callback of [allKnownFiles.map] *)
Definition emergencyFile (now : Z) (index : nat) (fileName : string) : NoteFile :=
  let lastModified :=
    match strMatch fileName datePattern with
    | Some dateMatch =>
        let month := parseInt (matchItem dateMatch 1) in
        let day := parseInt (matchItem dateMatch 2) in
        localDateISO (Some 2025) (sub month (Some 1)) day
    | None => toISOString now
    end in
  mkNoteFile fileName ("notes/" +:+ fileName) (8000 + Z.of_nat index * 500)
    ("./notes/" +:+ encodeURIComponent fileName) None lastModified
    (Some "local-complete-list").

Definition debugLocalFiles : M unit :=
  step (fun m =>
    set_files (sortBy compareByNumber (imap (emergencyFile (clock m)) allKnownFiles)) m).

Definition discoverNewFiles : M unit :=
  step (fun m =>
    let currentFileNames := name <$> files m in
    let testPromises :=
      flat_map (fun pattern =>
        flat_map (fun i =>
          let exists_ :=
            existsb (fun n => includes n (suffix pattern +:+ paddedNum i))
              currentFileNames in
          if exists_ then [] else [testFileExists pattern (paddedNum i)])
          (seq (rangeFrom pattern) (S (rangeTo pattern) - rangeFrom pattern)))
        discoveryPatterns in
    let newFiles := omap id (firstn 10 testPromises) in
    if (0 <? length newFiles)%nat
    then set_files (sortBy compareByDateDesc (files m ++ newFiles)) m
    else m).

(** [loadLocalFiles()], with the table [knownFiles] as a parameter *)
Definition loadLocalFilesFrom (table : list string) : M unit :=
  sleep 500 >>
  step (fun m => set_files (sortBy compareByNumber (imap (localFile (clock m)) table)) m) >>
  (let! n := ask (fun m => length (files m)) in
   if (n =? 0)%nat then debugLocalFiles else ret tt) >>
  (let! n := ask (fun m => length (files m)) in
   if (n <? 40)%nat then discoverNewFiles else ret tt).

Definition loadLocalFiles : M unit := loadLocalFilesFrom knownFiles.

(** the callback of [data.filter(...).map] in [loadFromGitHub] *)
Definition remoteFile (r : Repo) (now : Z) (file : Entry) : NoteFile :=
  mkNoteFile (e_name file) (e_path file) (e_size file)
    ("https://" +:+ owner r +:+ ".github.io/" +:+ repo r +:+ "/" +:+ e_path file)
    (e_download_url file) (toISOString now) (Some "github-api").

(** [loadFromGitHub()]: every failure, the 404 included, is thrown again
    by the [catch] so that the caller falls back *)
Definition loadFromGitHub : M unit :=
  tryCatch
    (let! r := ask currentRepo in
     let! response := fetch (apiUrlOf r) in
     let '(status, statusText, json) := response in
     (if negb (ok status) then
        if status =? 404 then throw NotesFolderNotFound
        else throw (HttpError status statusText)
      else ret tt) >>
     match json with
     | None => throw JsonError
     | Some data =>
         step (fun m =>
           set_files (sortBy compareByDateDesc
                        (remoteFile r (clock m) <$> filter (fun f => isNote f = true) data)) m)
     end)
    (fun error => throw error).

(** [loadFiles(forceRefresh)], over the table of [loadLocalFiles].  The
    rendering of the tabs and of the statistics after [renderFiles] only
    writes to the page and is left out. *)
Definition loadFilesFrom (table : list string) (forceRefresh : bool) : M unit :=
  fun m =>
    match filesContainer m with
    | None => (Returned tt, m)
    | Some _ =>
        if negb forceRefresh && isCacheValid m then (Returned tt, renderFiles m)
        else
          (step (set_view LoadingView) >>
           step (set_loadingState true) >>
           tryFinally
             (tryCatch
                ((let! r := ask currentRepo in
                  if bool_decide (useGitHubAPI r = Some false) || isLocal r
                  then loadLocalFilesFrom table
                  else tryCatch loadFromGitHub (fun githubError => loadLocalFilesFrom table)) >>
                 step (fun m => set_lastUpdate (Some (clock m)) m) >>
                 categorizeFiles >>
                 step renderFiles)
                (fun error =>
                   step (renderError "Erro ao carregar as notas. Verifique a conexão.")))
             (set_loadingState false)) m
    end.

Definition loadFiles (forceRefresh : bool) : M unit := loadFilesFrom knownFiles forceRefresh.

End Loader.

(** ** The earlier script

    The second copy of the script in the repository.  It has no categories
    and no table of known files; its [loadFromGitHub] answers a 404 with an
    empty list and every other failure with the persisted cache. *)

Module Legacy.

(** [extractRepoInfo()] *)
Definition extractRepoInfo (hostname pathname : string) : Repo :=
  if String.eqb hostname "localhost" || String.eqb hostname "127.0.0.1"
     || includes hostname "local"
  then mkRepo "local" "dev_notes" "main" true None
  else
    let pathParts := List.filter (fun p => negb (String.eqb p "")) (split "/" pathname) in
    if endsWith hostname ".github.io" then
      let owner := hd EmptyString (split "." hostname) in
      let repo := match pathParts with
                  | part :: _ => part
                  | [] => owner +:+ ".github.io"
                  end in
      mkRepo owner repo "main" false None
    else mkRepo "user" "dev_notes" "main" false None.

Section Loader.
Context `{Builtins}.

(** [renderFiles()] *)
Definition renderFiles (m : Machine) : Machine :=
  match filesContainer m with
  | None => m
  | Some _ =>
      if (length (files m) =? 0)%nat then set_view EmptyState m
      else setCachedData (files m) (set_view (Grid (name <$> files m)) m)
  end.

(** [loadMockFiles()] *)
Definition loadMockFiles : M unit :=
  sleep 500 >>
  step (fun m =>
    set_files
      [ mkNoteFile "exemplo-nota-interativa.html" "notes/exemplo-nota-interativa.html"
          18750 "./notes/exemplo-nota-interativa.html" None
          (toISOString (clock m)) None;
        mkNoteFile "minha-primeira-nota.html" "notes/minha-primeira-nota.html"
          8420 "./notes/minha-primeira-nota.html" None
          (toISOString (clock m - 86400000)) None;
        mkNoteFile "anotacoes-reuniao.html" "notes/anotacoes-reuniao.html"
          12340 "./notes/anotacoes-reuniao.html" None
          (toISOString (clock m - 172800000)) None ] m).

Definition remoteFile (r : Repo) (now : Z) (file : Entry) : NoteFile :=
  mkNoteFile (e_name file) (e_path file) (e_size file)
    ("https://" +:+ owner r +:+ ".github.io/" +:+ repo r +:+ "/" +:+ e_path file)
    (e_download_url file) (toISOString now) None.

(** [(a, b) => a.name.localeCompare(b.name)] *)
Definition compareByName (a b : NoteFile) : number :=
  Some (localeCompare (name a) (name b)).

(** [loadFromGitHub()]: a 404 leaves an empty list and returns; the
    [catch] empties the list and then reads the persisted cache *)
Definition loadFromGitHub : M unit :=
  tryCatch
    (let! r := ask currentRepo in
     let! response := fetch (apiUrlOf r) in
     let '(status, statusText, json) := response in
     if negb (ok status) then
       if status =? 404 then step (set_files [])
       else throw (HttpError status statusText)
     else
       match json with
       | None => throw JsonError
       | Some data =>
           step (fun m =>
             set_files (sortBy compareByName
                          (remoteFile r (clock m) <$> filter (fun f => isNote f = true) data)) m)
       end)
    (fun error =>
       step (set_files []) >>
       step (fun m =>
         let (cachedData, m') := getCachedData m in
         match cachedData with
         | Some cached => set_files cached m'
         | None => m'
         end)).

(** [loadFiles(forceRefresh)]; the statistics are left out as above *)
Definition loadFiles (forceRefresh : bool) : M unit :=
  fun m =>
    match filesContainer m with
    | None => (Returned tt, m)
    | Some _ =>
        if negb forceRefresh && isCacheValid m then (Returned tt, renderFiles m)
        else
          (step (set_view LoadingView) >>
           step (set_loadingState true) >>
           tryFinally
             (tryCatch
                ((let! r := ask currentRepo in
                  if isLocal r then loadMockFiles else loadFromGitHub) >>
                 step (fun m => set_lastUpdate (Some (clock m)) m) >>
                 step renderFiles)
                (fun error =>
                   step (renderError "Erro ao carregar as notas. Verifique a conexão.")))
             (set_loadingState false)) m
    end.
End Loader.
End Legacy.

(** ** A browser for running the examples

    Collation by character codes, no escaping, and time values printed as
    their digits: enough to evaluate the methods on concrete machines. *)

Definition compareCodes (a b : string) : Z :=
  match String.compare a b with
  | Lt => -1
  | Eq => 0
  | Gt => 1
  end.

Definition showZ (z : Z) : string := NilZero.string_of_int (Z.to_int z).

Definition plainBuiltins : Builtins :=
  {| localeCompare := compareCodes;
     encodeURIComponent := fun s => s;
     toISOString := showZ;
     localDateISO := fun y m d =>
       match y, m, d with
       | Some y, Some m, Some d => showZ y +:+ "-" +:+ showZ (m + 1) +:+ "-" +:+ showZ d
       | _, _, _ => "Invalid Date"
       end;
     dateValue := fun s => parseInt s |}.

(** the object after its constructor, on a GitHub Pages host, with the
    container found by [cacheElements] *)
Definition pagesRepo : Repo :=
  extractRepoInfo "tiagolimasoares.github.io" "/dev_notes/" "https:".

Definition freshMachine (r : Repo) (now : Z) (net : FetchOutcome) (store : option StoredItem) : Machine :=
  mkMachine [] initialCategories "todos" r None (Some Blank) false now store true net 120 [].

(** ** Vocabulary of the statements *)

(** [delimited u k]: the code [k] stands in [u] in one of the five shapes
    that the categorizer looks for *)
Definition delimited (u k : string) : Prop :=
  (exists pre post, u = pre +:+ "_" +:+ k +:+ "_" +:+ post) \/
  (exists pre post, u = pre +:+ "-" +:+ k +:+ "-" +:+ post) \/
  (exists pre post, u = pre +:+ " " +:+ k +:+ " " +:+ post) \/
  (exists post, u = k +:+ "_" +:+ post) \/
  (exists post, u = k +:+ "-" +:+ post).

(** the text before an occurrence ends at a boundary: it is empty or its
    last character is not alphanumeric; likewise for the text after it *)
Definition boundaryBefore (pre : string) : Prop :=
  pre = "" \/ exists p c, pre = p +:+ String c "" /\ isAlnumChar c = false.
Definition boundaryAfter (post : string) : Prop :=
  post = "" \/ exists c p, post = String c p /\ isAlnumChar c = false.

(** [flanked u k]: [k] occurs in [u] between two boundaries *)
Definition flanked (u k : string) : Prop :=
  exists pre post, u = pre +:+ k +:+ post /\ boundaryBefore pre /\ boundaryAfter post.

(** two characters that differ at most in letter case *)
Definition sameLetter (a b : ascii) : bool :=
  Ascii.eqb a b ||
  (isLetterChar a && isLetterChar b &&
   ((code a =? code b + 32) || (code b =? code a + 32))%N).

(** two names with the same characters up to letter case *)
Fixpoint caseVariant (f g : string) : bool :=
  match f, g with
  | EmptyString, EmptyString => true
  | String a f', String b g' => sameLetter a b && caseVariant f' g'
  | _, _ => false
  end.

(** a string of digits *)
Fixpoint allDigits (s : string) : bool :=
  match s with
  | EmptyString => true
  | String c s' => isDigitChar c && allDigits s'
  end.

(** the keys of [this.categories] *)
Definition categoryKeys : list string := "GERAL" :: categoryPriority.

(** the categories of the constructor are all there *)
Definition hasAllCategories (m : Machine) : Prop :=
  forall k, In k categoryKeys -> is_Some (categories m !! k).

(** the sum of the sizes of all the categories *)
Definition bucketTotal (cats : gmap string Category) : nat :=
  map_fold (fun _ c n => (length (members c) + n)%nat) 0%nat cats.

(** the repository is reached through the GitHub API *)
Definition remoteEnabled (r : Repo) : Prop :=
  isLocal r = false /\ useGitHubAPI r <> Some false.

(** the remote listing fails: the request is rejected, the status is not a
    success, or the body is not a listing *)
Definition remoteFails (net : FetchOutcome) : Prop :=
  match net with
  | Rejected _ => True
  | Responded status _ json => ok status = false \/ json = None
  end.

(** what a fresh read of the persisted cache yields at time [now] *)
Definition freshCache (now : Z) (item : option StoredItem) : option (list NoteFile) :=
  match item with
  | Some (Stored cachedFiles timestamp _) =>
      if now - timestamp >? 3600000 then None else Some cachedFiles
  | _ => None
  end.

(** ** What a match is

    The matches of a regular expression as a relation, against which the
    backtracking matcher is sound.  [matches ci r s caps s' caps'] says that
    [r] matches a prefix of [s] and leaves [s'], and that the captures grow
    from [caps] to [caps']. *)

(** [n] characters of the class [c], from [s] to [s'] *)
Inductive repeats (ci : bool) (c : cset) : nat -> string -> string -> Prop :=
| repeats_O s : repeats ci c 0 s s
| repeats_S n x s s' :
    cset_match ci c x = true -> repeats ci c n s s' ->
    repeats ci c (S n) (String x s) s'.

Inductive matches (ci : bool) : regex -> string -> list string -> string -> list string -> Prop :=
| matches_Atom c x s caps :
    cset_match ci c x = true -> matches ci (Atom c) (String x s) caps s caps
| matches_Rep c lo hi n s s' caps :
    repeats ci c n s s' -> (lo <= n)%nat -> (forall h, hi = Some h -> (n <= h)%nat) ->
    matches ci (Rep c lo hi) s caps s' caps
| matches_Group r s caps s' caps' :
    matches ci r s caps s' caps' ->
    matches ci (Group r) s caps s' (caps' ++ [consumed s s'])
| matches_Seq r1 r2 s caps s1 caps1 s2 caps2 :
    matches ci r1 s caps s1 caps1 -> matches ci r2 s1 caps1 s2 caps2 ->
    matches ci (Seq r1 r2) s caps s2 caps2
| matches_Alt_l r1 r2 s caps s' caps' :
    matches ci r1 s caps s' caps' -> matches ci (Alt r1 r2) s caps s' caps'
| matches_Alt_r r1 r2 s caps s' caps' :
    matches ci r2 s caps s' caps' -> matches ci (Alt r1 r2) s caps s' caps'
| matches_Eos caps : matches ci Eos "" caps "" caps.

(** a non-empty string of digits *)
Definition digitString (w : string) : Prop := w <> "" /\ allDigits w = true.

(** the two shapes of the match arrays of the number patterns: two groups
    with the number in the second, or one group that is the number *)
Definition twoGroups (m : list string) : Prop :=
  exists full g1 g2, m = [full; g1; g2] /\ digitString g2.
Definition oneGroup (m : list string) : Prop :=
  exists full g1, m = [full; g1] /\ digitString g1.
Definition numberMatch (m : list string) : Prop := twoGroups m \/ oneGroup m.

(** the number that the loop of [extractFileNumber] reads off a match array *)
Definition numberOf (m : list string) : number :=
  parseInt (matchItem m (if (3 <=? length m)%nat then 2 else 1)%nat).

(** a category with [l] appended to its members *)
Definition withMembers (l : list CatFile) (c : Category) : Category :=
  mkCategory (title c) (icon c) (color c) (members c ++ l).

(** the files of [l] that the categorizer sends to [k], as members *)
Definition membersOf (k : string) (l : list NoteFile) : list CatFile :=
  enrich <$> filter (fun f => detectFileCategory (name f) = k) l.

(** a machine with three files for running the examples *)
Definition noteNamed (fileName : string) : NoteFile :=
  mkNoteFile fileName ("notes/" +:+ fileName) 8000 ("./notes/" +:+ fileName) None
    "2025-07-15T00:00:00.000Z" None.

Definition sampleFiles : list NoteFile :=
  [ noteNamed "2025_07_15_DP_001 - Infracao penal fixacao.html";
    noteNamed "2025_07_08_DPP_001 - x.html";
    noteNamed "Acao popular.html" ].

Definition sampleMachine : Machine :=
  set_files sampleFiles (freshMachine pagesRepo 1000 (Rejected "offline") None).

(** the sample machine two minutes after a load *)
Definition cachedMachine : Machine :=
  set_clock 121000 (set_lastUpdate (Some 1000) sampleMachine).

(** the machine once [fetch] has answered *)
Definition afterFetch (m : Machine) : Machine :=
  set_clock (clock m + latency m) (record (CallFetch (apiUrlOf (currentRepo m))) m).

(** the answer is a 404 *)
Definition notFound (net : FetchOutcome) : bool :=
  match net with
  | Responded status _ _ => status =? 404
  | Rejected _ => false
  end.

(** the view is the grid of the files or the empty state, not an error *)
Definition showsCatalog (m : Machine) : Prop :=
  (exists cards, filesContainer m = Some (Grid cards)) \/ filesContainer m = Some EmptyState.

(** machines on a GitHub Pages host whose storage holds a cache written
    100 ms before: the API answers 404, 500, or an empty listing *)
Definition cachedItem : StoredItem := Stored [noteNamed "cached.html"] 900 "1.0.0".

Definition machine404 : Machine :=
  freshMachine pagesRepo 1000 (Responded 404 "Not Found" None) (Some cachedItem).
Definition machine500 : Machine :=
  freshMachine pagesRepo 1000 (Responded 500 "Internal Server Error" None) (Some cachedItem).
Definition machineEmptyListing : Machine :=
  freshMachine pagesRepo 1000 (Responded 200 "OK" (Some [])) (Some cachedItem).

(** the string has a digit *)
Fixpoint hasDigit (s : string) : bool :=
  match s with
  | EmptyString => false
  | String c s' => isDigitChar c || hasDigit s'
  end.

(** every match of the expression consumes a digit *)
Fixpoint needsDigit (r : regex) : bool :=
  match r with
  | Atom CDigit => true
  | Atom _ => false
  | Rep CDigit (S _) _ => true
  | Rep _ _ _ => false
  | Group r1 => needsDigit r1
  | Seq r1 r2 => needsDigit r1 || needsDigit r2
  | Alt r1 r2 => needsDigit r1 && needsDigit r2
  | Eos => false
  end.

(** ** Further methods of the class *)

Definition set_activeCategory (v : string) (m : Machine) : Machine :=
  mkMachine (files m) (categories m) v (currentRepo m) (lastUpdate m)
    (filesContainer m) (loadingState m) (clock m) (localStorage m)
    (storageWritable m) (network m) (latency m) (calls m).
Definition set_network (v : FetchOutcome) (m : Machine) : Machine :=
  mkMachine (files m) (categories m) (activeCategory m) (currentRepo m) (lastUpdate m)
    (filesContainer m) (loadingState m) (clock m) (localStorage m)
    (storageWritable m) v (latency m) (calls m).

(** [clearCache()]; the removal succeeds, as in [getCachedData] *)
Definition clearCache (m : Machine) : Machine :=
  set_localStorage None (record CallRemoveItem m).

Section MoreMethods.
Context `{Builtins}.

(** the block of [loadFiles] that picks the source of the catalog *)
Definition loadSource (table : list string) : M unit :=
  let! r := ask currentRepo in
  if bool_decide (useGitHubAPI r = Some false) || isLocal r
  then loadLocalFilesFrom table
  else tryCatch loadFromGitHub (fun githubError => loadLocalFilesFrom table).

(** [switchCategory(categoryKey)], for the keys that the tabs pass: 'todos'
    and the keys of the categories, for which the selector of the active
    tab is well formed.  The classes of the tabs, the statistics and the
    search field only live in the page and are left out. *)
Definition switchCategory (categoryKey : string) (m : Machine) : Machine :=
  renderFiles (set_activeCategory categoryKey m).

End MoreMethods.

(** ** Vocabulary of the further statements *)

(** the method leaves the field [proj] of the machine as it was *)
Definition preserves {A B : Type} (proj : Machine -> B) (c : M A) : Prop :=
  forall m, proj (snd (c m)) = proj m.

(** [l'] is [l] with calls of [setItem] added at the end, at most one here *)
Definition onlySetItem (before after : list Call) : Prop :=
  after = before \/ after = before ++ [CallSetItem].

(** the view is final: a grid, the empty state or an error, not the loading
    notice *)
Definition settledView (m : Machine) : Prop :=
  exists v, filesContainer m = Some v /\ v <> LoadingView /\ v <> Blank.

Section MoreVocabulary.
Context `{Builtins}.

(** the list that [loadLocalFiles] leaves at time [now]: the table, or the
    list of [debugLocalFiles] when the table is empty *)
Definition staticCatalog (now : Z) (table : list string) : list NoteFile :=
  if (length table =? 0)%nat
  then sortBy compareByNumber (imap (emergencyFile now) allKnownFiles)
  else sortBy compareByNumber (imap (localFile now) table).

(** the order inside a category: by number, then by name *)
Definition memberLe (a b : CatFile) : Prop :=
  match numericOrder a, numericOrder b with
  | Some x, Some y =>
      x < y \/ (x = y /\ localeCompare (name (base a)) (name (base b)) <= 0)
  | _, _ => False
  end.

(** the order of the main list: by category, then by number *)
Definition fileLe (a b : NoteFile) : Prop :=
  let categoryA := detectFileCategory (name a) in
  let categoryB := detectFileCategory (name b) in
  match extractFileNumber (name a), extractFileNumber (name b) with
  | Some x, Some y =>
      (categoryA = categoryB /\ x <= y) \/
      (categoryA <> categoryB /\ localeCompare categoryA categoryB <= 0)
  | _, _ => False
  end.

End MoreVocabulary.

(** the files of [l] that the categorizer sends to [k] *)
Definition filesOf (k : string) (l : list NoteFile) : list NoteFile :=
  filter (fun f => detectFileCategory (name f) = k) l.

(** a page opened from the local server, with the container found *)
Definition localRepo : Repo := extractRepoInfo "localhost" "/dev_notes/" "http:".

Definition okListing : list Entry :=
  [ mkEntry "2025_07_15_DP_001 - Infracao penal fixacao.html"
      "notes/2025_07_15_DP_001 - Infracao penal fixacao.html" 8000 "file" None;
    mkEntry "README.md" "notes/README.md" 120 "file" None;
    mkEntry "img.html" "notes/img.html" 0 "dir" None ].

(** the API answers with a listing of one note, one other file and one
    directory *)
Definition machineListing : Machine :=
  freshMachine pagesRepo 1000 (Responded 200 "OK" (Some okListing)) None.

Definition localMachine : Machine := freshMachine localRepo 1000 (Rejected "offline") None.

(** the legacy page on its GitHub Pages host, the API answering with the
    listing above *)
Definition legacyRepo : Repo := Legacy.extractRepoInfo "tiagolimasoares.github.io" "/dev_notes/".
Definition legacyMachine : Machine :=
  freshMachine legacyRepo 1000 (Responded 200 "OK" (Some okListing)) None.

(** the legacy page after its first load, and one minute later with the API
    answering 500 *)
Definition legacyLoaded : Machine := run (@Legacy.loadFiles plainBuiltins true) legacyMachine.
Definition legacyOffline : Machine :=
  set_network (Responded 500 "Internal Server Error" None)
    (set_clock (clock legacyLoaded + 60000) legacyLoaded).

(** a local page whose table of categories has lost the key RLM *)
Definition machineWithoutRLM : Machine :=
  set_categories (delete "RLM" initialCategories) localMachine.

(** ** The search *)

(** [s.trim()], within ASCII *)
Fixpoint trimStart (s : string) : string :=
  match s with
  | EmptyString => EmptyString
  | String c s' => if isSpaceChar c then trimStart s' else s
  end.

Fixpoint trimEnd (s : string) : string :=
  match s with
  | EmptyString => EmptyString
  | String c s' =>
      match trimEnd s' with
      | EmptyString => if isSpaceChar c then EmptyString else String c EmptyString
      | t => String c t
      end
  end.

Definition trim (s : string) : string := trimEnd (trimStart s).

(** a card of the grid: its attribute [data-file-name], its text, and
    whether the search has hidden it.  The elements of class [file-card]
    are those that [createFileCard] writes, which carry the attribute. *)
Record Card : Type := mkCard {
  dataFileName : string;
  textContent : string;
  hidden : bool }.

(** Where the notice of the search goes.  [showSearchFeedback] inserts it
    into the element of class [files-section], before the first element of
    class [files-grid] inside that section or else before the first child
    of the section.  The page has no such section; or that node is a child
    of the section (or there is none); or the grid lies deeper inside the
    section, as it does when the section is an ancestor of the container
    that [renderFiles] fills, and [insertBefore] throws a NotFoundError. *)
Inductive Layout : Type :=
| NoFilesSection
| GridIsChild
| GridIsNested.

(** how a call ends *)
Inductive Completion : Type :=
| Returns
| ThrowsNotFoundError.

(** the cards of the grid, the notice of the search and the layout of the
    page.  The notice is there at most once.  It is recorded by the term
    and the number of results that [showSearchFeedback] writes into its
    markup; the term is written unescaped, so the pair stands for the
    markup that is assigned and not for what the browser makes of it, and
    the name of the active category, which is written beside them, is left
    out. *)
Record Page : Type := mkPage {
  fileCards : list Card;
  searchFeedback : option (string * nat);
  layout : Layout }.

Definition setHidden (h : bool) (card : Card) : Card :=
  mkCard (dataFileName card) (textContent card) h.

(** [fileName.includes(term) || fileContent.includes(term)] *)
Definition isVisible (term : string) (card : Card) : bool :=
  includes (dataFileName card) term || includes (toLowerCase (textContent card)) term.

(** [showSearchFeedback(term, count)]: the notice that is there is removed
    first *)
Definition showSearchFeedback (term : string) (count : nat) (p : Page) : Completion * Page :=
  match layout p with
  | NoFilesSection => (Returns, mkPage (fileCards p) None (layout p))
  | GridIsChild => (Returns, mkPage (fileCards p) (Some (term, count)) (layout p))
  | GridIsNested => (ThrowsNotFoundError, mkPage (fileCards p) None (layout p))
  end.

(** [filterFiles(searchTerm)]: how the call ends and the page it leaves *)
Definition filterFiles (searchTerm : string) (p : Page) : Completion * Page :=
  let term := trim (toLowerCase searchTerm) in
  if String.eqb term ""
  then (Returns, mkPage (setHidden false <$> fileCards p) None (layout p))
  else
    let visibleCount :=
      length (filter (fun card => isVisible term card = true) (fileCards p)) in
    showSearchFeedback term visibleCount
      (mkPage ((fun card => setHidden (negb (isVisible term card)) card) <$> fileCards p)
         (searchFeedback p) (layout p)).

(** the attribute that [createFileCard] gives to the card of a file *)
Definition dataFileNameOf (file : NoteFile) : string := toLowerCase (name file).

(** a string of white space *)
Fixpoint allSpaces (s : string) : bool :=
  match s with
  | EmptyString => true
  | String c s' => isSpaceChar c && allSpaces s'
  end.

(** a page with two cards, whose grid is a child of the files section, and
    the same page with the grid deeper inside the section *)
Definition sampleCards : list Card :=
  [ mkCard "2025_07_15_dp_001 - infracao penal fixacao.html"
      "📝 2025_07_15_DP_001 - Infracao penal fixacao Tamanho: 7.81 KB" false;
    mkCard "acao popular.html" "📝 Acao popular Tamanho: 7.81 KB" true ].
Definition samplePage : Page := mkPage sampleCards None GridIsChild.
Definition nestedPage : Page := mkPage sampleCards (Some ("acao", 1%nat)) GridIsNested.

(** ** The automatic update *)

(** The timers of the object: the field [autoUpdateInterval] ([None] while
    it is undefined or null; a handle of [setInterval] is a positive number
    and so truthy), the intervals of the page that are running, and the
    handle that the next [setInterval] returns. *)
Record Timers : Type := mkTimers {
  autoUpdateInterval : option positive;
  activeIntervals : list positive;
  nextHandle : positive }.

(** [setupAutoUpdate()] *)
Definition setupAutoUpdate (t : Timers) : Timers :=
  mkTimers (Some (nextHandle t)) (nextHandle t :: activeIntervals t)
    (Pos.succ (nextHandle t)).

(** [pauseAutoUpdate()] *)
Definition pauseAutoUpdate (t : Timers) : Timers :=
  match autoUpdateInterval t with
  | Some handle =>
      mkTimers None (filter (fun h => h <> handle) (activeIntervals t)) (nextHandle t)
  | None => t
  end.

(** [resumeAutoUpdate()] *)
Definition resumeAutoUpdate (t : Timers) : Timers :=
  match autoUpdateInterval t with
  | None => setupAutoUpdate t
  | Some _ => t
  end.

(** the listener of [visibilitychange], on [document.hidden] *)
Definition visibilityChange (t : Timers) (documentHidden : bool) : Timers :=
  if documentHidden then pauseAutoUpdate t else resumeAutoUpdate t.

(** [destroy()]; the two [removeEventListener] calls name functions that
    were never added and remove nothing *)
Definition destroy (t : Timers) : Timers := pauseAutoUpdate t.

(** the object and its timers *)
Record App : Type := mkApp { machine : Machine; timers : Timers }.

(** the object before [init()]: no timer has been set *)
Definition newTimers (next : positive) : Timers := mkTimers None [] next.

Section Init.
Context `{Builtins}.

(** [init()].  [cacheElements] throws when the container is missing and the
    [catch] then calls [renderError], which returns at once without a
    container.  [events] are the visibility changes that arrive while the
    first load is awaited: the listener is installed before it. *)
Definition initDuring (events : list bool) (a : App) : App :=
  match filesContainer (machine a) with
  | None => a
  | Some _ =>
      let during := foldl visibilityChange (timers a) events in
      match loadFiles false (machine a) with
      | (Returned _, m') => mkApp m' (setupAutoUpdate during)
      | (Thrown _, m') =>
          mkApp (renderError "Erro na inicialização do sistema" m') during
      end
  end.

Definition init (a : App) : App := initDuring [] a.

End Init.

(** every running interval is the one that the object holds *)
Definition singleTimer (t : Timers) : Prop :=
  activeIntervals t = match autoUpdateInterval t with
                      | Some handle => [handle]
                      | None => []
                      end.

(** ** The tabs of the categories *)

(** the keys of [this.categories] in the order of the constructor, which is
    the order of [Object.entries] *)
Definition constructorKeys : list string :=
  ["DC"; "DA"; "RLM"; "PT"; "MT"; "DPP"; "DP"; "INF"; "GERAL"].

(** [Object.entries(this.categories)] *)
Definition entries (m : Machine) : list (string * Category) :=
  omap (fun key => (fun category => (key, category)) <$> categories m !! key) constructorKeys.

(** a button of the tab bar *)
Record Tab : Type := mkTab {
  tabKey : string;
  tabName : string;
  tabCount : nat;
  tabActive : bool }.

(** [([,a], [,b]) => b.files.length - a.files.length] *)
Definition compareBySize (a b : string * Category) : number :=
  Some (Z.of_nat (length (members (snd b))) - Z.of_nat (length (members (snd a)))).

(** [renderCategoryTabs()]: the buttons that are written into the tab bar
    when the page has one *)
Definition renderCategoryTabs (m : Machine) : list Tab :=
  mkTab "todos" "Todos" (length (files m)) (String.eqb (activeCategory m) "todos") ::
  ((fun entry =>
      mkTab (fst entry) (title (snd entry)) (length (members (snd entry)))
        (String.eqb (activeCategory m) (fst entry)))
     <$> sortBy compareBySize
           (filter (fun entry => (0 < length (members (snd entry)))%nat) (entries m))).

(** the sample machine before [init()] *)
Definition sampleApp : App := mkApp sampleMachine (newTimers 1).

(** ** Runs of digits *)

(** the digits at the head of [s], and what follows them *)
Fixpoint leadingDigits (s : string) : string :=
  match s with
  | String c s' => if isDigitChar c then String c (leadingDigits s') else EmptyString
  | EmptyString => EmptyString
  end.

Fixpoint afterDigits (s : string) : string :=
  match s with
  | String c s' => if isDigitChar c then afterDigits s' else s
  | EmptyString => EmptyString
  end.

(** the first run of digits of [s] *)
Fixpoint firstRun (s : string) : string :=
  match s with
  | String c s' => if isDigitChar c then leadingDigits s else firstRun s'
  | EmptyString => EmptyString
  end.

(** no run of digits of [s] has more than [k] digits *)
Fixpoint digitRunsAtMost (k : nat) (s : string) : bool :=
  (String.length (leadingDigits s) <=? k)%nat &&
  match s with
  | String _ s' => digitRunsAtMost k s'
  | EmptyString => true
  end.

(** the numbers of the name are exact.  The numbers of the script are
    doubles: [parseInt] rounds a number above 2^53 and answers Infinity
    from 309 digits on.  A run of at most fifteen
    digits is below 10^15 < 2^53, where [parseInt] and the subtraction of
    the comparators are exact and the integers of this file are the numbers
    of the script. *)
Definition exactNumbers (fileName : string) : bool := digitRunsAtMost 15 fileName.

(** the patterns whose number has three or four digits *)
Definition shortPatterns : list pattern :=
  [patternUnderscore; patternHyphen; patternSpace; patternBoundary].

(** ** Strings *)

Lemma str_app_cons (c : ascii) (s t : string) : String c s +:+ t = String c (s +:+ t).
Proof. reflexivity. Qed.

Lemma str_app_nil_l (s : string) : "" +:+ s = s.
Proof. reflexivity. Qed.

Lemma str_app_nil_r (s : string) : s +:+ "" = s.
Proof. induction s as [|c s IH]; [reflexivity|]. rewrite str_app_cons. by f_equal. Qed.

Lemma str_app_assoc (a b c : string) : (a +:+ b) +:+ c = a +:+ b +:+ c.
Proof. induction a as [|x a IH]; [reflexivity|]. rewrite !str_app_cons. by f_equal. Qed.

Lemma str_length_app (a b : string) :
  String.length (a +:+ b) = (String.length a + String.length b)%nat.
Proof. induction a as [|x a IH]; [reflexivity|]. rewrite str_app_cons. simpl. by f_equal. Qed.

Lemma startsWith_spec (s p : string) :
  startsWith s p = true <-> exists post, s = p +:+ post.
Proof.
  revert s. induction p as [|b p IH]; intros s; simpl.
  - split; [intros _; by exists s | done].
  - destruct s as [|a s].
    + split; [done | intros [post Hpost]; discriminate].
    + destruct (Ascii.eqb_spec a b) as [->|Hne].
      * rewrite IH. split; intros [post Hpost]; exists post.
        -- rewrite str_app_cons. by f_equal.
        -- rewrite str_app_cons in Hpost. by injection Hpost.
      * split; [done | intros [post Hpost]]. rewrite str_app_cons in Hpost.
        injection Hpost as Hab _. by destruct Hne.
Qed.

Lemma includes_spec (s t : string) :
  includes s t = true <-> exists pre post, s = pre +:+ t +:+ post.
Proof.
  induction s as [|a s IH]; simpl.
  - rewrite orb_false_r, startsWith_spec. split.
    + intros [post Hpost]. by exists "", post.
    + intros [[|c pre] [post Hpost]]; [by exists post | discriminate].
  - rewrite orb_true_iff, startsWith_spec, IH. split.
    + intros [[post Hpost] | (pre & post & Hs)].
      * by exists "", post.
      * exists (String a pre), post. rewrite str_app_cons. by f_equal.
    + intros [[|c pre] [post Hpost]].
      * left. by exists post.
      * right. rewrite str_app_cons in Hpost. injection Hpost as _ Hs. by exists pre, post.
Qed.

Lemma toUpperCase_app (a b : string) :
  toUpperCase (a +:+ b) = toUpperCase a +:+ toUpperCase b.
Proof. induction a as [|x a IH]; [reflexivity|]. rewrite str_app_cons. simpl. by rewrite IH. Qed.

Lemma code_inv (c : ascii) : ascii_of_N (code c) = c.
Proof. apply ascii_N_embedding. Qed.

Lemma code_bound (c : ascii) : (code c < 256)%N.
Proof. apply N_ascii_bounded. Qed.

Lemma code_of_N (n : N) : (n < 256)%N -> code (ascii_of_N n) = n.
Proof. apply N_ascii_embedding. Qed.

(** case analysis on every comparison of character codes in sight *)
Ltac split_codes :=
  repeat match goal with
         | H : context [N.leb ?a ?b] |- _ => destruct (N.leb_spec a b); simpl in H
         | |- context [N.leb ?a ?b] => destruct (N.leb_spec a b); simpl
         | H : context [N.eqb ?a ?b] |- _ => destruct (N.eqb_spec a b); simpl in H
         | |- context [N.eqb ?a ?b] => destruct (N.eqb_spec a b); simpl
         end.

Lemma sameLetter_upper (a b : ascii) :
  sameLetter a b = true -> toUpperChar a = toUpperChar b.
Proof.
  unfold sameLetter. rewrite orb_true_iff, !andb_true_iff, orb_true_iff.
  intros [Heq | [[Ha Hb] Hd]].
  - by apply Ascii.eqb_eq in Heq as ->.
  - unfold toUpperChar, isLetterChar, isUpperChar, isLowerChar in *.
    destruct Hd as [Hd | Hd]; apply N.eqb_eq in Hd.
    + rewrite Hd in *. split_codes; try lia; try discriminate.
      replace (code b + 32 - 32)%N with (code b) by lia. apply code_inv.
    + rewrite Hd in *. split_codes; try lia; try discriminate.
      replace (code a + 32 - 32)%N with (code a) by lia.
      symmetry. apply code_inv.
Qed.

Lemma caseVariant_upper (f g : string) :
  caseVariant f g = true -> toUpperCase f = toUpperCase g.
Proof.
  revert g. induction f as [|a f IH]; intros [|b g]; simpl; try done.
  rewrite andb_true_iff. intros [Hab Hfg].
  by rewrite (sameLetter_upper _ _ Hab), (IH _ Hfg).
Qed.

(** ** The categorizer: what the loop returns *)

Lemma categoryTest_spec (u k : string) : categoryTest u k = true <-> delimited u k.
Proof.
  unfold categoryTest, delimited.
  rewrite !orb_true_iff, !includes_spec, !startsWith_spec.
  setoid_rewrite str_app_assoc. setoid_rewrite str_app_assoc. tauto.
Qed.

Lemma categoryTest_false (u k : string) : categoryTest u k = false <-> ~ delimited u k.
Proof. rewrite <- categoryTest_spec. by destruct (categoryTest u k). Qed.

Lemma delimited_flanked (u k : string) : delimited u k -> flanked u k.
Proof.
  assert (Hsep : forall c post, isAlnumChar c = false -> boundaryAfter (String c post)).
  { intros c post Hc. right. by exists c, post. }
  assert (Hpre : forall c pre, isAlnumChar c = false -> boundaryBefore (pre +:+ String c "")).
  { intros c pre Hc. right. by exists pre, c. }
  intros [(pre & post & ->) | [(pre & post & ->) | [(pre & post & ->) | [(post & ->) | (post & ->)]]]].
  - exists (pre +:+ "_"), ("_" +:+ post). rewrite !str_app_assoc. split; [done|]. split; [by apply Hpre | by apply Hsep].
  - exists (pre +:+ "-"), ("-" +:+ post). rewrite !str_app_assoc. split; [done|]. split; [by apply Hpre | by apply Hsep].
  - exists (pre +:+ " "), (" " +:+ post). rewrite !str_app_assoc. split; [done|]. split; [by apply Hpre | by apply Hsep].
  - exists "", ("_" +:+ post). split; [done|]. split; [by left | by apply Hsep].
  - exists "", ("-" +:+ post). split; [done|]. split; [by left | by apply Hsep].
Qed.

Lemma detectLoop_result (u : string) (keys : list string) :
  (exists earlier later,
      keys = earlier ++ detectLoop u keys :: later /\
      categoryTest u (detectLoop u keys) = true /\
      forall k', In k' earlier -> categoryTest u k' = false) \/
  (detectLoop u keys = "GERAL" /\ forall k', In k' keys -> categoryTest u k' = false).
Proof.
  induction keys as [|k keys IH]; simpl.
  - right. split; [done | intros k' []].
  - destruct (categoryTest u k) eqn:Hk.
    + left. exists [], keys. split; [done|]. split; [done | intros k' []].
    + destruct IH as [(earlier & later & Hkeys & Htest & Hearlier) | [Hg Hall]].
      * left. exists (k :: earlier), later. split; [simpl; by f_equal|]. split; [done|].
        intros k' [<- | Hin]; [done | by apply Hearlier].
      * right. split; [done|]. intros k' [<- | Hin]; [done | by apply Hall].
Qed.

Lemma detectLoop_first (u : string) (earlier : list string) (k : string) (later : list string) :
  (forall k', In k' earlier -> categoryTest u k' = false) ->
  categoryTest u k = true ->
  detectLoop u (earlier ++ k :: later) = k.
Proof.
  intros Hearlier Hk. induction earlier as [|k0 earlier IH]; simpl.
  - by rewrite Hk.
  - rewrite (Hearlier k0) by (by left). apply IH. intros k' Hin. apply Hearlier. by right.
Qed.

Lemma GERAL_not_a_code : ~ In "GERAL" categoryPriority.
Proof. unfold categoryPriority. simpl. intros H. repeat destruct H as [H | H]; done. Qed.

Lemma detectFileCategory_key (fileName : string) :
  In (detectFileCategory fileName) categoryKeys.
Proof.
  unfold detectFileCategory, categoryKeys.
  destruct (detectLoop_result (toUpperCase fileName) categoryPriority)
    as [(earlier & later & Hkeys & _) | [-> _]]; [|by left].
  right. rewrite Hkeys at 2. apply in_elt.
Qed.

(** C4.  A name that contains the marker [_DPP_] is classified DPP, not DP,
    whatever stands around the marker; so is the name of the specification,
    [2025_07_08_DPP_001 - x.html]. *)
Theorem detectFileCategory_DPP_marker :
  (forall pre post : string,
      detectFileCategory (pre +:+ "_DPP_" +:+ post) = "DPP" /\
      detectFileCategory (pre +:+ "_DPP_" +:+ post) <> "DP") /\
  detectFileCategory "2025_07_08_DPP_001 - x.html" = "DPP".
Proof.
  split; [|reflexivity].
  intros pre post.
  assert (Hdpp : detectFileCategory (pre +:+ "_DPP_" +:+ post) = "DPP").
  { unfold detectFileCategory.
    apply (detectLoop_first _ [] "DPP"); [intros k' [] |].
    apply categoryTest_spec. left.
    exists (toUpperCase pre), (toUpperCase post).
    by rewrite !toUpperCase_app. }
  by rewrite Hdpp.
Qed.

(** C10.  The category does not depend on letter case: two names that have
    the same characters up to the case of their letters get the same
    category, because the name is upper-cased before any code is tested. *)
Theorem detectFileCategory_case_insensitive (f g : string) :
  caseVariant f g = true -> detectFileCategory f = detectFileCategory g.
Proof.
  intros Hfg. unfold detectFileCategory. by rewrite (caseVariant_upper _ _ Hfg).
Qed.

(** C10 at work on a name in lower case and in upper case *)
Lemma detectFileCategory_case_insensitive_witness :
  caseVariant "2025_07_08_dpp_001 - Notas.html" "2025_07_08_DPP_001 - NOTAS.HTML" = true /\
  detectFileCategory "2025_07_08_dpp_001 - Notas.html" =
  detectFileCategory "2025_07_08_DPP_001 - NOTAS.HTML".
Proof.
  split; [reflexivity|].
  apply (detectFileCategory_case_insensitive
           "2025_07_08_dpp_001 - Notas.html" "2025_07_08_DPP_001 - NOTAS.HTML").
  reflexivity.
Defined.

(** the lower-cased and the upper-cased name are such variants *)
Lemma sameLetter_toLowerChar (c : ascii) : sameLetter c (toLowerChar c) = true.
Proof.
  unfold sameLetter, toLowerChar, isLetterChar, isUpperChar, isLowerChar.
  destruct ((65 <=? code c) && (code c <=? 90))%N eqn:Hup.
  - pose proof (code_bound c).
    rewrite code_of_N by (split_codes; try discriminate; lia).
    split_codes; try discriminate; try lia; by rewrite ?orb_true_r.
  - by rewrite Ascii.eqb_refl.
Qed.

Lemma sameLetter_toUpperChar (c : ascii) : sameLetter c (toUpperChar c) = true.
Proof.
  unfold sameLetter, toUpperChar, isLetterChar, isUpperChar, isLowerChar.
  destruct ((97 <=? code c) && (code c <=? 122))%N eqn:Hlow.
  - pose proof (code_bound c).
    rewrite code_of_N by (split_codes; try discriminate; lia).
    split_codes; try discriminate; try lia; by rewrite ?orb_true_r.
  - by rewrite Ascii.eqb_refl.
Qed.

Lemma caseVariant_toLowerCase (f : string) : caseVariant f (toLowerCase f) = true.
Proof. induction f as [|c f IH]; simpl; [done|]. by rewrite sameLetter_toLowerChar. Qed.

Lemma caseVariant_toUpperCase (f : string) : caseVariant f (toUpperCase f) = true.
Proof. induction f as [|c f IH]; simpl; [done|]. by rewrite sameLetter_toUpperChar. Qed.

(** C3, as the code has it.  The categorizer returns the code [k] exactly
    when [k] is the first code of the priority list that stands in the
    upper-cased name as [_k_], [-k-], [ k ], or at its start as [k_] or
    [k-]; it returns GERAL exactly when no code stands so; and a code that
    stands so has a separator or the start of the name before it and a
    separator after it, so that a code inside a word never matches. *)
Theorem detectFileCategory_delimited_code (fileName : string) :
  let u := toUpperCase fileName in
  (forall k, k <> "GERAL" ->
     (detectFileCategory fileName = k <->
      exists earlier later,
        categoryPriority = earlier ++ k :: later /\ delimited u k /\
        forall k', In k' earlier -> ~ delimited u k')) /\
  (detectFileCategory fileName = "GERAL" <->
     forall k, In k categoryPriority -> ~ delimited u k) /\
  (forall k, delimited u k -> flanked u k).
Proof.
  intros u. unfold detectFileCategory. fold u.
  pose proof (detectLoop_result u categoryPriority) as Hres.
  split; [|split].
  - intros k Hk. split.
    + intros <-. destruct Hres as [(earlier & later & Hkeys & Htest & Hearlier) | [Hg _]]; [|done].
      exists earlier, later. split; [done|]. split; [by apply categoryTest_spec|].
      intros k' Hin. by apply categoryTest_false, Hearlier.
    + intros (earlier & later & Hkeys & Hd & Hearlier). rewrite Hkeys.
      apply detectLoop_first; [|by apply categoryTest_spec].
      intros k' Hin. by apply categoryTest_false, Hearlier.
  - split.
    + intros Hg k Hin.
      destruct Hres as [(earlier & later & Hkeys & _) | [_ Hall]].
      * exfalso. apply GERAL_not_a_code. rewrite Hkeys, Hg. apply in_elt.
      * by apply categoryTest_false, Hall.
    + intros Hnone.
      destruct Hres as [(earlier & later & Hkeys & Htest & _) | [Hg _]]; [|done].
      exfalso. apply (Hnone (detectLoop u categoryPriority)).
      * rewrite Hkeys at 2. apply in_elt.
      * by apply categoryTest_spec.
  - intros k. apply delimited_flanked.
Qed.

(** C3, as the specification has it, fails: in [notas_DC.html] the code DC
    stands between an underscore and a dot, two characters that are not
    alphanumeric, and the name is classified GERAL. *)
Lemma detectFileCategory_flanked_code_missed :
  In "DC" categoryPriority /\
  flanked (toUpperCase "notas_DC.html") "DC" /\
  detectFileCategory "notas_DC.html" = "GERAL".
Proof.
  split; [simpl; tauto|]. split; [|reflexivity].
  exists "NOTAS_", ".HTML". split; [reflexivity|]. split.
  - right. by exists "NOTAS", "_"%char.
  - right. by exists "."%char, "HTML".
Qed.

(** ** The matcher is sound *)

Lemma rep_sound {A} ci c lo hi s (k : string -> option A) a :
  rep ci c lo hi s k = Some a ->
  exists n s', repeats ci c n s s' /\ (lo <= n)%nat /\
               (forall h, hi = Some h -> (n <= h)%nat) /\ k s' = Some a.
Proof.
  revert lo hi. induction s as [|x s IH]; intros lo hi Hrep.
  - assert (Hstop : match lo with O => k "" | S _ => None end = Some a).
    { simpl in Hrep. by destruct hi as [[|h]|]. }
    destruct lo; [|done]. exists 0%nat, "". split; [constructor|].
    split; [lia|]. split; [intros; lia | done].
  - assert (Hstop : match lo with O => k (String x s) | S _ => None end = Some a ->
              exists n s', repeats ci c n (String x s) s' /\ (lo <= n)%nat /\
                           (forall h, hi = Some h -> (n <= h)%nat) /\ k s' = Some a).
    { intros Hk. destruct lo; [|done]. exists 0%nat, (String x s).
      split; [constructor|]. split; [lia|]. split; [intros; lia | done]. }
    simpl in Hrep.
    assert (Hmore : match hi with Some O => False | _ => True end ->
              (if cset_match ci c x
               then match rep ci c (Nat.pred lo) (option_map Nat.pred hi) s k with
                    | Some a => Some a
                    | None => match lo with O => k (String x s) | S _ => None end
                    end
               else match lo with O => k (String x s) | S _ => None end) = Some a ->
              exists n s', repeats ci c n (String x s) s' /\ (lo <= n)%nat /\
                           (forall h, hi = Some h -> (n <= h)%nat) /\ k s' = Some a).
    { intros Hhi Hif. destruct (cset_match ci c x) eqn:Hx; [|by apply Hstop].
      destruct (rep ci c (Nat.pred lo) (option_map Nat.pred hi) s k) as [a'|] eqn:Hrec;
        [|by apply Hstop].
      injection Hif as ->. apply IH in Hrec as (n & s' & Hn & Hlo & Hh & Hk).
      exists (S n), s'. split; [by constructor|]. split; [lia|]. split; [|done].
      intros h ->. simpl in Hh. specialize (Hh _ eq_refl). destruct h; [done | lia]. }
    destruct hi as [[|h]|]; [by apply Hstop | by apply Hmore | by apply Hmore].
Qed.

Lemma rmatch_sound {A} ci r s caps (k : string -> list string -> option A) a :
  rmatch ci r s caps k = Some a ->
  exists s' caps', matches ci r s caps s' caps' /\ k s' caps' = Some a.
Proof.
  revert s caps k. induction r as [c | c lo hi | r IH | r1 IH1 r2 IH2 | r1 IH1 r2 IH2 | ];
    intros s caps k Hm; simpl in Hm.
  - destruct s as [|x s]; [done|]. destruct (cset_match ci c x) eqn:Hx; [|done].
    exists s, caps. split; [by constructor | done].
  - apply rep_sound in Hm as (n & s' & Hn & Hlo & Hh & Hk).
    exists s', caps. split; [by econstructor | done].
  - apply IH in Hm as (s' & caps' & Hr & Hk).
    exists s', (caps' ++ [consumed s s']). split; [by constructor | done].
  - apply IH1 in Hm as (s1 & caps1 & Hr1 & Hm). apply IH2 in Hm as (s2 & caps2 & Hr2 & Hk).
    exists s2, caps2. split; [by econstructor | done].
  - destruct (rmatch ci r1 s caps k) as [a'|] eqn:H1.
    + injection Hm as ->. apply IH1 in H1 as (s' & caps' & Hr & Hk).
      exists s', caps'. split; [by apply matches_Alt_l | done].
    + apply IH2 in Hm as (s' & caps' & Hr & Hk).
      exists s', caps'. split; [by apply matches_Alt_r | done].
  - destruct s; [|done]. exists "", caps. split; [constructor | done].
Qed.

(** a match found by the search is a match at some position *)
Lemma searchFrom_sound p pre s f :
  searchFrom p pre s = Some f ->
  exists t, matchHere p t = Some (groups f, after f).
Proof.
  revert pre. induction s as [|c s IH]; intros pre; simpl.
  - destruct (matchHere p "") as [[m rest]|] eqn:Hm; [|done].
    intros [= <-]. by exists "".
  - destruct (matchHere p (String c s)) as [[m rest]|] eqn:Hm.
    + intros [= <-]. by exists (String c s).
    + apply IH.
Qed.

Lemma strMatch_sound s p m :
  strMatch s p = Some m ->
  exists t t' caps, matches (ignoreCase p) (body p) t [] t' caps /\ m = consumed t t' :: caps.
Proof.
  unfold strMatch, exec. destruct (searchFrom p "" s) as [f|] eqn:Hf; [|done].
  intros [= <-]. apply searchFrom_sound in Hf as [t Ht].
  unfold matchHere in Ht. apply rmatch_sound in Ht as (t' & caps & Hm & [= <- _]).
  by exists t, t', caps.
Qed.

(** ** Digits *)

Lemma str_take_app (w s : string) : take (String.length w) (w +:+ s) = w.
Proof. induction w as [|x w IH]; [by destruct s|]. rewrite str_app_cons. simpl. by f_equal. Qed.

Lemma consumed_app (w s : string) : consumed (w +:+ s) s = w.
Proof.
  unfold consumed. rewrite str_length_app.
  replace (String.length w + String.length s - String.length s)%nat
    with (String.length w) by lia.
  apply str_take_app.
Qed.

Lemma digit_match ci x : cset_match ci CDigit x = isDigitChar x.
Proof.
  unfold cset_match. simpl. destruct (isDigitChar x) eqn:Hx; [done|].
  destruct ci; [|done]. simpl.
  unfold toUpperChar, toLowerChar, isLowerChar, isUpperChar, isDigitChar in *.
  pose proof (code_bound x).
  destruct ((97 <=? code x) && (code x <=? 122))%N eqn:Hlow;
    destruct ((65 <=? code x) && (code x <=? 90))%N eqn:Hup;
    rewrite ?code_of_N by (split_codes; try discriminate; lia);
    rewrite ?Hx; split_codes; try discriminate; try lia; done.
Qed.

Lemma repeats_digits ci n s s' :
  repeats ci CDigit n s s' ->
  exists w, s = w +:+ s' /\ String.length w = n /\ allDigits w = true.
Proof.
  induction 1 as [s | n x s s' Hx _ (w & -> & Hlen & Hw)].
  - by exists "".
  - exists (String x w). rewrite digit_match in Hx. simpl. rewrite Hx, Hw, Hlen. done.
Qed.

Lemma group_digits ci lo hi s caps s' caps' :
  matches ci (Group (Rep CDigit lo hi)) s caps s' caps' -> (1 <= lo)%nat ->
  exists w, caps' = caps ++ [w] /\ digitString w.
Proof.
  intros Hm Hlo. inversion Hm as [ | | r s0 caps0 s0' caps0' Hrep | | | | ]; subst.
  inversion Hrep as [ | c lo0 hi0 n s0 s0' caps0 Hn Hle Hh | | | | | ]; subst.
  apply repeats_digits in Hn as (w & -> & Hlen & Hw).
  exists w. rewrite consumed_app. split; [done|]. split; [|done].
  intros ->. simpl in Hlen. lia.
Qed.

Lemma matches_Rep_caps ci c lo hi s caps s' caps' :
  matches ci (Rep c lo hi) s caps s' caps' -> caps' = caps.
Proof. by inversion 1. Qed.

Lemma matches_Atom_caps ci c s caps s' caps' :
  matches ci (Atom c) s caps s' caps' -> caps' = caps.
Proof. by inversion 1. Qed.

Lemma matches_Seq_inv ci r1 r2 s caps s2 caps2 :
  matches ci (Seq r1 r2) s caps s2 caps2 ->
  exists s1 caps1, matches ci r1 s caps s1 caps1 /\ matches ci r2 s1 caps1 s2 caps2.
Proof. inversion 1; subst. eauto. Qed.

Lemma matches_Group_letters ci c lo hi s caps s' caps' :
  matches ci (Group (Rep c lo hi)) s caps s' caps' -> caps' = caps ++ [consumed s s'].
Proof.
  inversion 1 as [ | | r s0 caps0 s0' caps0' Hrep | | | | ]; subst.
  by apply matches_Rep_caps in Hrep as ->.
Qed.

(** the match arrays of the six patterns *)
Lemma patternUnderscore_shape s m : strMatch s patternUnderscore = Some m -> twoGroups m.
Proof.
  intros (t & t' & caps & Hm & ->)%strMatch_sound. simpl in Hm.
  apply matches_Seq_inv in Hm as (s1 & c1 & H1 & Hm). apply matches_Atom_caps in H1 as ->.
  apply matches_Seq_inv in Hm as (s2 & c2 & H2 & Hm). apply matches_Group_letters in H2 as ->.
  apply matches_Seq_inv in Hm as (s3 & c3 & H3 & Hm). apply matches_Atom_caps in H3 as ->.
  apply group_digits in Hm as (w & -> & Hw); [|lia].
  by eexists _, _, w.
Qed.

Lemma patternHyphen_shape s m : strMatch s patternHyphen = Some m -> twoGroups m.
Proof.
  intros (t & t' & caps & Hm & ->)%strMatch_sound. simpl in Hm.
  apply matches_Seq_inv in Hm as (s2 & c2 & H2 & Hm). apply matches_Group_letters in H2 as ->.
  apply matches_Seq_inv in Hm as (s3 & c3 & H3 & Hm). apply matches_Atom_caps in H3 as ->.
  apply group_digits in Hm as (w & -> & Hw); [|lia].
  by eexists _, _, w.
Qed.

Lemma patternSpace_shape s m : strMatch s patternSpace = Some m -> twoGroups m.
Proof.
  intros (t & t' & caps & Hm & ->)%strMatch_sound. simpl in Hm.
  apply matches_Seq_inv in Hm as (s2 & c2 & H2 & Hm). apply matches_Group_letters in H2 as ->.
  apply matches_Seq_inv in Hm as (s3 & c3 & H3 & Hm). apply matches_Rep_caps in H3 as ->.
  apply group_digits in Hm as (w & -> & Hw); [|lia].
  by eexists _, _, w.
Qed.

Lemma patternBoundary_shape s m : strMatch s patternBoundary = Some m -> oneGroup m.
Proof.
  intros (t & t' & caps & Hm & ->)%strMatch_sound. simpl in Hm.
  apply matches_Seq_inv in Hm as (s2 & c2 & H2 & Hm).
  apply group_digits in H2 as (w & -> & Hw); [|lia].
  assert (caps = [w]) as ->.
  { inversion Hm as [ | | | | r1 r2 s0 c0 s0' c0' Ha | r1 r2 s0 c0 s0' c0' Hb | ]; subst.
    - by apply matches_Atom_caps in Ha.
    - inversion Hb as [ | | | | r1 r2 s0 c0 s0' c0' Ha | r1 r2 s0 c0 s0' c0' Hc | ]; subst.
      + by apply matches_Atom_caps in Ha.
      + by inversion Hc. }
  by eexists _, w.
Qed.

Lemma patternRun_shape s m : strMatch s patternRun = Some m -> oneGroup m.
Proof.
  intros (t & t' & caps & Hm & ->)%strMatch_sound. simpl in Hm.
  apply group_digits in Hm as (w & -> & Hw); [|lia].
  by eexists _, w.
Qed.

Lemma patternAnyNumber_shape s m : strMatch s patternAnyNumber = Some m -> oneGroup m.
Proof.
  intros (t & t' & caps & Hm & ->)%strMatch_sound. simpl in Hm.
  apply group_digits in Hm as (w & -> & Hw); [|lia].
  by eexists _, w.
Qed.

Lemma patterns_shape s p m : In p patterns -> strMatch s p = Some m -> numberMatch m.
Proof.
  unfold patterns. simpl.
  intros [<- | [<- | [<- | [<- | [<- | []]]]]]; intros Hm;
    [ left; by eapply patternUnderscore_shape
    | left; by eapply patternHyphen_shape
    | left; by eapply patternSpace_shape
    | right; by eapply patternBoundary_shape
    | right; by eapply patternRun_shape ].
Qed.

(** ** [parseInt] on a string of digits *)

Lemma digitValue_nonneg c : isDigitChar c = true -> 0 <= digitValue c <= 9.
Proof. unfold isDigitChar, digitValue. intros Hc. split_codes; try discriminate; lia. Qed.

Lemma parseDigits_nonneg acc s : 0 <= acc -> 0 <= parseDigits acc s.
Proof.
  revert acc. induction s as [|c s IH]; intros acc Hacc; simpl; [done|].
  destruct (isDigitChar c) eqn:Hc; [|done].
  apply IH. pose proof (digitValue_nonneg c Hc). lia.
Qed.

Lemma parseInt_digits c w :
  isDigitChar c = true -> parseInt (String c w) = Some (parseDigits 0 (String c w)).
Proof.
  intros Hc. unfold parseInt.
  assert (Hsp : skipSpaces (String c w) = String c w).
  { simpl. replace (isSpaceChar c) with false; [done|].
    unfold isSpaceChar, isDigitChar in *. split_codes; try discriminate; lia. }
  rewrite Hsp.
  destruct c as [[] [] [] [] [] [] [] []]; try discriminate Hc; reflexivity.
Qed.

(** ** The loop over the patterns *)

Lemma patternLoop_cons baseName p ps :
  patternLoop baseName (p :: ps) =
  match strMatch baseName p with
  | Some m =>
      if (3 <=? length m)%nat then Some (parseInt (matchItem m 2))
      else if (2 <=? length m)%nat then Some (parseInt (matchItem m 1))
      else patternLoop baseName ps
  | None => patternLoop baseName ps
  end.
Proof. reflexivity. Qed.

Lemma patternLoop_match baseName p ps m :
  strMatch baseName p = Some m -> (2 <= length m)%nat ->
  patternLoop baseName (p :: ps) = Some (numberOf m).
Proof.
  intros Hp Hlen. rewrite patternLoop_cons, Hp. unfold numberOf.
  destruct (3 <=? length m)%nat eqn:H3; [done|].
  by replace (2 <=? length m)%nat with true by (symmetry; apply Nat.leb_le; lia).
Qed.

Lemma patternLoop_first baseName earlier p later m :
  (forall q, In q earlier -> strMatch baseName q = None) ->
  strMatch baseName p = Some m -> (2 <= length m)%nat ->
  patternLoop baseName (earlier ++ p :: later) = Some (numberOf m).
Proof.
  intros Hearlier Hp Hlen. induction earlier as [|q earlier IH].
  - by apply patternLoop_match.
  - change ((q :: earlier) ++ p :: later) with (q :: (earlier ++ p :: later)).
    rewrite patternLoop_cons, (Hearlier q) by (by left).
    apply IH. intros q' Hin. apply Hearlier. by right.
Qed.

(** ** Names without digits *)

Lemma hasDigit_app (a b : string) : hasDigit (a +:+ b) = hasDigit a || hasDigit b.
Proof.
  induction a as [|x a IH]; [done|]. rewrite str_app_cons. simpl.
  by rewrite IH, orb_assoc.
Qed.

(** a match consumes a prefix of its input, with a digit in it when the
    expression needs one *)
Lemma matches_consumes ci r s caps s' caps' :
  matches ci r s caps s' caps' ->
  exists w, s = w +:+ s' /\ (needsDigit r = true -> hasDigit w = true).
Proof.
  induction 1 as [c x s caps Hx | c lo hi n s s' caps Hn Hlo Hhi
                 | r s caps s' caps' _ IH
                 | r1 r2 s caps s1 caps1 s2 caps2 _ IH1 _ IH2
                 | r1 r2 s caps s' caps' _ IH | r1 r2 s caps s' caps' _ IH | caps].
  - exists (String x ""). split; [done|]. destruct c; try done.
    intros _. rewrite digit_match in Hx. simpl. by rewrite Hx.
  - assert (Hw : exists w, s = w +:+ s' /\
                   (c = CDigit -> (1 <= n)%nat -> hasDigit w = true)).
    { clear Hlo Hhi. induction Hn as [s | n x s s' Hx _ (w & -> & Hw)].
      - exists "". split; [done | lia].
      - exists (String x w). split; [done|]. intros -> _.
        rewrite digit_match in Hx. simpl. by rewrite Hx. }
    destruct Hw as (w & -> & Hw). exists w. split; [done|].
    destruct c; try done. destruct lo; [done|]. intros _. apply Hw; [done | lia].
  - done.
  - destruct IH1 as (w1 & -> & H1), IH2 as (w2 & -> & H2).
    exists (w1 +:+ w2). split; [by rewrite str_app_assoc|].
    simpl. rewrite orb_true_iff, hasDigit_app, orb_true_iff. intros [?|?]; auto.
  - destruct IH as (w & -> & Hw). exists w. split; [done|].
    simpl. rewrite andb_true_iff. intros [? _]. auto.
  - destruct IH as (w & -> & Hw). exists w. split; [done|].
    simpl. rewrite andb_true_iff. intros [_ ?]. auto.
  - by exists "".
Qed.

Lemma matchHere_digit p t m rest :
  needsDigit (body p) = true -> matchHere p t = Some (m, rest) -> hasDigit t = true.
Proof.
  intros Hp Hm. unfold matchHere in Hm.
  apply rmatch_sound in Hm as (t' & caps & Hm & _).
  apply matches_consumes in Hm as (w & -> & Hw).
  by rewrite hasDigit_app, Hw.
Qed.

Lemma searchFrom_digit p pre s f :
  needsDigit (body p) = true -> searchFrom p pre s = Some f -> hasDigit s = true.
Proof.
  intros Hp. revert pre. induction s as [|c s IH]; intros pre; simpl.
  - destruct (matchHere p "") as [[m rest]|] eqn:Hm; [|done].
    intros _. by apply (matchHere_digit p "" m rest).
  - destruct (matchHere p (String c s)) as [[m rest]|] eqn:Hm.
    + intros _. by apply (matchHere_digit p (String c s) m rest).
    + intros Hs%IH. by rewrite Hs, orb_true_r.
Qed.

Lemma strMatch_no_digit s p :
  needsDigit (body p) = true -> hasDigit s = false -> strMatch s p = None.
Proof.
  intros Hp Hs. unfold strMatch, exec.
  destruct (searchFrom p "" s) as [f|] eqn:Hf; [|done].
  apply searchFrom_digit in Hf; [congruence | done].
Qed.

(** what the search leaves around a match is part of the input *)
Lemma searchFrom_parts p pre s f :
  searchFrom p pre s = Some f -> exists w, pre +:+ s = before f +:+ w +:+ after f.
Proof.
  revert pre. induction s as [|c s IH]; intros pre; simpl.
  - destruct (matchHere p "") as [[m rest]|] eqn:Hm; [|done].
    intros [= <-]. simpl. unfold matchHere in Hm.
    apply rmatch_sound in Hm as (t' & caps & Hm & [= _ <-]).
    apply matches_consumes in Hm as (w & -> & _). by exists w.
  - destruct (matchHere p (String c s)) as [[m rest]|] eqn:Hm.
    + intros [= <-]. simpl. unfold matchHere in Hm.
      apply rmatch_sound in Hm as (t' & caps & Hm & [= _ <-]).
      apply matches_consumes in Hm as (w & -> & _). by exists w.
    + intros (w & Hw)%IH. exists w. rewrite <- Hw. by rewrite str_app_assoc.
Qed.

Lemma strRemove_no_digit s p : hasDigit s = false -> hasDigit (strRemove s p) = false.
Proof.
  intros Hs. unfold strRemove, exec.
  destruct (searchFrom p "" s) as [f|] eqn:Hf; [|done].
  apply searchFrom_parts in Hf as (w & Hw). rewrite str_app_nil_l in Hw.
  rewrite Hw, !hasDigit_app in Hs. rewrite hasDigit_app.
  apply orb_false_iff in Hs as [-> [_ ->]%orb_false_iff]. done.
Qed.

Lemma extractFileNumber_no_digit fileName :
  hasDigit fileName = false -> extractFileNumber fileName = Some 9999.
Proof.
  intros Hf. unfold extractFileNumber.
  pose proof (strRemove_no_digit fileName extensionPattern Hf) as Hbase.
  set (baseName := strRemove fileName extensionPattern) in *.
  unfold patterns. rewrite !patternLoop_cons.
  by rewrite !strMatch_no_digit.
Qed.

(** ** Removing the extension *)

Lemma searchFrom_pre p pre s :
  searchFrom p pre s =
  (fun f => Found (pre +:+ before f) (groups f) (after f)) <$> searchFrom p "" s.
Proof.
  revert pre. induction s as [|c s IH]; intros pre; simpl.
  - destruct (matchHere p "") as [[m rest]|]; simpl; [by rewrite str_app_nil_r | done].
  - destruct (matchHere p (String c s)) as [[m rest]|]; simpl; [by rewrite str_app_nil_r|].
    rewrite (IH (pre +:+ String c "")), (IH ("" +:+ String c "")).
    destruct (searchFrom p "" s) as [f|]; simpl; [|done].
    by rewrite str_app_assoc.
Qed.

Lemma strRemove_cons p c s :
  matchHere p (String c s) = None -> strRemove (String c s) p = String c (strRemove s p).
Proof.
  intros Hm. unfold strRemove, exec. simpl. rewrite Hm, searchFrom_pre.
  by destruct (searchFrom p "" s).
Qed.

Lemma matchHere_extension c s :
  cset_match true (CChar ".") c = false -> matchHere extensionPattern (String c s) = None.
Proof. intros Hc. unfold matchHere. simpl. by rewrite Hc. Qed.

Lemma digit_not_dot c : isDigitChar c = true -> cset_match true (CChar ".") c = false.
Proof. destruct c as [[] [] [] [] [] [] [] []]; try discriminate; reflexivity. Qed.

Lemma strRemove_digit c s :
  isDigitChar c = true ->
  strRemove (String c s) extensionPattern = String c (strRemove s extensionPattern).
Proof. intros Hc. by apply strRemove_cons, matchHere_extension, digit_not_dot. Qed.

(** the boundary pattern at the head of four digits and an underscore *)
Lemma patternBoundary_year d1 d2 d3 d4 rest :
  isDigitChar d1 = true -> isDigitChar d2 = true ->
  isDigitChar d3 = true -> isDigitChar d4 = true ->
  let year := String d1 (String d2 (String d3 (String d4 ""))) in
  strMatch (year +:+ "_" +:+ rest) patternBoundary = Some [year +:+ "_"; year].
Proof.
  intros H1 H2 H3 H4 year.
  unfold strMatch, exec, year. rewrite !str_app_cons, !str_app_nil_l.
  assert (Hhere : matchHere patternBoundary
                    (String d1 (String d2 (String d3 (String d4 (String "_" rest)))))
                  = Some ([String d1 (String d2 (String d3 (String d4 (String "_" ""))));
                           String d1 (String d2 (String d3 (String d4 "")))], rest)).
  { unfold matchHere, patternBoundary. cbn [body ignoreCase].
    cbn [rmatch rep Nat.pred option_map].
    rewrite !digit_match, H1, H2, H3, H4.
    cbn [rmatch]. change (cset_match false CSpace "_") with false.
    change (cset_match false (CUnion (CChar "-") (CChar "_")) "_") with true.
    cbn iota.
    change (String d1 (String d2 (String d3 (String d4 (String "_" rest)))))
      with ((String d1 (String d2 (String d3 (String d4 (String "_" ""))))) +:+ rest).
    rewrite consumed_app.
    change ((String d1 (String d2 (String d3 (String d4 (String "_" ""))))) +:+ rest)
      with ((String d1 (String d2 (String d3 (String d4 "")))) +:+ (String "_" rest)).
    rewrite consumed_app. reflexivity. }
  cbn [searchFrom]. by rewrite Hhere.
Qed.

Lemma parseInt_year d1 d2 d3 d4 :
  isDigitChar d1 = true -> isDigitChar d2 = true ->
  isDigitChar d3 = true -> isDigitChar d4 = true ->
  parseInt (String d1 (String d2 (String d3 (String d4 "")))) =
  Some (1000 * digitValue d1 + 100 * digitValue d2 + 10 * digitValue d3 + digitValue d4).
Proof.
  intros H1 H2 H3 H4. rewrite parseInt_digits by done. simpl.
  rewrite H1, H2, H3, H4. f_equal. lia.
Qed.

(** C9, as the code has it.  When the name starts with four digits and an
    underscore and none of the three structured patterns matches anywhere in
    the base name, the extractor answers the four digits of the prefix: the
    boundary pattern matches them first. *)
Theorem extractFileNumber_year_prefix (d1 d2 d3 d4 : ascii) (rest : string) :
  let fileName := String d1 (String d2 (String d3 (String d4 ("_" +:+ rest)))) in
  let baseName := strRemove fileName extensionPattern in
  isDigitChar d1 = true -> isDigitChar d2 = true ->
  isDigitChar d3 = true -> isDigitChar d4 = true ->
  strMatch baseName patternUnderscore = None ->
  strMatch baseName patternHyphen = None ->
  strMatch baseName patternSpace = None ->
  extractFileNumber fileName =
  Some (1000 * digitValue d1 + 100 * digitValue d2 + 10 * digitValue d3 + digitValue d4).
Proof.
  intros fileName baseName H1 H2 H3 H4 HU HH HS.
  assert (Hbase : baseName =
            String d1 (String d2 (String d3 (String d4 "")))
              +:+ "_" +:+ strRemove rest extensionPattern).
  { unfold baseName, fileName. rewrite !strRemove_digit by done.
    rewrite str_app_cons, str_app_nil_l, strRemove_cons; [done|].
    by apply matchHere_extension. }
  unfold extractFileNumber. fold baseName.
  change patterns with ([patternUnderscore; patternHyphen; patternSpace]
                          ++ patternBoundary :: [patternRun]).
  rewrite (patternLoop_first baseName _ _ _
             [String d1 (String d2 (String d3 (String d4 ""))) +:+ "_";
              String d1 (String d2 (String d3 (String d4 "")))]).
  - unfold numberOf. cbn [length Nat.leb matchItem nth]. by apply parseInt_year.
  - intros q [<- | [<- | [<- | []]]]; done.
  - rewrite Hbase. by apply patternBoundary_year.
  - simpl. lia.
Qed.

(** C9 at work on the name [2025_06_25_DC_05 - x.html] *)
Lemma extractFileNumber_year_prefix_witness :
  extractFileNumber "2025_06_25_DC_05 - x.html" = Some 2025.
Proof.
  apply (extractFileNumber_year_prefix "2" "0" "2" "5" "06_25_DC_05 - x.html");
    reflexivity.
Defined.

(** C9, as it is stated, fails: this name starts with the year and has the
    two-digit sequence number 05 after its code, yet the space pattern
    matches [lei 8112] in the title and the extractor answers 8112. *)
Lemma extractFileNumber_year_prefix_overridden :
  startsWith "2025_06_25_DC_05 - lei 8112.html" "2025_" = true /\
  includes "2025_06_25_DC_05 - lei 8112.html" "_DC_05 " = true /\
  extractFileNumber "2025_06_25_DC_05 - lei 8112.html" = Some 8112 /\
  extractFileNumber "2025_06_25_DC_05 - lei 8112.html" <> Some 2025.
Proof. by vm_compute. Qed.

(** ** The size of the numbers *)

Lemma group_digits_bounded ci lo hi s caps s' caps' :
  matches ci (Group (Rep CDigit lo (Some hi))) s caps s' caps' -> (1 <= lo)%nat ->
  exists w, caps' = caps ++ [w] /\ digitString w /\ (String.length w <= hi)%nat.
Proof.
  intros Hm Hlo. inversion Hm as [ | | r s0 caps0 s0' caps0' Hrep | | | | ]; subst.
  inversion Hrep as [ | c lo0 hi0 n s0 s0' caps0 Hn Hle Hh | | | | | ]; subst.
  apply repeats_digits in Hn as (w & -> & Hlen & Hw).
  exists w. rewrite consumed_app. split; [done|]. split; [split; [|done]|].
  - intros ->. simpl in Hlen. lia.
  - rewrite Hlen. by apply Hh.
Qed.

Lemma parseDigits_bound acc w :
  allDigits w = true -> 0 <= acc ->
  parseDigits acc w < (acc + 1) * 10 ^ Z.of_nat (String.length w).
Proof.
  revert acc. induction w as [|c w IH]; intros acc Hw Hacc; [simpl; lia|].
  cbn [allDigits] in Hw. apply andb_true_iff in Hw as [Hc Hw].
  cbn [parseDigits String.length]. rewrite Hc.
  pose proof (digitValue_nonneg c Hc) as Hd.
  specialize (IH (10 * acc + digitValue c) Hw ltac:(lia)).
  rewrite Nat2Z.inj_succ, Z.pow_succ_r by lia.
  assert (Hpow : 0 < 10 ^ Z.of_nat (String.length w)) by (apply Z.pow_pos_nonneg; lia).
  nia.
Qed.

Lemma digitString_value (w : string) (k : nat) :
  digitString w -> (String.length w <= k)%nat ->
  exists n, parseInt w = Some n /\ 0 <= n < 10 ^ Z.of_nat k.
Proof.
  intros [Hne Hw] Hlen. destruct w as [|c w]; [done|].
  pose proof Hw as Hw'. simpl in Hw'. apply andb_true_iff in Hw' as [Hc _].
  exists (parseDigits 0 (String c w)). split; [by apply parseInt_digits|].
  split; [by apply parseDigits_nonneg|].
  pose proof (parseDigits_bound 0 (String c w) Hw ltac:(lia)) as Hb.
  assert (10 ^ Z.of_nat (String.length (String c w)) <= 10 ^ Z.of_nat k)
    by (apply Z.pow_le_mono_r; lia).
  lia.
Qed.

(** a match of one of the first four patterns gives at most four digits *)
Lemma shortPattern_number s p m :
  In p shortPatterns -> strMatch s p = Some m ->
  (2 <= length m)%nat /\ exists n, numberOf m = Some n /\ 0 <= n <= 9999.
Proof.
  assert (Hfour : forall w, digitString w -> (String.length w <= 4)%nat ->
            exists n, parseInt w = Some n /\ 0 <= n <= 9999).
  { intros w Hw Hlen. destruct (digitString_value w 4 Hw Hlen) as (n & Hn & Hb).
    exists n. split; [done|]. change (10 ^ Z.of_nat 4) with 10000 in Hb. lia. }
  unfold shortPatterns. simpl.
  intros [<- | [<- | [<- | [<- | []]]]];
    intros (t & t' & caps & Hm & ->)%strMatch_sound; simpl in Hm.
  - apply matches_Seq_inv in Hm as (s1 & c1 & H1 & Hm). apply matches_Atom_caps in H1 as ->.
    apply matches_Seq_inv in Hm as (s2 & c2 & H2 & Hm). apply matches_Group_letters in H2 as ->.
    apply matches_Seq_inv in Hm as (s3 & c3 & H3 & Hm). apply matches_Atom_caps in H3 as ->.
    apply group_digits_bounded in Hm as (w & -> & Hw & Hlen); [|lia].
    split; [simpl; lia | by apply Hfour].
  - apply matches_Seq_inv in Hm as (s2 & c2 & H2 & Hm). apply matches_Group_letters in H2 as ->.
    apply matches_Seq_inv in Hm as (s3 & c3 & H3 & Hm). apply matches_Atom_caps in H3 as ->.
    apply group_digits_bounded in Hm as (w & -> & Hw & Hlen); [|lia].
    split; [simpl; lia | by apply Hfour].
  - apply matches_Seq_inv in Hm as (s2 & c2 & H2 & Hm). apply matches_Group_letters in H2 as ->.
    apply matches_Seq_inv in Hm as (s3 & c3 & H3 & Hm). apply matches_Rep_caps in H3 as ->.
    apply group_digits_bounded in Hm as (w & -> & Hw & Hlen); [|lia].
    split; [simpl; lia | by apply Hfour].
  - apply matches_Seq_inv in Hm as (s2 & c2 & H2 & Hm).
    apply group_digits_bounded in H2 as (w & -> & Hw & Hlen); [|lia].
    assert (caps = [w]) as ->.
    { inversion Hm as [ | | | | r1 r2 s0 c0 s0' c0' Ha | r1 r2 s0 c0 s0' c0' Hb | ]; subst.
      - by apply matches_Atom_caps in Ha.
      - inversion Hb as [ | | | | r1 r2 s0 c0 s0' c0' Ha | r1 r2 s0 c0 s0' c0' Hc | ]; subst.
        + by apply matches_Atom_caps in Ha.
        + by inversion Hc. }
    split; [simpl; lia | by apply Hfour].
Qed.

(** ** The greedy run of digits *)

Lemma leadingDigits_split (s : string) : s = leadingDigits s +:+ afterDigits s.
Proof.
  induction s as [|c s IH]; simpl; [done|].
  destruct (isDigitChar c); [by rewrite str_app_cons, <- IH | done].
Qed.

Lemma leadingDigits_allDigits (s : string) : allDigits (leadingDigits s) = true.
Proof.
  induction s as [|c s IH]; simpl; [done|].
  destruct (isDigitChar c) eqn:Hc; simpl; [by rewrite Hc | done].
Qed.

Lemma consumed_leadingDigits (s : string) : consumed s (afterDigits s) = leadingDigits s.
Proof.
  pose proof (consumed_app (leadingDigits s) (afterDigits s)) as Hc.
  by rewrite <- leadingDigits_split in Hc.
Qed.

Lemma rep_digits_greedy {A} (lo : nat) (s : string) (k : string -> A) :
  rep false CDigit lo None s (fun s' => Some (k s'))
  = if (lo <=? String.length (leadingDigits s))%nat then Some (k (afterDigits s)) else None.
Proof.
  revert lo. induction s as [|x s IH]; intros lo.
  - simpl. by destruct lo.
  - cbn [rep option_map leadingDigits afterDigits]. rewrite digit_match.
    destruct (isDigitChar x) eqn:Hx.
    + rewrite IH. cbn [String.length].
      destruct lo as [|lo]; cbn [Nat.pred Nat.leb]; [done|].
      by destruct (lo <=? String.length (leadingDigits s))%nat.
    + by destruct lo.
Qed.

Lemma matchHere_digitRun (lo : nat) (s : string) :
  matchHere (Pattern (Group (Rep CDigit lo None)) false) s
  = if (lo <=? String.length (leadingDigits s))%nat
    then Some ([leadingDigits s; leadingDigits s], afterDigits s)
    else None.
Proof.
  unfold matchHere. cbn [rmatch body ignoreCase].
  rewrite (rep_digits_greedy lo s
             (fun s' => (consumed s s' :: [] ++ [consumed s s'], s'))).
  destruct (lo <=? String.length (leadingDigits s))%nat; [|done].
  by rewrite consumed_leadingDigits.
Qed.

Lemma strMatch_cons (p : pattern) (c : ascii) (s : string) :
  strMatch (String c s) p =
  match matchHere p (String c s) with
  | Some (m, _) => Some m
  | None => strMatch s p
  end.
Proof.
  unfold strMatch, exec. cbn [searchFrom].
  destruct (matchHere p (String c s)) as [[m rest]|]; [done|].
  rewrite searchFrom_pre. by destruct (searchFrom p "" s).
Qed.

(** [/(\d+)/] finds the first run of digits *)
Lemma strMatch_anyNumber (s : string) :
  strMatch s patternAnyNumber
  = if hasDigit s then Some [firstRun s; firstRun s] else None.
Proof.
  induction s as [|c s IH].
  - reflexivity.
  - rewrite strMatch_cons. unfold patternAnyNumber. rewrite matchHere_digitRun.
    cbn [leadingDigits hasDigit firstRun]. destruct (isDigitChar c) eqn:Hc.
    + reflexivity.
    + cbn [String.length Nat.leb orb]. exact IH.
Qed.

(** without a match of [/(\d{3,})/] the first run has one or two digits *)
Lemma strMatch_run_none (s : string) :
  strMatch s patternRun = None -> (String.length (firstRun s) <= 2)%nat.
Proof.
  induction s as [|c s IH]; [simpl; lia|].
  rewrite strMatch_cons. unfold patternRun at 1. rewrite matchHere_digitRun.
  destruct (3 <=? String.length (leadingDigits (String c s)))%nat eqn:Hrun; [done|].
  apply Nat.leb_gt in Hrun. intros Hrest. cbn [firstRun].
  destruct (isDigitChar c); [lia | by apply IH].
Qed.

Lemma firstRun_digitString (s : string) : hasDigit s = true -> digitString (firstRun s).
Proof.
  induction s as [|c s IH]; [done|]. cbn [hasDigit firstRun].
  destruct (isDigitChar c) eqn:Hc.
  - intros _. split; [|apply leadingDigits_allDigits]. simpl. by rewrite Hc.
  - exact IH.
Qed.

Lemma patternLoop_none baseName ps :
  (forall p m, In p ps -> strMatch baseName p = Some m -> (2 <= length m)%nat) ->
  patternLoop baseName ps = None -> forall p, In p ps -> strMatch baseName p = None.
Proof.
  induction ps as [|q ps IH]; intros Hshape Hloop p Hin; [done|].
  destruct (strMatch baseName q) as [m|] eqn:Hq.
  - rewrite (patternLoop_match _ _ _ _ Hq) in Hloop; [done|].
    apply (Hshape q); [by left | done].
  - rewrite patternLoop_cons, Hq in Hloop. destruct Hin as [<- | Hin]; [done|].
    apply IH; [|done | done]. intros p' m Hp'. apply Hshape. by right.
Qed.

(** ** Names whose numbers are exact *)

Lemma leadingDigits_app_le (a b : string) :
  (String.length (leadingDigits a) <= String.length (leadingDigits (a +:+ b)))%nat.
Proof.
  induction a as [|c a IH]; [simpl; lia|]. rewrite str_app_cons. simpl.
  destruct (isDigitChar c); simpl; lia.
Qed.

Lemma digitRunsAtMost_prefix (k : nat) (a b : string) :
  digitRunsAtMost k (a +:+ b) = true -> digitRunsAtMost k a = true.
Proof.
  induction a as [|c a IH]; [done|]. rewrite str_app_cons. cbn [digitRunsAtMost].
  rewrite !andb_true_iff, !Nat.leb_le. intros [Hlen Hrest]. split; [|by apply IH].
  pose proof (leadingDigits_app_le (String c a) b) as Hle. rewrite str_app_cons in Hle. lia.
Qed.

(** the extension is removed at the end of the name: the base name is a
    prefix of the name *)
Lemma matchHere_extension_end t m rest :
  matchHere extensionPattern t = Some (m, rest) -> rest = "".
Proof.
  unfold matchHere. intros (t' & caps & Hm & [= _ <-])%rmatch_sound. simpl in Hm.
  apply matches_Seq_inv in Hm as (s1 & c1 & _ & Hm).
  apply matches_Seq_inv in Hm as (s2 & c2 & _ & Hm).
  apply matches_Seq_inv in Hm as (s3 & c3 & _ & Hm).
  apply matches_Seq_inv in Hm as (s4 & c4 & _ & Hm).
  apply matches_Seq_inv in Hm as (s5 & c5 & _ & Hm).
  by inversion Hm.
Qed.

Lemma strRemove_extension_prefix (s : string) :
  exists w, s = strRemove s extensionPattern +:+ w.
Proof.
  unfold strRemove, exec. destruct (searchFrom extensionPattern "" s) as [f|] eqn:Hf.
  - destruct (searchFrom_parts _ _ _ _ Hf) as (w & Hw).
    destruct (searchFrom_sound _ _ _ _ Hf) as (t & Ht).
    apply matchHere_extension_end in Ht. rewrite Ht in *.
    exists w. rewrite str_app_nil_l in Hw. by rewrite Hw, !str_app_nil_r.
  - exists "". by rewrite str_app_nil_r.
Qed.

Lemma exactNumbers_baseName (fileName : string) :
  exactNumbers fileName = true ->
  digitRunsAtMost 15 (strRemove fileName extensionPattern) = true.
Proof.
  unfold exactNumbers. destruct (strRemove_extension_prefix fileName) as (w & Hw).
  rewrite Hw at 1. apply digitRunsAtMost_prefix.
Qed.

Lemma firstRun_bounded (k : nat) (s : string) :
  digitRunsAtMost k s = true -> (String.length (firstRun s) <= k)%nat.
Proof.
  induction s as [|c s IH]; [simpl; lia|]. cbn [digitRunsAtMost firstRun].
  rewrite andb_true_iff, Nat.leb_le. intros [Hlen Hrest].
  destruct (isDigitChar c); [exact Hlen | by apply IH].
Qed.

(** a match of [/(\d{3,})/] is a run of digits of the name *)
Lemma strMatch_run_bounded (k : nat) (s : string) (m : list string) :
  digitRunsAtMost k s = true -> strMatch s patternRun = Some m ->
  exists w, m = [w; w] /\ digitString w /\ (String.length w <= k)%nat.
Proof.
  induction s as [|c s IH]; [done|]. cbn [digitRunsAtMost].
  rewrite andb_true_iff, Nat.leb_le. intros [Hlen Hrest].
  rewrite strMatch_cons. unfold patternRun at 1. rewrite matchHere_digitRun.
  destruct (3 <=? String.length (leadingDigits (String c s)))%nat eqn:Hrun.
  - intros [= <-]. exists (leadingDigits (String c s)). split; [done|]. split; [|done].
    split; [|apply leadingDigits_allDigits].
    apply Nat.leb_le in Hrun. intros Hnil. rewrite Hnil in Hrun. simpl in Hrun. lia.
  - by apply IH.
Qed.

(** within fifteen digits every pattern gives a number below 10^15 *)
Lemma pattern_number_exact s p m :
  In p patterns -> digitRunsAtMost 15 s = true -> strMatch s p = Some m ->
  (2 <= length m)%nat /\ exists n, numberOf m = Some n /\ 0 <= n < 10 ^ 15.
Proof.
  intros Hp Hs Hm.
  assert (Hcases : In p shortPatterns \/ p = patternRun).
  { unfold patterns, shortPatterns in *. simpl in *.
    destruct Hp as [<- | [<- | [<- | [<- | [<- | []]]]]]; tauto. }
  destruct Hcases as [Hshort | ->].
  - destruct (shortPattern_number s p m Hshort Hm) as (Hlen & n & Hn & Hb).
    split; [done|]. exists n. split; [done|].
    change (10 ^ 15) with 1000000000000000. lia.
  - destruct (strMatch_run_bounded 15 s m Hs Hm) as (w & -> & Hw & Hlen).
    split; [simpl; lia|]. apply (digitString_value w 15 Hw Hlen).
Qed.

Lemma patternLoop_exact baseName ps v :
  digitRunsAtMost 15 baseName = true -> (forall p, In p ps -> In p patterns) ->
  patternLoop baseName ps = Some v -> exists n, v = Some n /\ 0 <= n < 10 ^ 15.
Proof.
  intros Hbase. induction ps as [|p ps IH]; intros Hps; [done|].
  destruct (strMatch baseName p) as [m|] eqn:Hp.
  - destruct (pattern_number_exact baseName p m) as (Hlen & n & Hn & Hb);
      [apply Hps; by left | done | done |].
    rewrite (patternLoop_match _ _ _ _ Hp Hlen). intros [= <-]. by exists n.
  - rewrite patternLoop_cons, Hp. apply IH. intros q Hq. apply Hps. by right.
Qed.

(** on such a name the extractor answers an integer below 10^15, which is
    the number of the script *)
Lemma extractFileNumber_exact (fileName : string) :
  exactNumbers fileName = true ->
  exists n, extractFileNumber fileName = Some n /\ 0 <= n < 10 ^ 15.
Proof.
  intros Hbase%exactNumbers_baseName. unfold extractFileNumber.
  set (baseName := strRemove fileName extensionPattern) in *.
  destruct (patternLoop baseName patterns) as [v|] eqn:Hloop.
  - by apply (patternLoop_exact baseName patterns v).
  - rewrite strMatch_anyNumber. destruct (hasDigit baseName) eqn:Hdigit.
    + cbn [matchItem nth]. apply (digitString_value (firstRun baseName) 15).
      * by apply firstRun_digitString.
      * by apply firstRun_bounded.
    + exists 9999. split; [done|]. change (10 ^ 15) with 1000000000000000. lia.
Qed.

Lemma patternLoop_short baseName (ps rest : list pattern) :
  (forall p, In p ps -> In p shortPatterns) ->
  (exists p, In p ps /\ strMatch baseName p <> None) ->
  exists n, patternLoop baseName (ps ++ rest) = Some (Some n) /\ 0 <= n <= 9999.
Proof.
  induction ps as [|q ps IH]; intros Hshort (p & Hin & Hp); [done|].
  change ((q :: ps) ++ rest) with (q :: (ps ++ rest)).
  destruct (strMatch baseName q) as [m|] eqn:Hq.
  - destruct (shortPattern_number baseName q m) as (Hlen & n & Hn & Hb);
      [apply Hshort; by left | done |].
    exists n. by rewrite (patternLoop_match _ _ _ _ Hq Hlen), Hn.
  - rewrite patternLoop_cons, Hq. apply IH.
    + intros p' Hp'. apply Hshort. by right.
    + destruct Hin as [<- | Hin]; [done|]. by exists p.
Qed.

(** ** The first pattern that matches *)

(** C5.  The first pattern of the list that matches the base name decides
    the result, the later ones are not consulted; a name without any digit
    gets the sentinel 9999; and on the names of the specification the
    extractor answers 5 for the segment [_DC_005], 9999 for
    [Acao popular.html] and 42 for [file-042.html].  The number is stated
    where the numbers of the script are exact: on a name whose runs of
    digits have at most fifteen digits the result, and the number of the
    deciding match, is an integer from 0 on and below 10^15. *)
Theorem extractFileNumber_first_pattern_wins :
  (forall fileName,
      exactNumbers fileName = true ->
      exists n, extractFileNumber fileName = Some n /\ 0 <= n < 10 ^ 15) /\
  (forall fileName earlier p later m,
      let baseName := strRemove fileName extensionPattern in
      exactNumbers fileName = true ->
      patterns = earlier ++ p :: later ->
      (forall q, In q earlier -> strMatch baseName q = None) ->
      strMatch baseName p = Some m ->
      extractFileNumber fileName = numberOf m /\
      exists n, numberOf m = Some n /\ 0 <= n < 10 ^ 15) /\
  (forall fileName, hasDigit fileName = false -> extractFileNumber fileName = Some 9999) /\
  extractFileNumber "2025_06_25_DC_005- Teoria ...html" = Some 5 /\
  extractFileNumber
    "2025_06_25_DC_005- Teoria dos Direitos Fundamentais Conteúdo e Restrições.html" = Some 5 /\
  extractFileNumber "Acao popular.html" = Some 9999 /\
  extractFileNumber "file-042.html" = Some 42.
Proof.
  split; [apply extractFileNumber_exact|].
  split; [|split; [apply extractFileNumber_no_digit | by vm_compute]].
  intros fileName earlier p later m baseName Hexact Hps Hearlier Hp.
  destruct (pattern_number_exact baseName p m) as (Hlen & n & Hn & Hb).
  { rewrite Hps. apply in_elt. }
  { by apply exactNumbers_baseName. }
  { done. }
  split; [|by exists n].
  unfold extractFileNumber. fold baseName. rewrite Hps.
  by rewrite (patternLoop_first baseName earlier p later m), Hn.
Qed.

(** C5 at work on [file-042.html]: the underscore pattern does not match
    and the hyphen pattern decides *)
Lemma extractFileNumber_first_pattern_wins_witness :
  exactNumbers "file-042.html" = true /\
  extractFileNumber "file-042.html" = numberOf ["file-042"; "file"; "042"].
Proof.
  split; [reflexivity|].
  apply (proj1 (proj2 extractFileNumber_first_pattern_wins)
           "file-042.html" [patternUnderscore] patternHyphen
           [patternSpace; patternBoundary; patternRun] ["file-042"; "file"; "042"]).
  - reflexivity.
  - reflexivity.
  - intros q [<- | []]. reflexivity.
  - reflexivity.
Defined.

(** X17.  How large a number can be.  On a name whose runs of digits have
    at most fifteen digits, where the numbers of the script are exact,
    [extractFileNumber] returns an integer from 0 on and below 10^15.  It
    is above 9999 only when none of the four patterns with a three- or
    four-digit number matches the base name and the pattern of a run of
    three or more digits does.  When none of the five patterns matches, the
    number is read off the first run of digits and is at most 99, or it is
    the sentinel 9999 when the base name has no digit. *)
Theorem extractFileNumber_range (fileName : string) :
  exactNumbers fileName = true ->
  let baseName := strRemove fileName extensionPattern in
  exists n,
    extractFileNumber fileName = Some n /\ 0 <= n < 10 ^ 15 /\
    (9999 < n ->
       (forall p, In p shortPatterns -> strMatch baseName p = None) /\
       strMatch baseName patternRun <> None) /\
    ((forall p, In p patterns -> strMatch baseName p = None) ->
       if hasDigit baseName then parseInt (firstRun baseName) = Some n /\ n <= 99
       else n = 9999).
Proof.
  intros Hexact baseName.
  pose proof (exactNumbers_baseName fileName Hexact) as Hbase. fold baseName in Hbase.
  assert (Hbig : 10 ^ 15 = 1000000000000000) by reflexivity.
  unfold extractFileNumber. fold baseName.
  assert (Hcases : (exists p, In p shortPatterns /\ strMatch baseName p <> None) \/
                   (forall p, In p shortPatterns -> strMatch baseName p = None)).
  { unfold shortPatterns.
    destruct (strMatch baseName patternUnderscore) eqn:H1;
      [left; exists patternUnderscore; split; [simpl; tauto | congruence]|].
    destruct (strMatch baseName patternHyphen) eqn:H2;
      [left; exists patternHyphen; split; [simpl; tauto | congruence]|].
    destruct (strMatch baseName patternSpace) eqn:H3;
      [left; exists patternSpace; split; [simpl; tauto | congruence]|].
    destruct (strMatch baseName patternBoundary) eqn:H4;
      [left; exists patternBoundary; split; [simpl; tauto | congruence]|].
    right. intros p [<- | [<- | [<- | [<- | []]]]]; done. }
  destruct Hcases as [Hshort | Hnone].
  - destruct (patternLoop_short baseName shortPatterns [patternRun]) as (n & Hloop & Hb);
      [done | done |].
    change (shortPatterns ++ [patternRun]) with patterns in Hloop. rewrite Hloop.
    exists n. split; [done|]. split; [lia|]. split; [lia|].
    intros Hall. destruct Hshort as (p & Hin & Hp). exfalso. apply Hp, Hall.
    unfold patterns. unfold shortPatterns in Hin. simpl in *. tauto.
  - assert (Hloop : patternLoop baseName patterns = patternLoop baseName [patternRun]).
    { unfold patterns. rewrite !patternLoop_cons.
      rewrite (Hnone patternUnderscore), (Hnone patternHyphen), (Hnone patternSpace),
        (Hnone patternBoundary); unfold shortPatterns; simpl; tauto. }
    rewrite Hloop. destruct (strMatch baseName patternRun) as [m|] eqn:Hrun.
    + destruct (pattern_number_exact baseName patternRun m) as (Hlen & n & Hn & Hb);
        [unfold patterns; simpl; tauto | done | done |].
      rewrite (patternLoop_match _ _ _ _ Hrun Hlen), Hn.
      exists n. split; [done|]. split; [done|]. split; [by split|].
      intros Hall. rewrite (Hall patternRun) in Hrun; [done|].
      unfold patterns. simpl. tauto.
    + rewrite patternLoop_cons, Hrun. cbn [patternLoop].
      rewrite strMatch_anyNumber. destruct (hasDigit baseName) eqn:Hdigit.
      * cbn [matchItem nth].
        destruct (digitString_value (firstRun baseName) 2) as (n & Hn & Hb).
        { by apply firstRun_digitString. }
        { by apply strMatch_run_none. }
        change (10 ^ Z.of_nat 2) with 100 in Hb.
        exists n. split; [done|]. split; [lia|]. split; [lia|].
        intros _. split; [done | lia].
      * exists 9999. split; [done|]. split; [lia|]. split; [lia | done].
Qed.

(** X17 at work: a name whose only number has one digit *)
Lemma extractFileNumber_range_witness :
  exactNumbers "aula 7 - revisao.html" = true /\
  exists n, extractFileNumber "aula 7 - revisao.html" = Some n /\ n <= 99.
Proof.
  split; [reflexivity|].
  destruct (extractFileNumber_range "aula 7 - revisao.html" eq_refl)
    as (n & Hn & _ & _ & Hsmall).
  exists n. split; [exact Hn|].
  assert (Hnone : forall p, In p patterns ->
            strMatch (strRemove "aula 7 - revisao.html" extensionPattern) p = None).
  { intros p [<- | [<- | [<- | [<- | [<- | []]]]]]; reflexivity. }
  pose proof (Hsmall Hnone) as Hs.
  assert (Hdigit : hasDigit (strRemove "aula 7 - revisao.html" extensionPattern) = true)
    by (vm_compute; reflexivity).
  rewrite Hdigit in Hs. exact (proj2 Hs).
Defined.

(** ** Sorting permutes *)

Section SortFacts.
Context {A : Type} (cmp : A -> A -> number).

Lemma insertSorted_Permutation (x : A) (l : list A) :
  Permutation (insertSorted cmp x l) (x :: l).
Proof.
  induction l as [|y l IH]; simpl; [done|].
  destruct (order cmp x y <=? 0); [done|].
  rewrite IH. apply perm_swap.
Qed.

Lemma sortBy_Permutation (l : list A) : Permutation (sortBy cmp l) l.
Proof.
  induction l as [|x l IH]; simpl; [done|].
  by rewrite insertSorted_Permutation, IH.
Qed.

Lemma sortBy_length (l : list A) : length (sortBy cmp l) = length l.
Proof. apply Permutation_length, sortBy_Permutation. Qed.

End SortFacts.

(** ** The sizes of the categories *)

Lemma foldr_pointwise {A B} (f g : A -> B -> B) (b : B) (l : list A) :
  (forall x y, f x y = g x y) -> foldr f b l = foldr g b l.
Proof. intros Hfg. induction l as [|x l IH]; simpl; [done|]. by rewrite IH, Hfg. Qed.

Lemma bucketTotal_fmap (g : Category -> Category) (cats : gmap string Category) :
  (forall c, length (members (g c)) = length (members c)) ->
  bucketTotal (g <$> cats) = bucketTotal cats.
Proof.
  intros Hg. unfold bucketTotal. rewrite map_fold_fmap, !map_fold_foldr.
  apply foldr_pointwise. intros [k c] n. simpl. by rewrite Hg.
Qed.

Lemma bucketTotal_cleared (cats : gmap string Category) :
  bucketTotal (clearMembers <$> cats) = 0%nat.
Proof.
  unfold bucketTotal. rewrite map_fold_fmap, map_fold_foldr.
  induction (map_to_list cats) as [|[k c] l IH]; simpl; [done|]. by rewrite IH.
Qed.

Lemma bucketTotal_insert (cats : gmap string Category) (k : string) (c c' : Category) :
  cats !! k = Some c ->
  (bucketTotal (<[k := c']> cats) + length (members c) =
   bucketTotal cats + length (members c'))%nat.
Proof.
  intros Hk. unfold bucketTotal.
  rewrite (map_fold_delete_L _ _ k c cats); [|intros; lia | done].
  rewrite <- (insert_delete_eq cats).
  rewrite (map_fold_insert_L _ _ k c' (delete k cats));
    [lia | intros; lia | apply lookup_delete_eq].
Qed.

(** ** Placing the files *)

Lemma membersOf_cons_eq f l :
  membersOf (detectFileCategory (name f)) (f :: l)
  = enrich f :: membersOf (detectFileCategory (name f)) l.
Proof. unfold membersOf. by rewrite filter_cons_True. Qed.

Lemma membersOf_cons_ne k f l :
  detectFileCategory (name f) <> k -> membersOf k (f :: l) = membersOf k l.
Proof. intros Hne. unfold membersOf. by rewrite filter_cons_False. Qed.

Lemma forEach_placeFile (l : list NoteFile) (m : Machine) :
  hasAllCategories m ->
  exists cats',
    forEach l placeFile m = (Returned tt, set_categories cats' m) /\
    (forall k, cats' !! k = withMembers (membersOf k l) <$> categories m !! k) /\
    bucketTotal cats' = (bucketTotal (categories m) + length l)%nat.
Proof.
  revert m. induction l as [|f l IH]; intros m Hall.
  - exists (categories m). split; [by destruct m|]. split.
    + intros k. destruct (categories m !! k) as [[t i c ms]|]; simpl; [|done].
      unfold withMembers, membersOf. simpl. by rewrite List.app_nil_r.
    + simpl. lia.
  - destruct (Hall (detectFileCategory (name f)) (detectFileCategory_key _)) as [c Hc].
    set (kf := detectFileCategory (name f)) in *.
    set (m1 := set_categories (<[kf := pushMember (enrich f) c]> (categories m)) m).
    assert (Hplace : placeFile f m = (Returned tt, m1)).
    { unfold placeFile. fold kf. by rewrite Hc. }
    destruct (IH m1) as (cats' & Hrun & Hlook & Htotal).
    { intros k Hk. unfold m1. simpl.
      destruct (decide (kf = k)) as [<- | Hne].
      - rewrite lookup_insert_eq. by eexists.
      - rewrite lookup_insert_ne by done. by apply Hall. }
    exists cats'. split; [|split].
    + simpl. unfold bind. by rewrite Hplace, Hrun.
    + intros k. rewrite Hlook. unfold m1. simpl.
      destruct (decide (kf = k)) as [<- | Hne].
      * rewrite lookup_insert_eq, Hc. simpl. unfold kf. rewrite membersOf_cons_eq.
        unfold withMembers, pushMember. simpl. by rewrite <- List.app_assoc.
      * rewrite lookup_insert_ne by done. by rewrite membersOf_cons_ne.
    + rewrite Htotal. unfold m1. simpl.
      pose proof (bucketTotal_insert (categories m) kf c (pushMember (enrich f) c) Hc) as Hins.
      unfold pushMember in Hins at 2. simpl in Hins. rewrite List.length_app in Hins.
      simpl in Hins. lia.
Qed.

(** ** The partition *)

Section Partition.
Context `{Builtins}.

(** the machine after [categorizeFiles]: every category holds, sorted, the
    files that the categorizer sends to it, and the main list is sorted *)
Lemma categorizeFiles_run (m : Machine) :
  hasAllCategories m ->
  exists cats',
    categorizeFiles m =
      (Returned tt, set_files (sortBy compareFiles (files m)) (set_categories cats' m)) /\
    (forall k, cats' !! k =
       (fun c => mkCategory (title c) (icon c) (color c)
                   (sortBy compareMembers (membersOf k (files m)))) <$> categories m !! k) /\
    bucketTotal cats' = length (files m).
Proof.
  intros Hall.
  set (m1 := set_categories (clearMembers <$> categories m) m).
  destruct (forEach_placeFile (files m) m1) as (cats2 & Hrun & Hlook & Htotal).
  { intros k Hk. unfold m1. simpl. rewrite lookup_fmap.
    destruct (Hall k Hk) as [c ->]. by eexists. }
  exists ((fun c => setMembers (sortBy compareMembers (members c)) c) <$> cats2).
  split; [|split].
  - unfold categorizeFiles, bind, step, ask. fold m1.
    change (files m1) with (files m). by rewrite Hrun.
  - intros k. rewrite lookup_fmap, Hlook. unfold m1. simpl. rewrite lookup_fmap.
    by destruct (categories m !! k).
  - rewrite bucketTotal_fmap.
    + rewrite Htotal. unfold m1. simpl. by rewrite bucketTotal_cleared.
    + intros c. simpl. apply sortBy_length.
Qed.

(** the keys of the constructor stay: the premise of the partition is an
    invariant of the object *)
Lemma categorizeFiles_keeps_categories (m : Machine) :
  hasAllCategories m -> hasAllCategories (run categorizeFiles m).
Proof.
  intros Hall. destruct (categorizeFiles_run m Hall) as (cats' & Hrun & Hlook & _).
  unfold run. rewrite Hrun. intros k Hk.
  change (is_Some (cats' !! k)). rewrite Hlook.
  destruct (Hall k Hk) as [c ->]. by eexists.
Qed.

End Partition.

Lemma hasAllCategories_initial (m : Machine) :
  categories m = initialCategories -> hasAllCategories m.
Proof.
  intros Hm k Hk. rewrite Hm. unfold categoryKeys, categoryPriority in Hk. simpl in Hk.
  repeat destruct Hk as [<- | Hk]; [by eexists .. | done].
Qed.

(** C6.  After [categorizeFiles] the categories partition the catalog: the
    call returns normally, the sizes of all the categories (GERAL included)
    add up to the number of files, every category holds exactly the files
    that the categorizer sends to it (each as often as it is in the list),
    every file is in the category of its name, and two members of different
    categories never have the same name. *)
Theorem categorizeFiles_partition `{Builtins} (m : Machine) :
  hasAllCategories m ->
  let m' := run categorizeFiles m in
  result categorizeFiles m = Returned tt /\
  bucketTotal (categories m') = length (files m) /\
  Permutation (files m') (files m) /\
  (forall k c, categories m' !! k = Some c ->
     Permutation (members c) (membersOf k (files m))) /\
  (forall f, In f (files m) ->
     exists c, categories m' !! detectFileCategory (name f) = Some c /\
               In (enrich f) (members c)) /\
  (forall k1 k2 c1 c2 x1 x2,
     categories m' !! k1 = Some c1 -> categories m' !! k2 = Some c2 ->
     In x1 (members c1) -> In x2 (members c2) ->
     name (base x1) = name (base x2) -> k1 = k2).
Proof.
  intros Hall m'.
  destruct (categorizeFiles_run m Hall) as (cats' & Hrun & Hlook & Htotal).
  unfold m', run, result. rewrite Hrun. simpl.
  assert (Hmem : forall k c, cats' !! k = Some c ->
            Permutation (members c) (membersOf k (files m))).
  { intros k c. rewrite Hlook. destruct (categories m !! k) as [c0|]; [|done].
    intros [= <-]. simpl. apply sortBy_Permutation. }
  assert (Hcat : forall k c x, cats' !! k = Some c -> In x (members c) ->
            detectFileCategory (name (base x)) = k).
  { intros k c x Hk Hx. apply (Permutation_in _ (Hmem k c Hk)) in Hx.
    unfold membersOf in Hx. apply in_map_iff in Hx as (f & <- & Hf).
    apply list_elem_of_In, list_elem_of_filter in Hf as [Hf _]. done. }
  split; [done|]. split; [done|]. split; [apply sortBy_Permutation|].
  split; [done|]. split.
  - intros f Hf. destruct (Hall _ (detectFileCategory_key (name f))) as [c0 Hc0].
    eexists. split; [by rewrite Hlook, Hc0|]. simpl.
    apply (Permutation_in _ (Permutation_sym (sortBy_Permutation _ _))).
    unfold membersOf. apply in_map, list_elem_of_In, list_elem_of_filter.
    split; [done | by apply list_elem_of_In].
  - intros k1 k2 c1 c2 x1 x2 H1 H2 Hx1 Hx2 Hname.
    by rewrite <- (Hcat _ _ _ H1 Hx1), <- (Hcat _ _ _ H2 Hx2), Hname.
Qed.

(** C6 at work on the sample machine and its three files *)
Lemma categorizeFiles_partition_witness :
  hasAllCategories sampleMachine /\
  bucketTotal (categories (run (@categorizeFiles plainBuiltins) sampleMachine))
  = length (files sampleMachine).
Proof.
  assert (Hall : hasAllCategories sampleMachine).
  { intros k Hk. unfold categoryKeys, categoryPriority in Hk. simpl in Hk.
    repeat destruct Hk as [<- | Hk]; [by eexists .. | done]. }
  split; [exact Hall|].
  apply (@categorizeFiles_partition plainBuiltins sampleMachine Hall).
Defined.

(** ** The in-memory cache *)

(** C7.  [isCacheValid()] holds exactly when [lastUpdate] is set (it holds a
    time stamp: null and 0 are its falsy values), strictly less than five
    minutes (300000 ms) have passed since then, and the file list is not
    empty.  It is false whenever the list is empty; and with [lastUpdate]
    set to the time [now], it holds [elapsed] milliseconds later exactly
    when [elapsed] is below 300000. *)
Theorem isCacheValid_window (m : Machine) :
  (isCacheValid m = true <->
     (exists t, lastUpdate m = Some t /\ t <> 0 /\ clock m - t < 300000) /\ files m <> []) /\
  (files m = [] -> isCacheValid m = false) /\
  (forall now elapsed, now <> 0 -> files m <> [] ->
     (isCacheValid (set_clock (now + elapsed) (set_lastUpdate (Some now) m)) = true
      <-> elapsed < 300000)).
Proof.
  assert (Hlen : forall l : list NoteFile, (0 <? length l)%nat = true <-> l <> []).
  { intros [|x l]; simpl; [split; [discriminate | done] | split; [discriminate | done]]. }
  split; [|split].
  - unfold isCacheValid. destruct (lastUpdate m) as [t|].
    + rewrite !andb_true_iff, negb_true_iff, Z.eqb_neq, Z.ltb_lt, Hlen.
      change cacheDuration with 300000. split.
      * intros [[Ht Hc] Hf]. split; [by exists t | done].
      * intros [(t' & [= <-] & Ht & Hc) Hf]. done.
    + split; [discriminate | intros [(t & Ht & _) _]; discriminate].
  - intros Hf. unfold isCacheValid. rewrite Hf. destruct (lastUpdate m); [|done].
    simpl. by rewrite andb_false_r.
  - intros now elapsed Hnow Hf. unfold isCacheValid. simpl.
    rewrite !andb_true_iff, negb_true_iff, Z.eqb_neq, Z.ltb_lt, Hlen.
    change cacheDuration with 300000. split; [intros [[_ Hc] _]; lia | intros He].
    split; [split; [done | lia] | done].
Qed.

(** ** A load that hits the in-memory cache *)

(** C8.  A call [loadFiles(false)] made while the in-memory cache is valid
    returns with [files], [categories] and [lastUpdate] as they were; it
    performs no [fetch], sets no timer and reads nothing from the storage:
    the only call it can make is the [setItem] of [renderFiles]. *)
Theorem loadFiles_cache_hit `{Builtins} (m : Machine) :
  isCacheValid m = true ->
  let m' := run (loadFiles false) m in
  result (loadFiles false) m = Returned tt /\
  files m' = files m /\
  categories m' = categories m /\
  lastUpdate m' = lastUpdate m /\
  (calls m' = calls m \/ calls m' = calls m ++ [CallSetItem]).
Proof.
  intros Hvalid m'. unfold m', run, result, loadFiles, loadFilesFrom.
  destruct (filesContainer m) as [v|] eqn:Hc; [|simpl; tauto].
  rewrite Hvalid. simpl. unfold renderFiles. rewrite Hc.
  destruct (length (getActiveFiles m) =? 0)%nat; simpl; [tauto|].
  unfold setCachedData. simpl. destruct (storageWritable m); simpl; tauto.
Qed.

(** C8 at work on the sample machine two minutes after its load *)
Lemma loadFiles_cache_hit_witness :
  isCacheValid cachedMachine = true /\
  files (run (@loadFiles plainBuiltins false) cachedMachine) = files cachedMachine.
Proof.
  split; [reflexivity|].
  apply (@loadFiles_cache_hit plainBuiltins cachedMachine). reflexivity.
Defined.

(** ** The steps of a load *)

(** the repository is remote-enabled exactly on a [github.io] host that is
    not a local environment *)
Lemma extractRepoInfo_remote hostname pathname protocol :
  remoteEnabled (extractRepoInfo hostname pathname protocol) <->
  isLocalEnvironment hostname protocol = false /\ endsWith hostname ".github.io" = true.
Proof.
  unfold remoteEnabled, extractRepoInfo.
  destruct (isLocalEnvironment hostname protocol); simpl.
  - split; [intros [? _]; done | intros [? _]; done].
  - destruct (endsWith hostname ".github.io"); simpl.
    + split; [done | intros _; split; done].
    + split; [intros [? _]; done | intros [_ ?]; done].
Qed.

Section LoaderFacts.
Context `{Builtins}.

Lemma renderFiles_files m : files (renderFiles m) = files m.
Proof.
  unfold renderFiles. destruct (filesContainer m); [|done].
  destruct (length (getActiveFiles m) =? 0)%nat; [done|].
  unfold setCachedData. simpl. by destruct (storageWritable m).
Qed.

Lemma renderFiles_lastUpdate m : lastUpdate (renderFiles m) = lastUpdate m.
Proof.
  unfold renderFiles. destruct (filesContainer m); [|done].
  destruct (length (getActiveFiles m) =? 0)%nat; [done|].
  unfold setCachedData. simpl. by destruct (storageWritable m).
Qed.

Lemma renderFiles_calls m :
  calls (renderFiles m) = calls m \/ calls (renderFiles m) = calls m ++ [CallSetItem].
Proof.
  unfold renderFiles. destruct (filesContainer m); [|by left].
  destruct (length (getActiveFiles m) =? 0)%nat; [by left|].
  unfold setCachedData. simpl. destruct (storageWritable m); by right.
Qed.

Lemma renderFiles_view m v :
  filesContainer m = Some v -> showsCatalog (renderFiles m).
Proof.
  intros Hv. unfold showsCatalog, renderFiles. rewrite Hv.
  destruct (length (getActiveFiles m) =? 0)%nat.
  - right. simpl. by rewrite Hv.
  - left. unfold setCachedData. simpl. destruct (storageWritable m); simpl; rewrite Hv; by eexists.
Qed.

(** [loadFromGitHub] throws on every failure of the listing and leaves the
    file list alone *)
Lemma loadFromGitHub_failure m :
  remoteFails (network m) ->
  exists e, loadFromGitHub m = (Thrown e, afterFetch m) /\
            (notFound (network m) = true -> e = NotesFolderNotFound).
Proof.
  intros Hfail. unfold loadFromGitHub, tryCatch, bind, ask, fetch, throw. simpl.
  fold (afterFetch m).
  destruct (network m) as [message | status statusText json]; simpl in *.
  - by eexists.
  - destruct (ok status) eqn:Hok; simpl.
    + destruct Hfail as [? | ->]; [done|]. eexists. split; [done|].
      intros H404%Z.eqb_eq. by rewrite H404 in Hok.
    + destruct (status =? 404); simpl; by eexists.
Qed.

(** a table of at least forty names is loaded as it is: neither the
    emergency list nor the discovery runs *)
Lemma loadLocalFilesFrom_full table m :
  (40 <= length table)%nat ->
  loadLocalFilesFrom table m =
  (Returned tt,
   set_files (sortBy compareByNumber (imap (localFile (clock m + 500)) table))
     (set_clock (clock m + 500) (record (CallSetTimeout 500) m))).
Proof.
  intros Hlen.
  unfold loadLocalFilesFrom, bind, sleep, step, ask. cbn [files clock set_files set_clock record].
  rewrite sortBy_length, length_imap.
  replace (length table =? 0)%nat with false by (symmetry; apply Nat.eqb_neq; lia).
  unfold ret. cbn [files set_files]. rewrite sortBy_length, length_imap.
  by replace (length table <? 40)%nat with false by (symmetry; apply Nat.ltb_ge; lia).
Qed.

Lemma names_of_table now table : name <$> imap (localFile now) table = table.
Proof.
  rewrite fmap_imap.
  rewrite (imap_ext _ (const id)) by (intros; reflexivity).
  by rewrite imap_const, list_fmap_id.
Qed.

Lemma names_of_emergency now table : name <$> imap (emergencyFile now) table = table.
Proof.
  rewrite fmap_imap.
  rewrite (imap_ext _ (const id)) by (intros; reflexivity).
  by rewrite imap_const, list_fmap_id.
Qed.

Lemma loadFilesFrom_remote_failure table m force v :
  (40 <= length table)%nat ->
  filesContainer m = Some v -> remoteEnabled (currentRepo m) -> hasAllCategories m ->
  (force = true \/ isCacheValid m = false) -> remoteFails (network m) ->
  let m' := run (loadFilesFrom table force) m in
  result (loadFilesFrom table force) m = Returned tt /\
  Permutation (name <$> files m') table /\
  lastUpdate m' = Some (clock m + latency m + 500) /\
  showsCatalog m' /\
  exists tail,
    calls m' = calls m ++ [CallFetch (apiUrlOf (currentRepo m)); CallSetTimeout 500] ++ tail /\
    (tail = [] \/ tail = [CallSetItem]).
Proof.
  intros Hlen Hc [Hlocal Hapi] Hall Hforce Hfail m'.
  set (m1 := set_loadingState true (set_view LoadingView m)).
  destruct (loadFromGitHub_failure m1) as (e & Hgh & _); [exact Hfail|].
  set (m2 := afterFetch m1) in *.
  pose proof (loadLocalFilesFrom_full table m2 Hlen) as Hstatic.
  set (m3 := set_files (sortBy compareByNumber (imap (localFile (clock m2 + 500)) table))
               (set_clock (clock m2 + 500) (record (CallSetTimeout 500) m2))) in *.
  set (m4 := set_lastUpdate (Some (clock m3)) m3).
  destruct (categorizeFiles_run m4) as (cats' & Hcat & _ & _); [exact Hall|].
  set (m5 := set_files (sortBy compareFiles (files m4)) (set_categories cats' m4)) in *.
  assert (Hrun : loadFilesFrom table force m
                 = (Returned tt, set_loadingState false (renderFiles m5))).
  { unfold loadFilesFrom. rewrite Hc.
    replace (negb force && isCacheValid m) with false
      by (destruct Hforce as [-> | ->]; [done | by rewrite andb_false_r]).
    unfold bind, step, tryFinally, tryCatch, ask.
    change (currentRepo (set_loadingState true (set_view LoadingView m)))
      with (currentRepo m).
    rewrite Hlocal, bool_decide_eq_false_2 by done. cbn [orb].
    fold m1. rewrite Hgh, Hstatic.
    fold m4. by rewrite Hcat. }
  assert (Hfiles5 : files m5 = sortBy compareFiles
            (sortBy compareByNumber (imap (localFile (clock m2 + 500)) table)))
    by reflexivity.
  assert (Hview5 : filesContainer m5 = const LoadingView <$> filesContainer m) by reflexivity.
  assert (Hlast5 : lastUpdate m5 = Some (clock m + latency m + 500)) by reflexivity.
  assert (Hcalls5 : calls m5 = (calls m ++ [CallFetch (apiUrlOf (currentRepo m))])
                                 ++ [CallSetTimeout 500]) by reflexivity.
  clearbody m5. clear Hcat Hstatic Hgh. clearbody m2.
  unfold m', run, result. rewrite Hrun.
  change (fst (Returned tt, set_loadingState false (renderFiles m5))) with (@Returned unit tt).
  change (snd (Returned tt, set_loadingState false (renderFiles m5)))
    with (set_loadingState false (renderFiles m5)).
  change (files (set_loadingState false (renderFiles m5))) with (files (renderFiles m5)).
  change (lastUpdate (set_loadingState false (renderFiles m5)))
    with (lastUpdate (renderFiles m5)).
  change (calls (set_loadingState false (renderFiles m5))) with (calls (renderFiles m5)).
  change (showsCatalog (set_loadingState false (renderFiles m5)))
    with (showsCatalog (renderFiles m5)).
  rewrite renderFiles_files, renderFiles_lastUpdate, Hfiles5, Hlast5.
  split; [done|]. split; [|split; [|split]].
  - by rewrite !sortBy_Permutation, names_of_table.
  - done.
  - apply (renderFiles_view m5 LoadingView). by rewrite Hview5, Hc.
  - destruct (renderFiles_calls m5) as [-> | ->]; rewrite Hcalls5.
    + exists []. rewrite <- List.app_assoc. auto.
    + exists [CallSetItem]. rewrite <- !List.app_assoc. auto.
Qed.

(** a load never throws: what is thrown inside is caught and shown *)
Lemma caught_returns (c : M unit) (f g : Machine -> Machine) m :
  fst (tryFinally (tryCatch c (fun _ => step f)) g m) = Returned tt.
Proof. unfold tryFinally, tryCatch, step. by destruct (c m) as [[[]|e] m0]. Qed.

Lemma loadFilesFrom_returns table force m :
  result (loadFilesFrom table force) m = Returned tt.
Proof.
  unfold result, loadFilesFrom. destruct (filesContainer m); [|done].
  destruct (negb force && isCacheValid m); [done|].
  unfold bind at 1. unfold step at 1. cbv beta iota.
  unfold bind at 1. unfold step at 1. cbv beta iota.
  apply caught_returns.
Qed.

(** *** The earlier script *)

Lemma legacy_renderFiles_files m : files (Legacy.renderFiles m) = files m.
Proof.
  unfold Legacy.renderFiles. destruct (filesContainer m); [|done].
  destruct (length (files m) =? 0)%nat; [done|].
  unfold setCachedData. simpl. by destruct (storageWritable m).
Qed.

Lemma legacy_renderFiles_calls m :
  calls (Legacy.renderFiles m) = calls m \/ calls (Legacy.renderFiles m) = calls m ++ [CallSetItem].
Proof.
  unfold Legacy.renderFiles. destruct (filesContainer m); [|by left].
  destruct (length (files m) =? 0)%nat; [by left|].
  unfold setCachedData. simpl. destruct (storageWritable m); by right.
Qed.

Lemma legacy_renderFiles_view m v :
  filesContainer m = Some v ->
  filesContainer (Legacy.renderFiles m) =
  Some (if (length (files m) =? 0)%nat then EmptyState else Grid (name <$> files m)).
Proof.
  intros Hv. unfold Legacy.renderFiles. rewrite Hv.
  destruct (length (files m) =? 0)%nat; simpl; [by rewrite Hv|].
  unfold setCachedData. simpl. destruct (storageWritable m); simpl; by rewrite Hv.
Qed.

Lemma legacy_loadFromGitHub_404 m :
  notFound (network m) = true ->
  Legacy.loadFromGitHub m = (Returned tt, set_files [] (afterFetch m)).
Proof.
  intros H404. unfold Legacy.loadFromGitHub, tryCatch, bind, ask, fetch, step. simpl.
  fold (afterFetch m).
  destruct (network m) as [message | status statusText json]; [done|]. simpl in H404.
  apply Z.eqb_eq in H404 as ->. reflexivity.
Qed.

(** the machine after the [catch] of the earlier [loadFromGitHub] *)
Lemma legacy_loadFromGitHub_failure m :
  remoteFails (network m) -> notFound (network m) = false ->
  exists m',
    Legacy.loadFromGitHub m = (Returned tt, m') /\
    files m' = default [] (freshCache (clock m + latency m) (localStorage m)) /\
    filesContainer m' = filesContainer m /\
    clock m' = clock m + latency m /\
    exists tail, calls m' = calls m ++ [CallFetch (apiUrlOf (currentRepo m)); CallGetItem] ++ tail /\
                 ~ In (CallSetTimeout 500) tail.
Proof.
  intros Hfail H404.
  assert (Hcatch : Legacy.loadFromGitHub m =
            (Returned tt,
             let (cachedData, m') := getCachedData (set_files [] (afterFetch m)) in
             match cachedData with
             | Some cached => set_files cached m'
             | None => m'
             end)).
  { unfold Legacy.loadFromGitHub, tryCatch, bind, ask, fetch, step, throw. simpl.
    fold (afterFetch m).
    destruct (network m) as [message | status statusText json]; simpl in *.
    - done.
    - rewrite H404. destruct (ok status) eqn:Hok; simpl.
      + destruct Hfail as [? | ->]; done.
      + done. }
  rewrite Hcatch. eexists. split; [done|].
  unfold getCachedData. cbn [localStorage record set_files afterFetch set_clock clock].
  destruct (localStorage m) as [[cachedFiles timestamp version|]|]; simpl.
  - destruct (clock m + latency m - timestamp >? 3600000); simpl.
    + repeat split; try done. exists [CallRemoveItem].
      rewrite <- !List.app_assoc. split; [done|]. simpl. intros [? | []]; done.
    + repeat split; try done. exists []. rewrite <- !List.app_assoc. split; [done | intros []].
  - repeat split; try done. exists []. rewrite <- !List.app_assoc. split; [done | intros []].
  - repeat split; try done. exists []. rewrite <- !List.app_assoc. split; [done | intros []].
Qed.

Lemma legacy_loadFiles_returns force m :
  result (Legacy.loadFiles force) m = Returned tt.
Proof.
  unfold result, Legacy.loadFiles. destruct (filesContainer m); [|done].
  destruct (negb force && isCacheValid m); [done|].
  unfold bind at 1. unfold step at 1. cbv beta iota.
  unfold bind at 1. unfold step at 1. cbv beta iota.
  apply caught_returns.
Qed.

(** a load of the earlier script from the remote source: what its
    [loadFromGitHub] leaves is stamped and rendered *)
Lemma legacy_loadFiles_remote m force v :
  filesContainer m = Some v -> isLocal (currentRepo m) = false ->
  (force = true \/ isCacheValid m = false) ->
  forall m1,
    Legacy.loadFromGitHub (set_loadingState true (set_view LoadingView m)) = (Returned tt, m1) ->
    filesContainer m1 = Some LoadingView ->
    let m' := run (Legacy.loadFiles force) m in
    result (Legacy.loadFiles force) m = Returned tt /\
    files m' = files m1 /\
    filesContainer m' =
      Some (if (length (files m1) =? 0)%nat then EmptyState else Grid (name <$> files m1)) /\
    (files m1 = [] -> calls m' = calls m1).
Proof.
  intros Hc Hlocal Hforce m1 Hgh Hview m'.
  assert (Hrun : Legacy.loadFiles force m =
            (Returned tt,
             set_loadingState false (Legacy.renderFiles (set_lastUpdate (Some (clock m1)) m1)))).
  { unfold Legacy.loadFiles. rewrite Hc.
    replace (negb force && isCacheValid m) with false
      by (destruct Hforce as [-> | ->]; [done | by rewrite andb_false_r]).
    unfold bind, step, tryFinally, tryCatch, ask.
    change (currentRepo (set_loadingState true (set_view LoadingView m)))
      with (currentRepo m).
    rewrite Hlocal, Hgh. reflexivity. }
  unfold m', run, result. rewrite Hrun. clear Hrun Hgh m'.
  set (m2 := set_lastUpdate (Some (clock m1)) m1).
  assert (Hfiles2 : files m2 = files m1) by reflexivity.
  assert (Hview2 : filesContainer m2 = filesContainer m1) by reflexivity.
  assert (Hcalls2 : calls m2 = calls m1) by reflexivity.
  clearbody m2.
  change (fst (Returned tt, set_loadingState false (Legacy.renderFiles m2)))
    with (@Returned unit tt).
  change (snd (Returned tt, set_loadingState false (Legacy.renderFiles m2)))
    with (set_loadingState false (Legacy.renderFiles m2)).
  change (files (set_loadingState false (Legacy.renderFiles m2)))
    with (files (Legacy.renderFiles m2)).
  change (filesContainer (set_loadingState false (Legacy.renderFiles m2)))
    with (filesContainer (Legacy.renderFiles m2)).
  change (calls (set_loadingState false (Legacy.renderFiles m2)))
    with (calls (Legacy.renderFiles m2)).
  rewrite legacy_renderFiles_files, Hfiles2.
  rewrite (legacy_renderFiles_view m2 LoadingView) by (by rewrite Hview2).
  rewrite Hfiles2. split; [done|]. split; [done|]. split; [done|].
  intros Hnil. unfold Legacy.renderFiles. rewrite Hview2, Hview, Hfiles2, Hnil.
  change (calls m2 = calls m1). exact Hcalls2.
Qed.

End LoaderFacts.

(** ** The fallback of the loader *)

Lemma knownFiles_large : (40 <= length knownFiles)%nat.
Proof. apply Nat.leb_le. reflexivity. Qed.

Lemma notFound_fails net : notFound net = true -> remoteFails net.
Proof.
  destruct net as [message | status statusText json]; simpl; [done|].
  intros ->%Z.eqb_eq. by left.
Qed.

(** C1, as the code has it.  When the remote listing answers 404 on a
    remote-enabled repository, [loadFromGitHub] of [main.js] throws its
    error "notes folder not found, using the local method" and leaves the
    file list alone; [loadFiles] catches it and loads the table of known
    files, so that the catalog holds the 47 known names and is shown; the
    calls made are the [fetch], the timer of [loadLocalFiles] and at most
    the [setItem] of the rendering.  The earlier script is the one that
    takes a 404 for an empty folder: it returns with an empty list, shows
    the empty state and makes no call besides the [fetch]. *)
Theorem loadFiles_remote_404 `{Builtins} (m : Machine) (force : bool) (v : View) :
  filesContainer m = Some v -> remoteEnabled (currentRepo m) -> hasAllCategories m ->
  (force = true \/ isCacheValid m = false) ->
  notFound (network m) = true ->
  loadFromGitHub m = (Thrown NotesFolderNotFound, afterFetch m) /\
  (let m' := run (loadFiles force) m in
   result (loadFiles force) m = Returned tt /\
   Permutation (name <$> files m') knownFiles /\
   showsCatalog m' /\
   exists tail,
     calls m' = calls m ++ [CallFetch (apiUrlOf (currentRepo m)); CallSetTimeout 500] ++ tail /\
     (tail = [] \/ tail = [CallSetItem])) /\
  (let m' := run (Legacy.loadFiles force) m in
   result (Legacy.loadFiles force) m = Returned tt /\
   files m' = [] /\
   filesContainer m' = Some EmptyState /\
   calls m' = calls m ++ [CallFetch (apiUrlOf (currentRepo m))]).
Proof.
  intros Hc Hremote Hall Hforce H404.
  pose proof (notFound_fails _ H404) as Hfail.
  split; [|split].
  - destruct (loadFromGitHub_failure m Hfail) as (e & -> & He). by rewrite (He H404).
  - destruct (loadFilesFrom_remote_failure knownFiles m force v knownFiles_large
                  Hc Hremote Hall Hforce Hfail)
      as (Hres & Hperm & _ & Hview & Hcalls).
    done.
  - destruct Hremote as [Hlocal _].
    set (m0 := set_loadingState true (set_view LoadingView m)).
    pose proof (legacy_loadFromGitHub_404 m0 H404) as Hgh.
    assert (Hview1 : filesContainer (set_files [] (afterFetch m0)) = Some LoadingView).
    { change (filesContainer (set_files [] (afterFetch m0)))
        with (const LoadingView <$> filesContainer m). by rewrite Hc. }
    destruct (legacy_loadFiles_remote m force v Hc Hlocal Hforce _ Hgh Hview1)
      as (Hres & Hfiles & Hview & Hcalls).
    split; [done|]. split; [done|]. split; [done|].
    by rewrite Hcalls.
Qed.

(** C1 at work on the machine whose API answers 404 *)
Lemma loadFiles_remote_404_witness :
  notFound (network machine404) = true /\
  Permutation (name <$> files (run (@loadFiles plainBuiltins true) machine404)) knownFiles.
Proof.
  split; [reflexivity|].
  apply (@loadFiles_remote_404 plainBuiltins machine404 true Blank).
  - reflexivity.
  - split; [reflexivity | discriminate].
  - intros k Hk. unfold categoryKeys, categoryPriority in Hk. simpl in Hk.
    repeat destruct Hk as [<- | Hk]; [by eexists .. | done].
  - by left.
  - reflexivity.
Defined.

(** C1, as it is stated, fails on [main.js]: on this machine the API
    answers 404, [loadFromGitHub] throws, and the load goes on to the table
    of known files: the timer of [loadLocalFiles] is set and the catalog
    ends with 47 files, not empty. *)
Lemma loadFiles_404_falls_back :
  notFound (network machine404) = true /\
  remoteEnabled (currentRepo machine404) /\
  result (@loadFromGitHub plainBuiltins) machine404 = Thrown NotesFolderNotFound /\
  length (files (run (@loadFiles plainBuiltins true) machine404)) = 47%nat /\
  calls (run (@loadFiles plainBuiltins true) machine404) =
    [CallFetch "https://api.github.com/repos/tiagolimasoares/dev_notes/contents/notes";
     CallSetTimeout 500; CallSetItem].
Proof.
  split; [reflexivity|]. split; [split; [reflexivity | discriminate]|].
  split; [by vm_compute|]. split; by vm_compute.
Qed.

(** C2, as the code has it.  When the remote listing fails on a
    remote-enabled repository, [loadFiles] of [main.js] returns normally
    with the table of known files as its catalog, which is not empty and is
    shown; the persisted cache is not read: the calls are the [fetch], the
    timer of [loadLocalFiles] and at most the [setItem] of the rendering.
    In the earlier script a failure other than a 404 is followed by the
    persisted cache: the catalog is the cached list when the item is there
    and at most one hour old, and empty otherwise, shown as the grid or as
    the empty state.  No load of either script throws. *)
Theorem loadFiles_fallback `{Builtins} (m : Machine) (force : bool) (v : View) :
  filesContainer m = Some v -> remoteEnabled (currentRepo m) -> hasAllCategories m ->
  (force = true \/ isCacheValid m = false) ->
  remoteFails (network m) ->
  (let m' := run (loadFiles force) m in
   result (loadFiles force) m = Returned tt /\
   Permutation (name <$> files m') knownFiles /\
   files m' <> [] /\
   showsCatalog m' /\
   exists tail,
     calls m' = calls m ++ [CallFetch (apiUrlOf (currentRepo m)); CallSetTimeout 500] ++ tail /\
     (tail = [] \/ tail = [CallSetItem])) /\
  (notFound (network m) = false ->
   let m' := run (Legacy.loadFiles force) m in
   result (Legacy.loadFiles force) m = Returned tt /\
   files m' = default [] (freshCache (clock m + latency m) (localStorage m)) /\
   filesContainer m' =
     Some (if (length (files m') =? 0)%nat then EmptyState else Grid (name <$> files m'))) /\
  (forall table force' m0,
     result (loadFilesFrom table force') m0 = Returned tt /\
     result (Legacy.loadFiles force') m0 = Returned tt).
Proof.
  intros Hc Hremote Hall Hforce Hfail.
  split; [|split].
  - destruct (loadFilesFrom_remote_failure knownFiles m force v knownFiles_large
                  Hc Hremote Hall Hforce Hfail)
      as (Hres & Hperm & _ & Hview & Hcalls).
    unfold loadFiles.
    split; [done|]. split; [done|]. split; [|done].
    intros Hnil. rewrite Hnil in Hperm. by apply Permutation_nil_l in Hperm.
  - intros H404. destruct Hremote as [Hlocal _].
    destruct (legacy_loadFromGitHub_failure (set_loadingState true (set_view LoadingView m)))
      as (m1 & Hgh & Hfiles1 & Hview1 & _); [done..|].
    assert (Hview : filesContainer m1 = Some LoadingView).
    { rewrite Hview1.
      change (filesContainer (set_loadingState true (set_view LoadingView m)))
        with (const LoadingView <$> filesContainer m). by rewrite Hc. }
    destruct (legacy_loadFiles_remote m force v Hc Hlocal Hforce _ Hgh Hview)
      as (Hres & Hfiles & Hshown & _).
    split; [done|]. cbv zeta. rewrite Hshown, Hfiles. split; [|done].
    exact Hfiles1.
  - intros table force' m0. split; [apply loadFilesFrom_returns | apply legacy_loadFiles_returns].
Qed.

(** C2 at work on the machine whose API answers 500 *)
Lemma loadFiles_fallback_witness :
  remoteFails (network machine500) /\
  Permutation (name <$> files (run (@loadFiles plainBuiltins true) machine500)) knownFiles.
Proof.
  split; [by left|].
  apply (@loadFiles_fallback plainBuiltins machine500 true Blank).
  - reflexivity.
  - split; [reflexivity | discriminate].
  - intros k Hk. unfold categoryKeys, categoryPriority in Hk. simpl in Hk.
    repeat destruct Hk as [<- | Hk]; [by eexists .. | done].
  - by left.
  - by left.
Defined.

(** C2, as it is stated, fails: the persisted cache is not the third source
    of a chain.  On [machine500] the remote fails and the cache is present
    and fresh; with an empty table of known files [main.js] loads its
    emergency list of 46 names and never reads the cache.  On
    [machineEmptyListing] the remote listing is empty and the earlier
    script, which has no table, ends with an empty catalog without reading
    the cache. *)
Lemma loadFiles_cache_not_third_source :
  freshCache 1120 (localStorage machine500) = Some [noteNamed "cached.html"] /\
  remoteFails (network machine500) /\
  (let m' := run (@loadFilesFrom plainBuiltins [] true) machine500 in
   name <$> files m' ≡ₚ allKnownFiles /\ length (files m') = 46%nat /\
   calls m' =
     [CallFetch "https://api.github.com/repos/tiagolimasoares/dev_notes/contents/notes";
      CallSetTimeout 500; CallSetItem]) /\
  (let m' := run (@Legacy.loadFiles plainBuiltins true) machineEmptyListing in
   files m' = [] /\ filesContainer m' = Some EmptyState /\
   calls m' =
     [CallFetch "https://api.github.com/repos/tiagolimasoares/dev_notes/contents/notes"]).
Proof.
  split; [reflexivity|]. split; [by left|]. split.
  - cbv zeta. split; [|split; by vm_compute].
    assert (Hfiles : files (run (@loadFilesFrom plainBuiltins [] true) machine500)
              = sortBy (@compareFiles plainBuiltins)
                  (sortBy (@compareByNumber plainBuiltins)
                     (imap (@emergencyFile plainBuiltins 1620) allKnownFiles)))
      by (by vm_compute).
    by rewrite Hfiles, !sortBy_Permutation, names_of_emergency.
  - by vm_compute.
Qed.

(** ** The static list *)

Lemma Forall_flat_map_intro {A B} (P : B -> Prop) (f : A -> list B) (l : list A) :
  (forall x, Forall P (f x)) -> Forall P (flat_map f l).
Proof.
  intros Hf. induction l as [|x l IH]; simpl; [constructor|].
  apply Forall_app. split; [apply Hf | exact IH].
Qed.

Lemma omap_all_None {A} (l : list (option A)) :
  Forall (fun o => o = None) l -> omap id l = [].
Proof. induction 1 as [|o l -> _ IH]; simpl; [done | exact IH]. Qed.

Section LoadPaths.
Context `{Builtins}.

(** no probe of [discoverNewFiles] finds a file: the method changes nothing *)
Lemma discoverNewFiles_run m : discoverNewFiles m = (Returned tt, m).
Proof.
  unfold discoverNewFiles, step. rewrite omap_all_None; [done|].
  apply Forall_take, Forall_flat_map_intro. intros pattern.
  apply Forall_flat_map_intro. intros i.
  destruct (existsb _ _); repeat constructor.
Qed.

Lemma loadLocalFilesFrom_run table m :
  loadLocalFilesFrom table m =
  (Returned tt,
   set_files (staticCatalog (clock m + 500) table)
     (set_clock (clock m + 500) (record (CallSetTimeout 500) m))).
Proof.
  unfold loadLocalFilesFrom, staticCatalog, bind, sleep, step, ask.
  cbn [files clock set_files set_clock record].
  rewrite sortBy_length, length_imap.
  destruct (length table =? 0)%nat eqn:Hlen.
  - unfold debugLocalFiles, step. cbn [files clock set_files set_clock record].
    destruct (_ <? 40)%nat; [by rewrite discoverNewFiles_run | done].
  - unfold ret. cbn [files set_files].
    destruct (_ <? 40)%nat; [by rewrite discoverNewFiles_run | done].
Qed.

Lemma staticCatalog_names now table :
  Permutation (name <$> staticCatalog now table)
    (if (length table =? 0)%nat then allKnownFiles else table).
Proof.
  unfold staticCatalog. destruct (length table =? 0)%nat.
  - by rewrite sortBy_Permutation, names_of_emergency.
  - by rewrite sortBy_Permutation, names_of_table.
Qed.


(** *** What [renderFiles] touches *)

Lemma renderFiles_frame m :
  categories (renderFiles m) = categories m /\
  clock (renderFiles m) = clock m /\
  activeCategory (renderFiles m) = activeCategory m /\
  currentRepo (renderFiles m) = currentRepo m /\
  loadingState (renderFiles m) = loadingState m /\
  storageWritable (renderFiles m) = storageWritable m /\
  network (renderFiles m) = network m /\
  latency (renderFiles m) = latency m.
Proof.
  unfold renderFiles. destruct (filesContainer m); [|tauto].
  destruct (length (getActiveFiles m) =? 0)%nat; [simpl; tauto|].
  unfold setCachedData. simpl. destruct (storageWritable m) eqn:Hw; simpl; tauto.
Qed.

Lemma renderFiles_container m :
  filesContainer (renderFiles m) =
  (fun _ => if (length (getActiveFiles m) =? 0)%nat then EmptyState
            else Grid (name <$> getActiveFiles m)) <$> filesContainer m.
Proof.
  unfold renderFiles. destruct (filesContainer m) as [v|] eqn:Hv; [|done].
  destruct (length (getActiveFiles m) =? 0)%nat; simpl; [by rewrite Hv|].
  unfold setCachedData. simpl. destruct (storageWritable m); simpl; by rewrite Hv.
Qed.

Lemma renderFiles_storage m :
  localStorage (renderFiles m) =
  match filesContainer m with
  | Some _ =>
      if (length (getActiveFiles m) =? 0)%nat then localStorage m
      else if storageWritable m then Some (Stored (files m) (clock m) "1.0.0")
           else localStorage m
  | None => localStorage m
  end.
Proof.
  unfold renderFiles. destruct (filesContainer m); [|done].
  destruct (length (getActiveFiles m) =? 0)%nat; [done|].
  unfold setCachedData. simpl. by destruct (storageWritable m).
Qed.

Lemma renderFiles_onlySetItem m : onlySetItem (calls m) (calls (renderFiles m)).
Proof. apply renderFiles_calls. Qed.

(** *** The shape of a load that is not served from memory *)

Lemma loadFilesFrom_unfold table force m v :
  filesContainer m = Some v -> (force = true \/ isCacheValid m = false) ->
  loadFilesFrom table force m =
  tryFinally
    (tryCatch
       (loadSource table >>
        step (fun m => set_lastUpdate (Some (clock m)) m) >>
        categorizeFiles >>
        step renderFiles)
       (fun error => step (renderError "Erro ao carregar as notas. Verifique a conexão.")))
    (set_loadingState false)
    (set_loadingState true (set_view LoadingView m)).
Proof.
  intros Hc Hforce. unfold loadFilesFrom. rewrite Hc.
  replace (negb force && isCacheValid m) with false
    by (destruct Hforce as [-> | ->]; [done | by rewrite andb_false_r]).
  reflexivity.
Qed.

(** once the source has delivered, the list is stamped, categorized and
    rendered *)
Lemma loadFilesFrom_loaded table m force v m3 :
  filesContainer m = Some v -> (force = true \/ isCacheValid m = false) ->
  loadSource table (set_loadingState true (set_view LoadingView m)) = (Returned tt, m3) ->
  hasAllCategories m3 ->
  exists cats',
    loadFilesFrom table force m =
      (Returned tt,
       set_loadingState false
         (renderFiles
            (set_files (sortBy compareFiles (files m3))
               (set_categories cats' (set_lastUpdate (Some (clock m3)) m3))))) /\
    (forall k, cats' !! k =
       (fun c => mkCategory (title c) (icon c) (color c)
                   (sortBy compareMembers (membersOf k (files m3)))) <$> categories m3 !! k) /\
    bucketTotal cats' = length (files m3).
Proof.
  intros Hc Hforce Hsrc Hall.
  set (m4 := set_lastUpdate (Some (clock m3)) m3).
  destruct (categorizeFiles_run m4) as (cats' & Hcat & Hlook & Htotal); [exact Hall|].
  exists cats'. split; [|split; [exact Hlook | exact Htotal]].
  rewrite (loadFilesFrom_unfold table force m v Hc Hforce).
  unfold tryFinally, tryCatch. unfold bind at 1. rewrite Hsrc.
  unfold bind at 1. unfold step at 1. fold m4.
  unfold bind at 1. rewrite Hcat. reflexivity.
Qed.

(** the listing of the API, when it succeeds *)
Lemma loadFromGitHub_success m status statusText data :
  network m = Responded status statusText (Some data) -> ok status = true ->
  loadFromGitHub m =
  (Returned tt,
   set_files (sortBy compareByDateDesc
                (remoteFile (currentRepo m) (clock m + latency m)
                   <$> filter (fun f => isNote f = true) data))
     (afterFetch m)).
Proof.
  intros Hnet Hok. unfold loadFromGitHub, tryCatch, bind, ask, fetch, throw, step, ret.
  cbn [network set_clock record]. rewrite Hnet. cbn iota beta. rewrite Hok. reflexivity.
Qed.

Lemma loadSource_local table m :
  ~ remoteEnabled (currentRepo m) ->
  loadSource table m = loadLocalFilesFrom table m.
Proof.
  intros Hlocal. unfold loadSource, bind, ask.
  destruct (bool_decide (useGitHubAPI (currentRepo m) = Some false)) eqn:Hapi; [done|].
  destruct (isLocal (currentRepo m)) eqn:Hloc; [done|].
  exfalso. apply Hlocal. split; [done|]. by apply bool_decide_eq_false in Hapi.
Qed.

Lemma loadSource_remote table m :
  remoteEnabled (currentRepo m) ->
  loadSource table m =
  tryCatch loadFromGitHub (fun githubError => loadLocalFilesFrom table) m.
Proof.
  intros [Hloc Hapi]. unfold loadSource, bind, ask.
  by rewrite Hloc, bool_decide_eq_false_2.
Qed.


(** the machine at the end of a load whose last state before rendering is
    [m5] *)
Lemma rendered_state m5 :
  let m' := set_loadingState false (renderFiles m5) in
  files m' = files m5 /\ lastUpdate m' = lastUpdate m5 /\ clock m' = clock m5 /\
  categories m' = categories m5 /\ currentRepo m' = currentRepo m5 /\
  loadingState m' = false /\
  onlySetItem (calls m5) (calls m') /\
  filesContainer m' =
    (fun _ => if (length (getActiveFiles m5) =? 0)%nat then EmptyState
              else Grid (name <$> getActiveFiles m5)) <$> filesContainer m5.
Proof.
  intros m'. destruct (renderFiles_frame m5) as (Hcat & Hclock & _ & Hrepo & _).
  unfold m'. cbn [files lastUpdate clock categories currentRepo loadingState calls
                  filesContainer set_loadingState].
  rewrite renderFiles_files, renderFiles_lastUpdate, renderFiles_container.
  repeat split; try done. apply renderFiles_onlySetItem.
Qed.

(** the source of the catalog always delivers: what the API refuses, the
    static list supplies *)
Lemma loadSource_returns table m :
  exists m3,
    loadSource table m = (Returned tt, m3) /\
    categories m3 = categories m /\ filesContainer m3 = filesContainer m /\
    currentRepo m3 = currentRepo m /\ lastUpdate m3 = lastUpdate m /\
    (clock m3 = clock m + 500 \/ clock m3 = clock m + latency m \/
     clock m3 = clock m + latency m + 500).
Proof.
  unfold loadSource, bind, ask.
  destruct (bool_decide (useGitHubAPI (currentRepo m) = Some false) || isLocal (currentRepo m)).
  - rewrite loadLocalFilesFrom_run. eexists. split; [done|]. repeat split; try done. by left.
  - unfold tryCatch.
    assert (Hcases : remoteFails (network m) \/
              exists status statusText data,
                network m = Responded status statusText (Some data) /\ ok status = true).
    { destruct (network m) as [message | status statusText [data|]]; simpl.
      - by left.
      - destruct (ok status) eqn:Hok; [right; by eauto | left; by left].
      - left. by right. }
    destruct Hcases as [Hfail | (status & statusText & data & Hnet & Hok)].
    + destruct (loadFromGitHub_failure m Hfail) as (e & -> & _).
      rewrite loadLocalFilesFrom_run. eexists. split; [done|].
      repeat split; try done. right. right. reflexivity.
    + rewrite (loadFromGitHub_success m status statusText data Hnet Hok).
      eexists. split; [done|]. repeat split; try done. right. left. reflexivity.
Qed.

(** *** Fields that a method leaves alone *)

Lemma preserves_bind {A B C} (p : Machine -> C) (c : M A) (f : A -> M B) :
  preserves p c -> (forall a, preserves p (f a)) -> preserves p (bind c f).
Proof.
  intros Hc Hf m. unfold bind. specialize (Hc m).
  destruct (c m) as [[a|e] m0]; simpl in *; [by rewrite Hf | done].
Qed.

Lemma preserves_tryCatch {A C} (p : Machine -> C) (c : M A) (h : Error -> M A) :
  preserves p c -> (forall e, preserves p (h e)) -> preserves p (tryCatch c h).
Proof.
  intros Hc Hh m. unfold tryCatch. specialize (Hc m).
  destruct (c m) as [[a|e] m0]; simpl in *; [done | by rewrite Hh].
Qed.

Lemma preserves_step {C} (p : Machine -> C) (f : Machine -> Machine) :
  (forall m, p (f m) = p m) -> preserves p (step f).
Proof. intros Hf m. apply Hf. Qed.

Lemma preserves_ask {A C} (p : Machine -> C) (f : Machine -> A) : preserves p (ask f).
Proof. by intros m. Qed.

Lemma preserves_ret {A C} (p : Machine -> C) (a : A) : preserves p (ret a).
Proof. by intros m. Qed.

Lemma preserves_throw {A C} (p : Machine -> C) (e : Error) : preserves p (@throw A e).
Proof. by intros m. Qed.

Lemma preserves_forEach {A C} (p : Machine -> C) (l : list A) (body : A -> M unit) :
  (forall x, preserves p (body x)) -> preserves p (forEach l body).
Proof.
  intros Hbody. induction l as [|x l IH]; simpl; [apply preserves_ret|].
  apply preserves_bind; [apply Hbody | intros _; exact IH].
Qed.

Lemma placeFile_container f : preserves filesContainer (placeFile f).
Proof. intros m. unfold placeFile. by destruct (categories m !! _). Qed.

Lemma categorizeFiles_container : preserves filesContainer categorizeFiles.
Proof.
  unfold categorizeFiles.
  apply preserves_bind; [by apply preserves_step | intros _].
  apply preserves_bind.
  { apply preserves_bind; [apply preserves_ask | intros fs].
    apply preserves_forEach, placeFile_container. }
  intros _. apply preserves_bind; [by apply preserves_step | intros _].
  by apply preserves_step.
Qed.

End LoadPaths.

(** ** Loads from each source *)

Lemma loadFilesFrom_static `{Builtins} (table : list string) (m : Machine) (force : bool)
    (v : View) :
  table <> [] -> ~ remoteEnabled (currentRepo m) ->
  filesContainer m = Some v -> hasAllCategories m ->
  force = true \/ isCacheValid m = false ->
  let m' := run (loadFilesFrom table force) m in
  result (loadFilesFrom table force) m = Returned tt /\
  Permutation (name <$> files m') table /\
  lastUpdate m' = Some (clock m + 500) /\
  showsCatalog m' /\
  exists tail,
    calls m' = calls m ++ [CallSetTimeout 500] ++ tail /\
    (tail = [] \/ tail = [CallSetItem]).
Proof.
  intros Htable Hlocal Hc Hall Hforce m'.
  set (m1 := set_loadingState true (set_view LoadingView m)).
  pose proof (loadSource_local table m1 Hlocal) as Hsrc.
  rewrite loadLocalFilesFrom_run in Hsrc.
  set (m3 := set_files _ _) in Hsrc.
  destruct (loadFilesFrom_loaded table m force v m3 Hc Hforce Hsrc Hall)
    as (cats' & Hrun & _ & _).
  set (m5 := set_files _ _) in Hrun.
  assert (Hfiles5 : files m5 = sortBy compareFiles (staticCatalog (clock m + 500) table))
    by reflexivity.
  assert (Hview5 : filesContainer m5 = const LoadingView <$> filesContainer m) by reflexivity.
  assert (Hlast5 : lastUpdate m5 = Some (clock m + 500)) by reflexivity.
  assert (Hcalls5 : calls m5 = calls m ++ [CallSetTimeout 500]) by reflexivity.
  clearbody m5. clear Hsrc. clearbody m3.
  unfold m', run, result. rewrite Hrun.
  change (fst (Returned tt, set_loadingState false (renderFiles m5))) with (@Returned unit tt).
  change (snd (Returned tt, set_loadingState false (renderFiles m5)))
    with (set_loadingState false (renderFiles m5)).
  destruct (rendered_state m5) as (-> & -> & _ & _ & _ & _ & Hcalls & Hview).
  rewrite Hfiles5, Hlast5. split; [done|]. split; [|split; [done|split]].
  - rewrite sortBy_Permutation, staticCatalog_names.
    destruct table as [|entry rest]; [by destruct Htable|].
    change (length (entry :: rest) =? 0)%nat with false. cbv iota. reflexivity.
  - unfold showsCatalog. rewrite Hview, Hview5, Hc. simpl.
    destruct (length (getActiveFiles m5) =? 0)%nat; [by right | left; by eexists].
  - destruct Hcalls as [-> | ->]; rewrite Hcalls5.
    + exists []. auto.
    + exists [CallSetItem]. rewrite <- List.app_assoc. auto.
Qed.


(** X1.  Outside GitHub Pages the page never asks the network: when the
    repository record was read off a local environment, or off a host that
    is not under [github.io], a load that is not served from memory returns
    normally with exactly the names of the built-in table as its catalog,
    stamps [lastUpdate] half a second after the call, shows the catalog, and
    its only browser calls are the 500 ms timer and at most one [setItem]:
    no [fetch] is made. *)
Theorem loadFiles_offline_host `{Builtins} (m : Machine) (force : bool) (v : View)
    (hostname pathname protocol : string) :
  currentRepo m = extractRepoInfo hostname pathname protocol ->
  isLocalEnvironment hostname protocol = true \/ endsWith hostname ".github.io" = false ->
  filesContainer m = Some v -> hasAllCategories m ->
  force = true \/ isCacheValid m = false ->
  let m' := run (loadFiles force) m in
  result (loadFiles force) m = Returned tt /\
  Permutation (name <$> files m') knownFiles /\
  lastUpdate m' = Some (clock m + 500) /\
  showsCatalog m' /\
  exists tail,
    calls m' = calls m ++ [CallSetTimeout 500] ++ tail /\
    (tail = [] \/ tail = [CallSetItem]).
Proof.
  intros Hrepo Hhost Hc Hall Hforce.
  apply (loadFilesFrom_static knownFiles m force v); try done.
  rewrite Hrepo, extractRepoInfo_remote. intros [Hl Hg].
  destruct Hhost as [Hh | Hh]; congruence.
Qed.

(** X1 at work: a page served from [localhost] *)
Lemma loadFiles_offline_host_witness :
  lastUpdate (run (@loadFiles plainBuiltins true) localMachine) = Some 1500.
Proof.
  apply (@loadFiles_offline_host plainBuiltins localMachine true Blank
           "localhost" "/dev_notes/" "http:").
  - reflexivity.
  - left. reflexivity.
  - reflexivity.
  - apply hasAllCategories_initial. reflexivity.
  - left. reflexivity.
Defined.

(** X2.  When the API answers a remote-enabled page with a success status
    and a listing, the catalog is that listing and nothing else: a load
    that is not served from memory returns normally, the names of the
    catalog are exactly the names of the entries of type [file] that end in
    [.html], every file is marked as coming from the API, [lastUpdate] is
    the time of the answer, and the browser calls are the one [fetch] and
    at most one [setItem]: the timer of the static list is never set.  A
    listing without notes leaves an empty catalog and the empty state. *)
Theorem loadFiles_remote_listing `{Builtins} (m : Machine) (force : bool) (v : View)
    (status : Z) (statusText : string) (data : list Entry) :
  filesContainer m = Some v -> remoteEnabled (currentRepo m) -> hasAllCategories m ->
  force = true \/ isCacheValid m = false ->
  network m = Responded status statusText (Some data) -> ok status = true ->
  let m' := run (loadFiles force) m in
  let notes := filter (fun f => isNote f = true) data in
  result (loadFiles force) m = Returned tt /\
  Permutation (name <$> files m') (e_name <$> notes) /\
  Forall (fun f => source f = Some "github-api" /\ endsWith (name f) ".html" = true)
    (files m') /\
  lastUpdate m' = Some (clock m + latency m) /\
  (exists tail,
     calls m' = calls m ++ [CallFetch (apiUrlOf (currentRepo m))] ++ tail /\
     (tail = [] \/ tail = [CallSetItem])) /\
  (notes = [] -> files m' = [] /\ filesContainer m' = Some EmptyState).
Proof.
  intros Hc Hremote Hall Hforce Hnet Hok m' notes.
  set (m1 := set_loadingState true (set_view LoadingView m)).
  pose proof (loadSource_remote knownFiles m1 Hremote) as Hsrc.
  unfold tryCatch in Hsrc.
  rewrite (loadFromGitHub_success m1 status statusText data Hnet Hok) in Hsrc.
  change (filter (fun f => isNote f = true) data) with notes in Hsrc.
  set (m3 := set_files _ _) in Hsrc.
  destruct (loadFilesFrom_loaded knownFiles m force v m3 Hc Hforce Hsrc Hall)
    as (cats' & Hrun & Hlook & _).
  set (m5 := set_files _ _) in Hrun.
  set (remote := remoteFile (currentRepo m) (clock m + latency m) <$> notes).
  assert (Hfiles5 : files m5 = sortBy compareFiles (sortBy compareByDateDesc remote))
    by reflexivity.
  assert (Hcats5 : categories m5 = cats') by reflexivity.
  assert (Hfiles3 : files m3 = sortBy compareByDateDesc remote) by reflexivity.
  assert (Hview5 : filesContainer m5 = const LoadingView <$> filesContainer m) by reflexivity.
  assert (Hlast5 : lastUpdate m5 = Some (clock m + latency m)) by reflexivity.
  assert (Hcalls5 : calls m5 = calls m ++ [CallFetch (apiUrlOf (currentRepo m))])
    by reflexivity.
  assert (Hperm : Permutation (files m5) remote)
    by (by rewrite Hfiles5, !sortBy_Permutation).
  clearbody m5. clear Hsrc. clearbody m3.
  unfold m', run, result, loadFiles. rewrite Hrun.
  change (fst (Returned tt, set_loadingState false (renderFiles m5))) with (@Returned unit tt).
  change (snd (Returned tt, set_loadingState false (renderFiles m5)))
    with (set_loadingState false (renderFiles m5)).
  destruct (rendered_state m5) as (-> & -> & _ & _ & _ & _ & Hcalls & Hview).
  split; [done|]. split; [|split; [|split; [done|split]]].
  - rewrite Hperm. unfold remote. by rewrite <- list_fmap_compose.
  - apply (Permutation_Forall (Permutation_sym Hperm)).
    unfold remote. apply Forall_fmap, Forall_forall. intros f Hf.
    apply list_elem_of_filter in Hf as [Hnote _]. split; [done|].
    unfold isNote in Hnote. by apply andb_true_iff in Hnote as [_ ?].
  - destruct Hcalls as [-> | ->]; rewrite Hcalls5.
    + exists []. auto.
    + exists [CallSetItem]. rewrite <- List.app_assoc. auto.
  - intros Hnone. rewrite Hview, Hview5, Hc.
    assert (Hnil : files m5 = []).
    { apply Permutation_nil_r. rewrite Hperm. unfold remote. by rewrite Hnone. }
    split; [done|].
    assert (Hactive : getActiveFiles m5 = []).
    { unfold getActiveFiles. destruct (String.eqb _ _); [done|].
      rewrite Hcats5, Hlook, Hfiles3.
      destruct (categories m3 !! activeCategory m5); [|done]. simpl.
      assert (Hnil3 : sortBy compareByDateDesc remote = []).
      { apply Permutation_nil_r. rewrite sortBy_Permutation. unfold remote. by rewrite Hnone. }
      by rewrite Hnil3. }
    by rewrite Hactive.
Qed.

(** X2 at work: a listing of one note, one other file and one directory *)
Lemma loadFiles_remote_listing_witness :
  name <$> files (run (@loadFiles plainBuiltins true) machineListing)
  = ["2025_07_15_DP_001 - Infracao penal fixacao.html"].
Proof.
  apply Permutation_singleton_r.
  apply (@loadFiles_remote_listing plainBuiltins machineListing true Blank 200 "OK" okListing).
  - reflexivity.
  - split; [reflexivity | discriminate].
  - apply hasAllCategories_initial. reflexivity.
  - left. reflexivity.
  - reflexivity.
  - reflexivity.
Defined.

(** X3.  A load always settles.  Whatever the network answers and whatever
    the object holds, [loadFiles] on a page with its container returns
    normally and leaves a final view in the container: the grid, the empty
    state or the error message, never the loading notice.  When the load
    was not served from memory, the [loading-state] mark has been removed
    again. *)
Theorem loadFiles_settles `{Builtins} (m : Machine) (force : bool) (v : View) :
  filesContainer m = Some v ->
  let m' := run (loadFiles force) m in
  result (loadFiles force) m = Returned tt /\
  settledView m' /\
  (force = true \/ isCacheValid m = false -> loadingState m' = false).
Proof.
  intros Hc m'. split; [apply loadFilesFrom_returns|].
  assert (Hrender : forall m0 v0, filesContainer m0 = Some v0 -> settledView (renderFiles m0)).
  { intros m0 v0 H0. unfold settledView. rewrite renderFiles_container, H0. simpl.
    eexists. split; [done|]. by destruct (length (getActiveFiles m0) =? 0)%nat. }
  destruct (negb force && isCacheValid m) eqn:Hhit.
  - split.
    + unfold m', run, loadFiles, loadFilesFrom. rewrite Hc, Hhit. by apply (Hrender m v).
    + intros [-> | Hinv]; [done|]. by rewrite Hinv, andb_false_r in Hhit.
  - assert (Hforce : force = true \/ isCacheValid m = false).
    { destruct force; [by left | by right]. }
    unfold m', run, loadFiles. rewrite (loadFilesFrom_unfold knownFiles force m v Hc Hforce).
    set (m1 := set_loadingState true (set_view LoadingView m)).
    assert (Hview1 : filesContainer m1 = Some LoadingView) by (simpl; by rewrite Hc).
    unfold tryFinally.
    match goal with |- context [tryCatch ?c ?h m1] => set (T := tryCatch c h m1) end.
    assert (Hs : settledView (snd T)).
    { destruct (loadSource_returns knownFiles m1) as (m3 & Hsrc & _ & Hview3 & _).
      unfold T, tryCatch. unfold bind at 1. rewrite Hsrc.
      unfold bind at 1. unfold step at 1.
      set (m4 := set_lastUpdate (Some (clock m3)) m3).
      assert (Hview4 : filesContainer m4 = Some LoadingView)
        by (by rewrite <- Hview1, <- Hview3).
      clearbody m4. unfold bind at 1.
      pose proof (categorizeFiles_container m4) as Hview5.
      destruct (categorizeFiles m4) as [[[]|e] m5]; simpl in Hview5; rewrite Hview4 in Hview5.
      - unfold step. cbn [snd]. by apply (Hrender m5 LoadingView).
      - unfold step, renderError. cbn [snd].
        exists (ErrorView "Erro ao carregar as notas. Verifique a conexão.").
        simpl. by rewrite Hview5. }
    clearbody T. destruct T as [r mx]. cbn [snd] in *. split; [|done].
    destruct Hs as (w & Hw & Hn). by exists w.
Qed.

(** X3 at work on a page whose request is rejected *)
Lemma loadFiles_settles_witness :
  settledView (run (@loadFiles plainBuiltins true) sampleMachine).
Proof.
  apply (@loadFiles_settles plainBuiltins sampleMachine true Blank). reflexivity.
Defined.

(** X4.  A load feeds the in-memory cache.  After a load that left a
    catalog, on a clock that is past 0, any call [loadFiles(false)] made
    less than five minutes later finds the cache valid and is served from
    memory: files, categories and [lastUpdate] stay and no [fetch] or timer
    is started, the only possible call being the [setItem] of
    [renderFiles]. *)
Theorem loadFiles_then_served_from_memory `{Builtins} (m : Machine) (force : bool)
    (v : View) (elapsed : Z) :
  filesContainer m = Some v -> hasAllCategories m ->
  force = true \/ isCacheValid m = false ->
  0 < clock m -> 0 <= latency m -> elapsed < 300000 ->
  let m1 := run (loadFiles force) m in
  let later := set_clock (clock m1 + elapsed) m1 in
  let m2 := run (loadFiles false) later in
  files m1 <> [] ->
  isCacheValid later = true /\
  files m2 = files m1 /\ categories m2 = categories m1 /\ lastUpdate m2 = lastUpdate m1 /\
  onlySetItem (calls m1) (calls m2).
Proof.
  intros Hc Hall Hforce Hclock Hlat Hel m1 later m2 Hfiles.
  set (m0 := set_loadingState true (set_view LoadingView m)).
  destruct (loadSource_returns knownFiles m0) as (m3 & Hsrc & Hcat3 & Hview3 & _ & _ & Hclock3).
  change (clock m0) with (clock m) in Hclock3. change (latency m0) with (latency m) in Hclock3.
  assert (Hall3 : hasAllCategories m3) by (intros k Hk; rewrite Hcat3; by apply Hall).
  destruct (loadFilesFrom_loaded knownFiles m force v m3 Hc Hforce Hsrc Hall3)
    as (cats' & Hrun & _ & _).
  set (m5 := set_files _ _) in Hrun.
  assert (Hlast5 : lastUpdate m5 = Some (clock m3)) by reflexivity.
  assert (Hclock5 : clock m5 = clock m3) by reflexivity.
  assert (Hview5 : filesContainer m5 = filesContainer m3) by reflexivity.
  clearbody m5.
  assert (Hm1 : m1 = set_loadingState false (renderFiles m5)).
  { unfold m1, run, loadFiles. by rewrite Hrun. }
  destruct (rendered_state m5) as (Hf & Hl & Hk & _ & _ & _ & _ & Hv).
  rewrite <- Hm1 in Hf, Hl, Hk, Hv. clearbody m1.
  assert (Hvalid : isCacheValid later = true).
  { unfold isCacheValid, later.
    change (lastUpdate (set_clock (clock m1 + elapsed) m1)) with (lastUpdate m1).
    change (files (set_clock (clock m1 + elapsed) m1)) with (files m1).
    change (clock (set_clock (clock m1 + elapsed) m1)) with (clock m1 + elapsed).
    rewrite Hl, Hlast5, Hk, Hclock5.
    apply andb_true_iff. split; [apply andb_true_iff; split|].
    - apply negb_true_iff, Z.eqb_neq. lia.
    - apply Z.ltb_lt. change cacheDuration with 300000. lia.
    - destruct (files m1); [done | reflexivity]. }
  split; [exact Hvalid|].
  assert (Hc1 : exists w, filesContainer later = Some w).
  { change (filesContainer later) with (filesContainer m1).
    rewrite Hv, Hview5, Hview3. simpl. rewrite Hc. by eexists. }
  destruct Hc1 as (w & Hw).
  assert (Hm2 : m2 = renderFiles later).
  { unfold m2, run, loadFiles, loadFilesFrom. by rewrite Hw, Hvalid. }
  rewrite Hm2, renderFiles_files, renderFiles_lastUpdate.
  destruct (renderFiles_frame later) as (-> & _).
  repeat split; try done. apply (renderFiles_onlySetItem later).
Qed.

(** X4 at work: a second call one second after a load from the table *)
Lemma loadFiles_then_served_from_memory_witness :
  files (run (@loadFiles plainBuiltins true) localMachine) <> [] /\
  isCacheValid
    (set_clock (clock (run (@loadFiles plainBuiltins true) localMachine) + 1000)
       (run (@loadFiles plainBuiltins true) localMachine)) = true.
Proof.
  assert (Hne : files (run (@loadFiles plainBuiltins true) localMachine) <> []).
  { intros Hnil.
    assert (Hperm : Permutation
              (name <$> files (run (@loadFiles plainBuiltins true) localMachine)) knownFiles).
    { apply (@loadFilesFrom_static plainBuiltins knownFiles localMachine true Blank).
      - discriminate.
      - intros [Hl _]. discriminate Hl.
      - reflexivity.
      - apply hasAllCategories_initial. reflexivity.
      - left. reflexivity. }
    rewrite Hnil in Hperm. apply Permutation_nil in Hperm. discriminate Hperm. }
  split; [exact Hne|].
  assert (Hall : hasAllCategories localMachine)
    by (apply hasAllCategories_initial; reflexivity).
  pose proof (@loadFiles_then_served_from_memory plainBuiltins localMachine true Blank 1000
                eq_refl Hall (or_introl eq_refl) eq_refl) as Hthm.
  cbv zeta in Hthm.
  assert (Hlat : 0 <= latency localMachine) by discriminate.
  assert (Hel : 1000 < 300000) by reflexivity.
  exact (proj1 (Hthm Hlat Hel Hne)).
Defined.

(** ** The persisted cache *)

(** X5.  What [setCachedData] writes, [getCachedData] reads back for one
    hour.  With a storage that accepts the write, a read made [elapsed]
    milliseconds after the write returns the data that were written, and
    leaves the item in place, as long as [elapsed] is at most 3600000; a
    later read returns null and removes the item.  After [clearCache] a
    read returns null at any time. *)
Theorem cache_round_trip (m : Machine) (data : list NoteFile) (elapsed : Z) :
  storageWritable m = true ->
  let later := set_clock (clock m + elapsed) (setCachedData data m) in
  (elapsed <= 3600000 ->
     fst (getCachedData later) = Some data /\
     localStorage (snd (getCachedData later)) = localStorage later) /\
  (3600000 < elapsed ->
     fst (getCachedData later) = None /\
     localStorage (snd (getCachedData later)) = None) /\
  fst (getCachedData (clearCache later)) = None.
Proof.
  intros Hw later.
  assert (Hstore : localStorage later = Some (Stored data (clock m) "1.0.0")).
  { unfold later, setCachedData. simpl. by rewrite Hw. }
  assert (Hclock : clock later = clock m + elapsed) by reflexivity.
  clearbody later. unfold getCachedData.
  cbn [localStorage clock record clearCache set_localStorage]. rewrite Hstore, Hclock.
  rewrite Z.gtb_ltb. split; [|split; [|done]].
  - intros Hel. replace (3600000 <? clock m + elapsed - clock m) with false
      by (symmetry; apply Z.ltb_ge; lia).
    split; [done|]. simpl. by rewrite Hstore.
  - intros Hel. replace (3600000 <? clock m + elapsed - clock m) with true
      by (symmetry; apply Z.ltb_lt; lia).
    done.
Qed.

(** X5 at work: the sample list, read back after one hour to the
    millisecond *)
Lemma cache_round_trip_witness :
  fst (getCachedData (set_clock (clock sampleMachine + 3600000)
                        (setCachedData sampleFiles sampleMachine)))
  = Some sampleFiles.
Proof.
  apply (cache_round_trip sampleMachine sampleFiles 3600000); [reflexivity | lia].
Defined.

Section LegacyCache.
Context `{Builtins}.

Lemma legacy_loadFromGitHub_success m status statusText data :
  network m = Responded status statusText (Some data) -> ok status = true ->
  Legacy.loadFromGitHub m =
  (Returned tt,
   set_files (sortBy Legacy.compareByName
                (Legacy.remoteFile (currentRepo m) (clock m + latency m)
                   <$> filter (fun f => isNote f = true) data))
     (afterFetch m)).
Proof.
  intros Hnet Hok. unfold Legacy.loadFromGitHub, tryCatch, bind, ask, fetch, throw, step.
  cbn [network set_clock record]. rewrite Hnet. cbn iota beta. rewrite Hok. reflexivity.
Qed.

Lemma legacy_loadFiles_unfold m force v m1 :
  filesContainer m = Some v -> isLocal (currentRepo m) = false ->
  (force = true \/ isCacheValid m = false) ->
  Legacy.loadFromGitHub (set_loadingState true (set_view LoadingView m)) = (Returned tt, m1) ->
  Legacy.loadFiles force m =
  (Returned tt,
   set_loadingState false (Legacy.renderFiles (set_lastUpdate (Some (clock m1)) m1))).
Proof.
  intros Hc Hlocal Hforce Hgh. unfold Legacy.loadFiles. rewrite Hc.
  replace (negb force && isCacheValid m) with false
    by (destruct Hforce as [-> | ->]; [done | by rewrite andb_false_r]).
  unfold bind, step, tryFinally, tryCatch, ask.
  change (currentRepo (set_loadingState true (set_view LoadingView m)))
    with (currentRepo m).
  rewrite Hlocal, Hgh. reflexivity.
Qed.

Lemma legacy_renderFiles_storage m v :
  filesContainer m = Some v -> files m <> [] -> storageWritable m = true ->
  localStorage (Legacy.renderFiles m) = Some (Stored (files m) (clock m) "1.0.0").
Proof.
  intros Hv Hf Hw. unfold Legacy.renderFiles. rewrite Hv.
  destruct (files m) as [|f l] eqn:Hfiles; [done|]. simpl.
  unfold setCachedData. simpl. by rewrite Hw.
Qed.

Lemma legacy_renderFiles_frame m :
  clock (Legacy.renderFiles m) = clock m /\
  currentRepo (Legacy.renderFiles m) = currentRepo m /\
  latency (Legacy.renderFiles m) = latency m /\
  storageWritable (Legacy.renderFiles m) = storageWritable m.
Proof.
  unfold Legacy.renderFiles. destruct (filesContainer m); [|tauto].
  destruct (length (files m) =? 0)%nat; [simpl; tauto|].
  unfold setCachedData. simpl. destruct (storageWritable m) eqn:Hw; simpl; tauto.
Qed.

End LegacyCache.

(** X6.  The earlier script survives a failed refresh.  After a forced load
    that listed at least one note through the API, on a page whose storage
    accepts writes, a second forced load whose request fails with anything
    but a 404 shows the same catalog again, read back from the persisted
    cache, as long as the failure comes at most one hour after the first
    answer.  If it comes later, the catalog is empty and the empty state is
    shown. *)
Theorem legacy_refresh_restores_catalog `{Builtins} (m : Machine) (v : View)
    (status : Z) (statusText : string) (data : list Entry)
    (failure : FetchOutcome) (elapsed : Z) :
  filesContainer m = Some v -> isLocal (currentRepo m) = false ->
  storageWritable m = true ->
  network m = Responded status statusText (Some data) -> ok status = true ->
  filter (fun f => isNote f = true) data <> [] ->
  remoteFails failure -> notFound failure = false ->
  let m1 := run (Legacy.loadFiles true) m in
  let later := set_network failure (set_clock (clock m1 + elapsed) m1) in
  let m2 := run (Legacy.loadFiles true) later in
  Permutation (name <$> files m1) (e_name <$> filter (fun f => isNote f = true) data) /\
  (elapsed + latency m <= 3600000 ->
     files m2 = files m1 /\ filesContainer m2 = Some (Grid (name <$> files m1))) /\
  (3600000 < elapsed + latency m ->
     files m2 = [] /\ filesContainer m2 = Some EmptyState).
Proof.
  intros Hc Hlocal Hw Hnet Hok Hnotes Hfail H404 m1 later m2.
  set (notes := filter (fun f => isNote f = true) data) in *.
  set (m0 := set_loadingState true (set_view LoadingView m)).
  pose proof (legacy_loadFromGitHub_success m0 status statusText data Hnet Hok) as Hgh.
  set (F := sortBy Legacy.compareByName _) in Hgh.
  set (mA := set_files F (afterFetch m0)) in Hgh.
  assert (HF : F <> []).
  { intros HF. apply Hnotes. apply (fmap_nil_inv (Legacy.remoteFile (currentRepo m0)
      (clock m0 + latency m0))), Permutation_nil_r. rewrite <- HF. unfold F.
    by rewrite sortBy_Permutation. }
  set (mS := set_lastUpdate (Some (clock mA)) mA).
  assert (Hm1 : m1 = set_loadingState false (Legacy.renderFiles mS)).
  { unfold m1, run. by rewrite (legacy_loadFiles_unfold m true v mA Hc Hlocal (or_introl eq_refl) Hgh). }
  assert (HcS : filesContainer mS = Some LoadingView) by (simpl; by rewrite Hc).
  assert (HfS : files mS = F) by reflexivity.
  assert (HwS : storageWritable mS = true) by exact Hw.
  assert (HkS : clock mS = clock m + latency m) by reflexivity.
  assert (HrS : currentRepo mS = currentRepo m) by reflexivity.
  assert (HlS : latency mS = latency m) by reflexivity.
  clearbody mS. clear Hgh. clearbody mA.
  assert (Hfiles1 : files m1 = F).
  { rewrite Hm1. change (files (Legacy.renderFiles mS) = F).
    by rewrite legacy_renderFiles_files. }
  assert (Hstore1 : localStorage m1 = Some (Stored F (clock m + latency m) "1.0.0")).
  { rewrite Hm1. change (localStorage (Legacy.renderFiles mS) = Some (Stored F (clock m + latency m) "1.0.0")).
    rewrite (legacy_renderFiles_storage mS LoadingView HcS), HfS, HkS; [done | by rewrite HfS | done]. }
  destruct (legacy_renderFiles_frame mS) as (Hk1 & Hr1 & Hl1 & _).
  assert (Hclock1 : clock m1 = clock m + latency m) by (rewrite Hm1, <- HkS, <- Hk1; done).
  assert (Hrepo1 : currentRepo m1 = currentRepo m) by (rewrite Hm1, <- HrS, <- Hr1; done).
  assert (Hlat1 : latency m1 = latency m) by (rewrite Hm1, <- HlS, <- Hl1; done).
  assert (Hview1 : filesContainer m1 = Some (Grid (name <$> F))).
  { rewrite Hm1. change (filesContainer (Legacy.renderFiles mS) = Some (Grid (name <$> F))).
    rewrite (legacy_renderFiles_view mS LoadingView HcS), HfS.
    destruct F; [done | reflexivity]. }
  clear Hm1 Hk1 Hr1 Hl1. clearbody m1.
  split.
  { rewrite Hfiles1. unfold F. rewrite sortBy_Permutation, <- list_fmap_compose. done. }
  set (l0 := set_loadingState true (set_view LoadingView later)).
  destruct (legacy_loadFromGitHub_failure l0) as (mB & HghB & HfB & HvB & _); [done | done |].
  change (clock l0) with (clock m1 + elapsed) in HfB.
  change (latency l0) with (latency m1) in HfB.
  change (localStorage l0) with (localStorage m1) in HfB.
  rewrite Hstore1, Hclock1, Hlat1 in HfB. simpl in HfB. rewrite Z.gtb_ltb in HfB.
  assert (HvB' : filesContainer mB = Some LoadingView).
  { rewrite HvB. change (const LoadingView <$> filesContainer m1 = Some LoadingView).
    by rewrite Hview1. }
  destruct (legacy_loadFiles_remote later true (Grid (name <$> F))) with (m1 := mB)
    as (_ & Hf2 & Hv2 & _); [exact Hview1 | by rewrite <- Hlocal, <- Hrepo1 | by left | exact HghB | exact HvB' |].
  fold m2 in Hf2, Hv2. rewrite Hf2, Hv2, Hfiles1. split; intros Hel.
  - replace (3600000 <? clock m + latency m + elapsed + latency m - (clock m + latency m))
      with false in HfB by (symmetry; apply Z.ltb_ge; lia).
    simpl in HfB. rewrite HfB. split; [done|]. destruct F; [done | reflexivity].
  - replace (3600000 <? clock m + latency m + elapsed + latency m - (clock m + latency m))
      with true in HfB by (symmetry; apply Z.ltb_lt; lia).
    simpl in HfB. by rewrite HfB.
Qed.

(** X6 at work: the API lists one note, then answers 500 one minute later *)
Lemma legacy_refresh_restores_catalog_witness :
  filter (fun f => isNote f = true) okListing <> [] /\
  files (run (@Legacy.loadFiles plainBuiltins true) legacyOffline) = files legacyLoaded.
Proof.
  assert (Hnotes : filter (fun f => isNote f = true) okListing <> []) by (by vm_compute).
  split; [exact Hnotes|].
  pose proof (@legacy_refresh_restores_catalog plainBuiltins legacyMachine Blank 200 "OK"
                okListing (Responded 500 "Internal Server Error" None) 60000
                eq_refl eq_refl eq_refl eq_refl eq_refl Hnotes (or_introl eq_refl) eq_refl)
    as Hthm.
  cbv zeta in Hthm.
  assert (Hel : 60000 + latency legacyMachine <= 3600000) by discriminate.
  exact (proj1 (proj1 (proj2 Hthm) Hel)).
Defined.

(** ** The order of a sorted list *)

Section SortedFacts.
Context {A : Type} (cmp : A -> A -> number) (R : A -> A -> Prop) (P : A -> Prop).
Hypothesis Hle : forall x y, P x -> P y -> (order cmp x y <=? 0) = true -> R x y.
Hypothesis Hgt : forall x y, P x -> P y -> (order cmp x y <=? 0) = false -> R y x.
Hypothesis Htrans : forall x y z, P x -> P y -> P z -> R x y -> R y z -> R x z.

Lemma insertSorted_sorted (x : A) (l : list A) :
  P x -> Forall P l -> StronglySorted R l -> StronglySorted R (insertSorted cmp x l).
Proof.
  intros Hx HP Hs. induction l as [|y l IH]; simpl.
  - constructor; constructor.
  - apply Forall_cons in HP as [Hy HP]. apply StronglySorted_inv in Hs as [Hs Hyl].
    destruct (order cmp x y <=? 0) eqn:Hxy.
    + constructor; [by constructor|]. constructor; [by apply Hle|].
      apply Forall_forall. intros z Hz.
      apply (Htrans x y z); [done | done | | by apply Hle |].
      * by apply (proj1 (Forall_forall _ _) HP).
      * by apply (proj1 (Forall_forall _ _) Hyl).
    + constructor; [by apply IH|].
      apply (Permutation_Forall (Permutation_sym (insertSorted_Permutation cmp x l))).
      constructor; [by apply Hgt | done].
Qed.

Lemma sortBy_sorted (l : list A) : Forall P l -> StronglySorted R (sortBy cmp l).
Proof.
  induction 1 as [|x l Hx HP IH]; simpl; [constructor|].
  apply insertSorted_sorted; [done | | done].
  by apply (Permutation_Forall (Permutation_sym (sortBy_Permutation cmp l))).
Qed.

End SortedFacts.

(** the collation of the examples is the order of the strings *)
Lemma compareCodes_le (a b : string) : compareCodes a b <= 0 <-> String.le a b.
Proof.
  unfold compareCodes, String.le, String.leb.
  destruct (a ?= b)%string; simpl; split; try done; lia.
Qed.

(** ** What [categorizeFiles] leaves in the categories *)

Section CategoryFacts.
Context `{Builtins}.

Lemma membersOf_In k l x :
  In x (membersOf k l) ->
  exists f, x = enrich f /\ In f l /\ detectFileCategory (name f) = k.
Proof.
  unfold membersOf. intros Hx. apply in_map_iff in Hx as (f & <- & Hf).
  apply list_elem_of_In, list_elem_of_filter in Hf as [Hk Hf].
  exists f. split; [done|]. split; [by apply list_elem_of_In | done].
Qed.

Lemma membersOf_Permutation k l l' :
  Permutation l l' -> Permutation (membersOf k l) (membersOf k l').
Proof. intros Hl. unfold membersOf. by rewrite Hl. Qed.

Lemma membersOf_base k l : base <$> membersOf k l = filesOf k l.
Proof.
  unfold membersOf, filesOf. rewrite <- list_fmap_compose. apply list_fmap_id.
Qed.

Lemma membersOf_unknown k l : ~ In k categoryKeys -> membersOf k l = [].
Proof.
  intros Hk. unfold membersOf. induction l as [|f l IH]; [done|].
  rewrite filter_cons_False; [exact IH|].
  intros <-. apply Hk, detectFileCategory_key.
Qed.

End CategoryFacts.

(** X7.  Inside each category the files are in order.  When the collation
    of the browser is total and transitive and the runs of digits of the
    names have at most fifteen digits, so that the numbers are exact
    integers below 10^15, after [categorizeFiles] the members of every
    category are sorted by their number, and by name among equal numbers:
    each member is below every later one in that order. *)
Theorem categorizeFiles_sorts_members `{Builtins} (m : Machine) :
  (forall a b, localeCompare a b <= 0 \/ localeCompare b a <= 0) ->
  (forall a b c, localeCompare a b <= 0 -> localeCompare b c <= 0 -> localeCompare a c <= 0) ->
  hasAllCategories m ->
  Forall (fun f => exactNumbers (name f) = true) (files m) ->
  forall k c, categories (run categorizeFiles m) !! k = Some c ->
              StronglySorted memberLe (members c) /\
              Forall (fun x => exists n, numericOrder x = Some n /\ 0 <= n < 10 ^ 15) (members c).
Proof.
  intros Htotal Htrans Hall Hexact k c.
  destruct (categorizeFiles_run m Hall) as (cats' & Hrun & Hlook & _).
  unfold run. rewrite Hrun.
  change (cats' !! k = Some c ->
          StronglySorted memberLe (members c) /\
          Forall (fun x => exists n, numericOrder x = Some n /\ 0 <= n < 10 ^ 15) (members c)).
  rewrite Hlook. destruct (categories m !! k) as [c0|]; [|done]. intros [= <-]. simpl.
  set (numbered := fun x : CatFile => exists n, numericOrder x = Some n /\ 0 <= n < 10 ^ 15).
  assert (Hnumbered : Forall numbered (membersOf k (files m))).
  { apply Forall_forall. intros x Hx%list_elem_of_In.
    apply membersOf_In in Hx as (f & -> & Hf & _).
    apply (extractFileNumber_exact (name f)).
    by apply (proj1 (Forall_forall _ _) Hexact), list_elem_of_In. }
  split; [|by apply (Permutation_Forall (Permutation_sym (sortBy_Permutation _ _)))].
  apply (sortBy_sorted compareMembers memberLe numbered); [| | |exact Hnumbered].
  - intros x y (nx & Hx & _) (ny & Hy & _).
    unfold order, compareMembers, memberLe. rewrite Hx, Hy. simpl.
    destruct (nx =? ny) eqn:Hn; simpl; intros Hord%Z.leb_le.
    + apply Z.eqb_eq in Hn. by right.
    + left. lia.
  - intros x y (nx & Hx & _) (ny & Hy & _).
    unfold order, compareMembers, memberLe. rewrite Hx, Hy. simpl.
    destruct (nx =? ny) eqn:Hn; simpl; intros Hord%Z.leb_gt.
    + apply Z.eqb_eq in Hn. right. split; [done|].
      destruct (Htotal (name (base x)) (name (base y))); [lia | done].
    + left. lia.
  - intros x y z (nx & Hx & _) (ny & Hy & _) (nz & Hz & _). unfold memberLe. rewrite Hx, Hy, Hz.
    intros [Hxy | [-> Hxy]] [Hyz | [-> Hyz]]; [left; lia | by left | by left |].
    right. split; [done|]. by apply (Htrans _ (name (base y))).
Qed.

(** X7 at work with the collation by character codes *)
Lemma categorizeFiles_sorts_members_witness :
  Forall (fun f => exactNumbers (name f) = true) (files sampleMachine) /\
  StronglySorted (@memberLe plainBuiltins)
    (default [] (members <$>
       categories (run (@categorizeFiles plainBuiltins) sampleMachine) !! "DP")).
Proof.
  assert (Hexact : Forall (fun f => exactNumbers (name f) = true) (files sampleMachine)).
  { repeat constructor. }
  split; [exact Hexact|].
  destruct (categories (run (@categorizeFiles plainBuiltins) sampleMachine) !! "DP")
    as [c|] eqn:Hc; [|constructor].
  apply (@categorizeFiles_sorts_members plainBuiltins sampleMachine) with (k := "DP").
  - intros a b. simpl. rewrite !compareCodes_le. apply String.le_total.
  - intros a b c'. simpl. rewrite !compareCodes_le. apply String.le_po.
  - apply hasAllCategories_initial. reflexivity.
  - exact Hexact.
  - exact Hc.
Defined.

(** X8.  [categorizeFiles] rebuilds the members and nothing else.  The
    table of categories keeps its keys, titles, icons and colours; every
    member of the category [k] is a file of the list, tagged with the key
    [k], which is one of the nine keys of the constructor; when the runs
    of digits of its name have at most fifteen digits, its number is an
    integer from 0 on and below 10^15, where the numbers of the script are
    exact.  What was in the categories before does not matter: a second run
    leaves the sizes adding up to the number of files again, and in each
    category the same files up to their order. *)
Theorem categorizeFiles_rebuilds_members `{Builtins} (m : Machine) :
  hasAllCategories m ->
  let m1 := run categorizeFiles m in
  let m2 := run categorizeFiles m1 in
  (forall k, (fun c => (title c, icon c, color c)) <$> categories m1 !! k
             = (fun c => (title c, icon c, color c)) <$> categories m !! k) /\
  (forall k c x, categories m1 !! k = Some c -> In x (members c) ->
     category x = k /\ In k categoryKeys /\ In (base x) (files m) /\
     (exactNumbers (name (base x)) = true ->
      exists n, numericOrder x = Some n /\ 0 <= n < 10 ^ 15)) /\
  bucketTotal (categories m2) = length (files m) /\
  (forall k c1 c2, categories m1 !! k = Some c1 -> categories m2 !! k = Some c2 ->
     Permutation (members c2) (members c1)).
Proof.
  intros Hall m1 m2.
  destruct (categorizeFiles_run m Hall) as (cats1 & Hrun1 & Hlook1 & _).
  assert (Hall1 : hasAllCategories m1) by (by apply categorizeFiles_keeps_categories).
  destruct (categorizeFiles_run m1 Hall1) as (cats2 & Hrun2 & Hlook2 & Htotal2).
  assert (Hcats1 : categories m1 = cats1) by (unfold m1, run; by rewrite Hrun1).
  assert (Hfiles1 : Permutation (files m1) (files m)).
  { unfold m1, run. rewrite Hrun1. apply sortBy_Permutation. }
  assert (Hcats2 : categories m2 = cats2) by (unfold m2, run; by rewrite Hrun2).
  clearbody m1 m2. rewrite Hcats2. rewrite Hcats1 in *. clear Hrun1 Hrun2.
  split; [|split; [|split]].
  - intros k. rewrite Hlook1. by destruct (categories m !! k).
  - intros k c x. rewrite Hlook1. destruct (categories m !! k) as [c0|]; [|done].
    intros [= <-] Hx. simpl in Hx.
    apply (Permutation_in _ (sortBy_Permutation _ _)) in Hx.
    apply membersOf_In in Hx as (f & -> & Hf & <-).
    split; [done|]. split; [apply detectFileCategory_key|]. split; [done|].
    apply extractFileNumber_exact.
  - rewrite Htotal2. by apply Permutation_length.
  - intros k c1 c2. rewrite Hlook2, Hlook1.
    destruct (categories m !! k) as [c0|]; [|done]. simpl.
    intros [= <-] [= <-]. simpl. rewrite !sortBy_Permutation.
    by apply membersOf_Permutation.
Qed.

(** X8 at work on the sample machine *)
Lemma categorizeFiles_rebuilds_members_witness :
  bucketTotal (categories (run (@categorizeFiles plainBuiltins)
                             (run (@categorizeFiles plainBuiltins) sampleMachine)))
  = length (files sampleMachine).
Proof.
  apply (@categorizeFiles_rebuilds_members plainBuiltins sampleMachine).
  apply hasAllCategories_initial. reflexivity.
Defined.

(** ** A category that is missing *)

Lemma forEach_placeFile_missing (l : list NoteFile) (m : Machine) (f : NoteFile) :
  In f l -> categories m !! detectFileCategory (name f) = None ->
  exists m',
    forEach l placeFile m = (Thrown (TypeError "this.categories[category] is undefined"), m') /\
    files m' = files m /\ lastUpdate m' = lastUpdate m /\
    filesContainer m' = filesContainer m /\ clock m' = clock m /\ calls m' = calls m.
Proof.
  revert m. induction l as [|f0 l IH]; intros m Hin Hnone; [done|].
  simpl. unfold bind, placeFile.
  destruct (categories m !! detectFileCategory (name f0)) as [c|] eqn:Hc0.
  - destruct Hin as [-> | Hin]; [congruence|].
    destruct (IH (set_categories
                    (<[detectFileCategory (name f0) := pushMember (enrich f0) c]> (categories m))
                    m) Hin) as (m' & Hrun & Hframe).
    + simpl. rewrite lookup_insert_ne; [done | congruence].
    + exists m'. split; [exact Hrun | exact Hframe].
  - exists m. by repeat split.
Qed.

(** X9.  A category that is missing stops the categorization.  If the table
    of categories lacks the key of one file of the list, [categorizeFiles]
    throws a TypeError and the list of files is left as it was, unsorted.
    On a page that loads from the built-in table, a load then ends with the
    error message in the container, although the catalog has been replaced
    by the table and [lastUpdate] has been stamped. *)
Theorem categorizeFiles_missing_category `{Builtins} (m : Machine) (f : NoteFile) :
  In f (files m) -> categories m !! detectFileCategory (name f) = None ->
  (result categorizeFiles m = Thrown (TypeError "this.categories[category] is undefined") /\
   files (run categorizeFiles m) = files m) /\
  (forall force v,
     filesContainer m = Some v -> force = true \/ isCacheValid m = false ->
     ~ remoteEnabled (currentRepo m) -> In (name f) knownFiles ->
     let m' := run (loadFiles force) m in
     result (loadFiles force) m = Returned tt /\
     filesContainer m' = Some (ErrorView "Erro ao carregar as notas. Verifique a conexão.") /\
     lastUpdate m' = Some (clock m + 500) /\
     Permutation (name <$> files m') knownFiles).
Proof.
  intros Hin Hnone.
  assert (Hthrows : forall m0 f0, In f0 (files m0) ->
            categories m0 !! detectFileCategory (name f0) = None ->
            exists m', categorizeFiles m0
                       = (Thrown (TypeError "this.categories[category] is undefined"), m') /\
                       files m' = files m0 /\ lastUpdate m' = lastUpdate m0 /\
                       filesContainer m' = filesContainer m0).
  { intros m0 f0 Hin0 Hnone0.
    set (m1 := set_categories (clearMembers <$> categories m0) m0).
    destruct (forEach_placeFile_missing (files m0) m1 f0 Hin0) as (m' & Hrun & Hf & Hl & Hv & _).
    { unfold m1. simpl. by rewrite lookup_fmap, Hnone0. }
    exists m'. split; [|done].
    unfold categorizeFiles, bind, step, ask. fold m1.
    change (files m1) with (files m0). by rewrite Hrun. }
  split.
  - destruct (Hthrows m f Hin Hnone) as (m' & Hrun & Hf & _).
    unfold result, run. by rewrite Hrun.
  - intros force v Hc Hforce Hlocal Hknown m'.
    split; [apply loadFilesFrom_returns|].
    assert (Hfinal : exists m5,
              m' = set_loadingState false
                     (renderError "Erro ao carregar as notas. Verifique a conexão." m5) /\
              filesContainer m5 = Some LoadingView /\
              lastUpdate m5 = Some (clock m + 500) /\
              Permutation (name <$> files m5) knownFiles).
    { unfold m', run, loadFiles. rewrite (loadFilesFrom_unfold knownFiles force m v Hc Hforce).
      set (m1 := set_loadingState true (set_view LoadingView m)).
      unfold tryFinally, tryCatch. unfold bind at 1.
      rewrite (loadSource_local knownFiles m1 Hlocal), loadLocalFilesFrom_run.
      unfold bind at 1. unfold step at 1.
      set (m4 := set_lastUpdate _ _).
      assert (Hfiles4 : files m4 = staticCatalog (clock m + 500) knownFiles) by reflexivity.
      assert (Hcats4 : categories m4 = categories m) by reflexivity.
      assert (Hlast4 : lastUpdate m4 = Some (clock m + 500)) by reflexivity.
      assert (Hview4 : filesContainer m4 = const LoadingView <$> filesContainer m)
        by reflexivity.
      clearbody m4.
      assert (Hnames : Permutation (name <$> files m4) knownFiles).
      { rewrite Hfiles4. apply (staticCatalog_names (clock m + 500) knownFiles). }
      assert (Hf4 : exists f4, In f4 (files m4) /\ name f4 = name f).
      { apply (Permutation_in _ (Permutation_sym Hnames)) in Hknown.
        apply in_map_iff in Hknown as (f4 & Hname & Hin4).
        exists f4. split; [exact Hin4 | exact Hname]. }
      destruct Hf4 as (f4 & Hin4 & Hname4).
      destruct (Hthrows m4 f4 Hin4) as (m5 & Hrun & Hf5 & Hl5 & Hv5).
      { by rewrite Hname4, Hcats4. }
      unfold bind at 1. rewrite Hrun. unfold step. cbn [snd].
      exists m5. split; [reflexivity|]. split; [|split].
      - rewrite Hv5, Hview4, Hc. reflexivity.
      - rewrite Hl5. exact Hlast4.
      - rewrite Hf5. exact Hnames. }
    destruct Hfinal as (m5 & -> & Hv5 & Hl5 & Hf5).
    unfold renderError.
    cbn [filesContainer lastUpdate files set_loadingState set_view].
    rewrite Hv5. done.
Qed.

(** X9 at work: the table of names starts with a file of RLM *)
Lemma categorizeFiles_missing_category_witness :
  filesContainer
    (run (@loadFiles plainBuiltins true)
       (set_files [noteNamed "2025_08_08_RLM_001 - Estruturas logicas .html"] machineWithoutRLM))
  = Some (ErrorView "Erro ao carregar as notas. Verifique a conexão.").
Proof.
  apply (@categorizeFiles_missing_category plainBuiltins
           (set_files [noteNamed "2025_08_08_RLM_001 - Estruturas logicas .html"]
              machineWithoutRLM)
           (noteNamed "2025_08_08_RLM_001 - Estruturas logicas .html")) with (v := Blank).
  - left. reflexivity.
  - by vm_compute.
  - reflexivity.
  - left. reflexivity.
  - intros [Hl _]. discriminate Hl.
  - left. reflexivity.
Defined.

(** ** Switching the category *)

(** X10.  A tab shows its own files.  After [categorizeFiles], on a page
    with its container, [switchCategory(k)] for 'todos' or one of the nine
    keys sets the active category and shows exactly the files that the
    categorizer sends to [k] (all the files for 'todos'), or the empty
    state when there is none; it leaves the files, the categories and
    [lastUpdate] alone and makes no request: its only possible browser call
    is the [setItem] of [renderFiles]. *)
Theorem switchCategory_shows_category `{Builtins} (m : Machine) (v : View) (k : string) :
  filesContainer m = Some v -> hasAllCategories m -> In k ("todos" :: categoryKeys) ->
  let m1 := run categorizeFiles m in
  let m2 := switchCategory k m1 in
  activeCategory m2 = k /\
  files m2 = files m1 /\ categories m2 = categories m1 /\ lastUpdate m2 = lastUpdate m1 /\
  onlySetItem (calls m1) (calls m2) /\
  exists shown,
    Permutation shown (if String.eqb k "todos" then files m else filesOf k (files m)) /\
    filesContainer m2 = Some (if (length shown =? 0)%nat then EmptyState
                              else Grid (name <$> shown)).
Proof.
  intros Hc Hall Hk m1 m2.
  destruct (categorizeFiles_run m Hall) as (cats' & Hrun & Hlook & _).
  assert (Hm1 : m1 = set_files (sortBy compareFiles (files m)) (set_categories cats' m)).
  { unfold m1, run. by rewrite Hrun. }
  assert (Hcats1 : categories m1 = cats') by (by rewrite Hm1).
  assert (Hfiles1 : files m1 = sortBy compareFiles (files m)) by (by rewrite Hm1).
  assert (Hview1 : filesContainer m1 = Some v) by (by rewrite Hm1).
  clear Hm1 Hrun. clearbody m1.
  set (ma := set_activeCategory k m1).
  assert (Hfa : files ma = files m1) by reflexivity.
  assert (Hca : categories ma = categories m1) by reflexivity.
  assert (Hla : lastUpdate ma = lastUpdate m1) by reflexivity.
  assert (Hka : activeCategory ma = k) by reflexivity.
  assert (Hva : filesContainer ma = filesContainer m1) by reflexivity.
  assert (Hsa : calls ma = calls m1) by reflexivity.
  unfold m2, switchCategory. fold ma. clearbody ma.
  destruct (renderFiles_frame ma) as (-> & _ & -> & _).
  rewrite renderFiles_files, renderFiles_lastUpdate, renderFiles_container.
  rewrite Hfa, Hca, Hla, Hva, Hview1, <- Hsa.
  split; [done|]. split; [done|]. split; [done|]. split; [done|].
  split; [apply renderFiles_onlySetItem|].
  exists (getActiveFiles ma). split; [|done].
  unfold getActiveFiles. rewrite Hka, Hfa, Hca, Hcats1, Hlook, Hfiles1.
  destruct (String.eqb k "todos") eqn:Htodos; [apply sortBy_Permutation|].
  assert (Hkey : In k categoryKeys).
  { destruct Hk as [<- | Hk]; [done | exact Hk]. }
  destruct (Hall k Hkey) as [c ->]. simpl.
  rewrite <- membersOf_base. apply fmap_Permutation, sortBy_Permutation.
Qed.

(** X10 at work: the tab DP of the sample machine *)
Lemma switchCategory_shows_category_witness :
  activeCategory
    (switchCategory "DP" (run (@categorizeFiles plainBuiltins) sampleMachine))
  = "DP".
Proof.
  apply (@switchCategory_shows_category plainBuiltins sampleMachine Blank "DP").
  - reflexivity.
  - apply hasAllCategories_initial. reflexivity.
  - unfold categoryKeys, categoryPriority. simpl. tauto.
Defined.

(** ** The order of the main list *)

(** X19.  The main list is grouped by category.  When the collation of the
    browser is a total order on the nine keys and the runs of digits of the
    names have at most fifteen digits, so that the numbers are exact
    integers below 10^15, after [categorizeFiles] the list of all files is
    sorted by the collation of the categories and, inside a category, by
    number: the files of one category stand together, in the order of their
    numbers. *)
Theorem categorizeFiles_sorts_files `{Builtins} (m : Machine) :
  (forall a b, In a categoryKeys -> In b categoryKeys ->
     localeCompare a b <= 0 \/ localeCompare b a <= 0) ->
  (forall a b c, In a categoryKeys -> In b categoryKeys -> In c categoryKeys ->
     localeCompare a b <= 0 -> localeCompare b c <= 0 -> localeCompare a c <= 0) ->
  (forall a b, In a categoryKeys -> In b categoryKeys ->
     localeCompare a b <= 0 -> localeCompare b a <= 0 -> a = b) ->
  hasAllCategories m ->
  Forall (fun f => exactNumbers (name f) = true) (files m) ->
  StronglySorted fileLe (files (run categorizeFiles m)) /\
  Forall (fun f => exists n, extractFileNumber (name f) = Some n /\ 0 <= n < 10 ^ 15)
    (files (run categorizeFiles m)).
Proof.
  intros Htotal Htrans Hanti Hall Hexact.
  destruct (categorizeFiles_run m Hall) as (cats' & Hrun & _).
  unfold run. rewrite Hrun. cbn [snd files set_files]. clear Hrun cats'.
  set (numbered := fun f : NoteFile =>
         exists n, extractFileNumber (name f) = Some n /\ 0 <= n < 10 ^ 15).
  assert (Hnumbered : Forall numbered (files m)).
  { apply (Forall_impl _ _ _ Hexact). intros f. apply extractFileNumber_exact. }
  split; [|by apply (Permutation_Forall (Permutation_sym (sortBy_Permutation _ _)))].
  apply (sortBy_sorted compareFiles fileLe numbered); [| | |exact Hnumbered].
  - intros a b (x & Hx & _) (y & Hy & _). unfold order, compareFiles, fileLe.
    rewrite Hx, Hy.
    destruct (String.eqb_spec (detectFileCategory (name a)) (detectFileCategory (name b)))
      as [Hk | Hk]; simpl.
    + destruct (x =? y) eqn:Hn; simpl; intros Hord%Z.leb_le.
      * apply Z.eqb_eq in Hn. left. split; [done | lia].
      * left. split; [done | lia].
    + intros Hord%Z.leb_le. by right.
  - intros a b (x & Hx & _) (y & Hy & _). unfold order, compareFiles, fileLe.
    rewrite Hx, Hy.
    destruct (String.eqb_spec (detectFileCategory (name a)) (detectFileCategory (name b)))
      as [Hk | Hk]; simpl.
    + destruct (x =? y) eqn:Hn; simpl; intros Hord%Z.leb_gt.
      * apply Z.eqb_eq in Hn. left. split; [done | lia].
      * left. split; [done | lia].
    + intros Hord%Z.leb_gt. right. split; [congruence|].
      destruct (Htotal (detectFileCategory (name a)) (detectFileCategory (name b)));
        [apply detectFileCategory_key | apply detectFileCategory_key | lia | done].
  - intros a b c (x & Hx & _) (y & Hy & _) (z & Hz & _). unfold fileLe.
    rewrite Hx, Hy, Hz.
    pose proof (detectFileCategory_key (name a)) as Ha.
    pose proof (detectFileCategory_key (name b)) as Hb.
    pose proof (detectFileCategory_key (name c)) as Hc.
    set (ka := detectFileCategory (name a)) in *.
    set (kb := detectFileCategory (name b)) in *.
    set (kc := detectFileCategory (name c)) in *.
    intros [[Hab Hxy] | [Hab Hlab]] [[Hbc Hyz] | [Hbc Hlbc]].
    + left. split; [congruence | lia].
    + right. rewrite Hab. done.
    + right. rewrite <- Hbc. done.
    + right. split; [|by apply (Htrans ka kb kc)].
      intros Hac. apply Hab. apply Hanti; [done | done | done |]. by rewrite Hac.
Qed.

(** X19 at work with the collation by character codes *)
Lemma categorizeFiles_sorts_files_witness :
  Forall (fun f => exactNumbers (name f) = true) (files sampleMachine) /\
  StronglySorted (@fileLe plainBuiltins)
    (files (run (@categorizeFiles plainBuiltins) sampleMachine)).
Proof.
  assert (Hexact : Forall (fun f => exactNumbers (name f) = true) (files sampleMachine)).
  { repeat constructor. }
  split; [exact Hexact|].
  apply (@categorizeFiles_sorts_files plainBuiltins sampleMachine).
  - intros a b _ _. simpl. rewrite !compareCodes_le. apply String.le_total.
  - intros a b c _ _ _. simpl. rewrite !compareCodes_le. apply String.le_po.
  - intros a b _ _. simpl. rewrite !compareCodes_le. apply String.le_po.
  - apply hasAllCategories_initial. reflexivity.
  - exact Hexact.
Defined.

(** ** Lower case and white space *)

Lemma toLowerCase_app (a b : string) :
  toLowerCase (a +:+ b) = toLowerCase a +:+ toLowerCase b.
Proof. induction a as [|x a IH]; [reflexivity|]. rewrite str_app_cons. simpl. by rewrite IH. Qed.

Lemma sameLetter_lower (a b : ascii) :
  sameLetter a b = true -> toLowerChar a = toLowerChar b.
Proof.
  unfold sameLetter. rewrite orb_true_iff, !andb_true_iff, orb_true_iff.
  intros [Heq | [[Ha Hb] Hd]].
  - by apply Ascii.eqb_eq in Heq as ->.
  - unfold toLowerChar, isLetterChar, isUpperChar, isLowerChar in *.
    destruct Hd as [Hd | Hd]; apply N.eqb_eq in Hd.
    + rewrite Hd in *. split_codes; try lia; try discriminate.
      rewrite <- Hd. symmetry. apply code_inv.
    + rewrite Hd in *. split_codes; try lia; try discriminate.
      rewrite <- Hd. apply code_inv.
Qed.

Lemma caseVariant_lower (f g : string) :
  caseVariant f g = true -> toLowerCase f = toLowerCase g.
Proof.
  revert g. induction f as [|a f IH]; intros [|b g]; simpl; try done.
  rewrite andb_true_iff. intros [Hab Hfg].
  by rewrite (sameLetter_lower _ _ Hab), (IH _ Hfg).
Qed.

Lemma isSpaceChar_toLowerChar (c : ascii) : isSpaceChar (toLowerChar c) = isSpaceChar c.
Proof.
  unfold toLowerChar, isUpperChar. destruct ((65 <=? code c) && (code c <=? 90))%N eqn:Hup; [|done].
  pose proof (code_bound c). unfold isSpaceChar.
  rewrite code_of_N by (split_codes; try discriminate; lia).
  split_codes; try discriminate; try lia; done.
Qed.

Lemma trimStart_toLowerCase (s : string) : trimStart (toLowerCase s) = toLowerCase (trimStart s).
Proof.
  induction s as [|c s IH]; simpl; [done|].
  rewrite isSpaceChar_toLowerChar. by destruct (isSpaceChar c).
Qed.

Lemma trimEnd_toLowerCase (s : string) : trimEnd (toLowerCase s) = toLowerCase (trimEnd s).
Proof.
  induction s as [|c s IH]; simpl; [done|].
  rewrite IH, isSpaceChar_toLowerChar.
  destruct (trimEnd s); simpl; [by destruct (isSpaceChar c) | done].
Qed.

Lemma trim_toLowerCase (s : string) : trim (toLowerCase s) = toLowerCase (trim s).
Proof. unfold trim. by rewrite trimStart_toLowerCase, trimEnd_toLowerCase. Qed.

Lemma trimStart_spaces (a : string) : allSpaces a = true -> trimStart a = "".
Proof.
  induction a as [|c a IH]; simpl; [done|].
  rewrite andb_true_iff. intros [-> Ha]. by apply IH.
Qed.

Lemma trimEnd_spaces (a : string) : allSpaces a = true -> trimEnd a = "".
Proof.
  induction a as [|c a IH]; simpl; [done|].
  rewrite andb_true_iff. intros [-> Ha]. by rewrite IH.
Qed.

Lemma trimStart_app (s b : string) :
  trimStart (s +:+ b) = if allSpaces s then trimStart b else trimStart s +:+ b.
Proof.
  induction s as [|c s IH]; [done|].
  rewrite str_app_cons. simpl. destruct (isSpaceChar c); [exact IH | by rewrite str_app_cons].
Qed.

Lemma trimEnd_app_spaces (s b : string) : allSpaces b = true -> trimEnd (s +:+ b) = trimEnd s.
Proof.
  intros Hb. induction s as [|c s IH].
  - rewrite str_app_nil_l. simpl. by apply trimEnd_spaces.
  - rewrite str_app_cons. simpl. by rewrite IH.
Qed.

Lemma trim_padded (a s b : string) :
  allSpaces a = true -> allSpaces b = true -> trim (a +:+ s +:+ b) = trim s.
Proof.
  intros Ha Hb. unfold trim. rewrite trimStart_app, Ha, trimStart_app.
  destruct (allSpaces s) eqn:Hs.
  - by rewrite (trimStart_spaces b Hb), (trimStart_spaces s Hs).
  - by apply trimEnd_app_spaces.
Qed.

(** ** The search over the cards *)

(** what a search does to the cards and to the layout *)
Lemma filterFiles_cards (searchTerm : string) (p : Page) :
  let term := trim (toLowerCase searchTerm) in
  exists F : Card -> Card,
    (forall card, dataFileName (F card) = dataFileName card /\
                  textContent (F card) = textContent card /\
                  hidden (F card) = if String.eqb term "" then false
                                    else negb (isVisible term card)) /\
    fileCards (snd (filterFiles searchTerm p)) = F <$> fileCards p /\
    layout (snd (filterFiles searchTerm p)) = layout p.
Proof.
  intros term. unfold filterFiles. fold term. destruct (String.eqb term "").
  - by exists (setHidden false).
  - exists (fun card => setHidden (negb (isVisible term card)) card).
    split; [done|]. unfold showSearchFeedback. cbn [layout fileCards].
    by destruct (layout p).
Qed.

(** a search looks at the names and texts of the cards and at the layout
    only *)
Lemma filterFiles_same_cards (searchTerm : string) (F : Card -> Card) (p q : Page) :
  (forall card, dataFileName (F card) = dataFileName card /\
                textContent (F card) = textContent card) ->
  fileCards q = F <$> fileCards p -> layout q = layout p ->
  filterFiles searchTerm q = filterFiles searchTerm p.
Proof.
  intros HF Hcards Hlayout. unfold filterFiles.
  set (term := trim (toLowerCase searchTerm)).
  assert (Hvis : forall card, isVisible term (F card) = isVisible term card).
  { intros card. unfold isVisible. by destruct (HF card) as [-> ->]. }
  assert (Hcount : forall l : list Card,
            length (filter (fun card => isVisible term card = true) (F <$> l))
            = length (filter (fun card => isVisible term card = true) l)).
  { induction l as [|card l IH]; [done|]. rewrite fmap_cons.
    destruct (isVisible term card) eqn:Hcard.
    - rewrite (filter_cons_True _ (F card)) by (by rewrite Hvis).
      rewrite filter_cons_True by exact Hcard. simpl. by rewrite IH.
    - rewrite (filter_cons_False _ (F card)) by (by rewrite Hvis, Hcard).
      rewrite filter_cons_False by (by rewrite Hcard). exact IH. }
  rewrite Hcards, Hlayout, Hcount, <- !list_fmap_compose.
  assert (Hshow : (setHidden false ∘ F) <$> fileCards p = setHidden false <$> fileCards p).
  { apply list_fmap_ext. intros i card _. unfold setHidden. simpl.
    by destruct (HF card) as [-> ->]. }
  assert (Hhide : ((fun card => setHidden (negb (isVisible term card)) card) ∘ F) <$> fileCards p
                  = (fun card => setHidden (negb (isVisible term card)) card) <$> fileCards p).
  { apply list_fmap_ext. intros i card _. unfold setHidden. simpl.
    rewrite Hvis. by destruct (HF card) as [-> ->]. }
  rewrite Hshow, Hhide.
  destruct (String.eqb term ""); [done|].
  unfold showSearchFeedback. cbn [layout fileCards]. by destruct (layout p).
Qed.

Lemma filter_hidden_count (term : string) (F : Card -> Card) (l : list Card) :
  (forall card, hidden (F card) = negb (isVisible term card)) ->
  length (filter (fun card => hidden card = false) (F <$> l))
  = length (filter (fun card => isVisible term card = true) l).
Proof.
  intros HF. induction l as [|card l IH]; [done|]. rewrite fmap_cons.
  destruct (isVisible term card) eqn:Hvis.
  - rewrite (filter_cons_True _ (F card)) by (by rewrite HF, Hvis).
    rewrite filter_cons_True by exact Hvis. simpl. by rewrite IH.
  - rewrite (filter_cons_False _ (F card)) by (by rewrite HF, Hvis).
    rewrite filter_cons_False by (by rewrite Hvis). exact IH.
Qed.

(** X11.  A search only hides and shows, and its notice depends on the
    page.  [filterFiles] keeps the cards, their order, their names and
    their texts.  With a term that is blank after trimming it returns,
    every card is shown and the notice is removed.  Otherwise a card is
    shown exactly when the trimmed, lower-cased term occurs in its name
    attribute or in its lower-cased text, and then [showSearchFeedback]
    removes the earlier notice and: on a page without the section
    [files-section] it returns and there is no notice; when the node before
    which the notice goes is a child of that section it returns and the
    markup of the notice is written with that term, unescaped, and the
    number of cards that are shown; when the grid lies deeper inside the
    section, [insertBefore] throws a NotFoundError after the cards have
    been hidden and shown, and there is no notice.  The result does not
    depend on an earlier search.  Lower case and white space are those of
    ASCII. *)
Theorem filterFiles_visibility (searchTerm : string) (p : Page) :
  let term := trim (toLowerCase searchTerm) in
  let completion := fst (filterFiles searchTerm p) in
  let p' := snd (filterFiles searchTerm p) in
  let shown := length (filter (fun card => hidden card = false) (fileCards p')) in
  dataFileName <$> fileCards p' = dataFileName <$> fileCards p /\
  textContent <$> fileCards p' = textContent <$> fileCards p /\
  layout p' = layout p /\
  (term = "" ->
     completion = Returns /\
     Forall (fun card => hidden card = false) (fileCards p') /\
     searchFeedback p' = None) /\
  (term <> "" ->
     Forall (fun card => hidden card = negb (isVisible term card)) (fileCards p') /\
     match layout p with
     | NoFilesSection => completion = Returns /\ searchFeedback p' = None
     | GridIsChild => completion = Returns /\ searchFeedback p' = Some (term, shown)
     | GridIsNested => completion = ThrowsNotFoundError /\ searchFeedback p' = None
     end) /\
  (forall previous,
     filterFiles searchTerm (snd (filterFiles previous p)) = filterFiles searchTerm p).
Proof.
  intros term completion p' shown.
  destruct (filterFiles_cards searchTerm p) as (F & HF & Hcards & Hlayout).
  fold term in HF. fold p' in Hcards, Hlayout.
  split; [|split; [|split; [done|split; [|split]]]].
  - rewrite Hcards, <- list_fmap_compose. apply list_fmap_ext. intros i card _. apply HF.
  - rewrite Hcards, <- list_fmap_compose. apply list_fmap_ext. intros i card _. apply HF.
  - intros Hblank. unfold completion, p', filterFiles. fold term. rewrite Hblank.
    cbn [String.eqb fst snd fileCards searchFeedback]. split; [done|]. split; [|done].
    apply Forall_fmap, Forall_forall. by intros card _.
  - intros Hterm%String.eqb_neq. split.
    + rewrite Hcards. apply Forall_fmap, Forall_forall. intros card _. simpl.
      destruct (HF card) as (Hname & Htext & ->). rewrite Hterm.
      unfold isVisible. by rewrite Hname, Htext.
    + assert (Hshown : shown
                = length (filter (fun card => isVisible term card = true) (fileCards p))).
      { unfold shown. rewrite Hcards. apply filter_hidden_count. intros card.
        destruct (HF card) as (_ & _ & ->). by rewrite Hterm. }
      rewrite Hshown. unfold completion, p', filterFiles. fold term. rewrite Hterm.
      unfold showSearchFeedback. cbn [layout fileCards]. by destruct (layout p).
  - intros previous.
    destruct (filterFiles_cards previous p) as (G & HG & Hcards' & Hlayout').
    apply (filterFiles_same_cards searchTerm G); [|done|done].
    intros card. by destruct (HG card) as (-> & -> & _).
Qed.

(** X12.  The search ignores letter case and surrounding white space.  Two
    terms that differ only in the case of their letters give the same
    result, and so do a term and the same term with white space around it.
    A card whose name attribute is the one that [createFileCard] writes for
    a file is shown whenever the name of the file contains the trimmed term
    in any letter case. *)
Theorem filterFiles_term_insensitive (s : string) (p : Page) :
  (forall t, caseVariant s t = true -> filterFiles t p = filterFiles s p) /\
  (forall a b, allSpaces a = true -> allSpaces b = true ->
     filterFiles (a +:+ s +:+ b) p = filterFiles s p) /\
  (forall file card pre w post,
     In card (fileCards p) -> dataFileName card = dataFileNameOf file ->
     name file = pre +:+ w +:+ post -> caseVariant w (trim s) = true ->
     In (setHidden false card) (fileCards (snd (filterFiles s p)))).
Proof.
  split; [|split].
  - intros t Hst. unfold filterFiles. by rewrite (caseVariant_lower s t Hst).
  - intros a b Ha Hb. unfold filterFiles.
    by rewrite !trim_toLowerCase, (trim_padded a s b Ha Hb).
  - intros file card pre w post Hin Hattr Hname Hw. unfold filterFiles.
    rewrite trim_toLowerCase, <- (caseVariant_lower w (trim s) Hw).
    assert (Hshown : In (setHidden false card)
              ((fun card => setHidden (negb (isVisible (toLowerCase w) card)) card)
                 <$> fileCards p)).
    { apply in_map_iff. exists card. split; [|done]. f_equal.
      apply negb_false_iff. unfold isVisible. apply orb_true_iff. left.
      apply includes_spec. exists (toLowerCase pre), (toLowerCase post).
      by rewrite Hattr, <- !toLowerCase_app, <- Hname. }
    destruct (String.eqb (toLowerCase w) "").
    + cbn [snd fileCards]. apply in_map_iff. by exists card.
    + unfold showSearchFeedback. cbn [layout fileCards].
      by destruct (layout p).
Qed.

(** X11 at work: on a page whose grid lies deeper inside the section the
    search for a term throws, and the earlier notice is gone *)
Lemma filterFiles_visibility_witness :
  fst (filterFiles "Acao" nestedPage) = ThrowsNotFoundError /\
  searchFeedback (snd (filterFiles "Acao" nestedPage)) = None.
Proof.
  pose proof (filterFiles_visibility "Acao" nestedPage) as Hsearch. cbv zeta in Hsearch.
  destruct Hsearch as (_ & _ & _ & _ & Hterm & _).
  assert (Hne : trim (toLowerCase "Acao") <> "") by (by vm_compute).
  exact (proj2 (Hterm Hne)).
Defined.

(** X12 at work: upper case and white space around the term *)
Lemma filterFiles_term_insensitive_witness :
  In (setHidden false
        (mkCard "2025_07_15_dp_001 - infracao penal fixacao.html"
           "📝 2025_07_15_DP_001 - Infracao penal fixacao Tamanho: 7.81 KB" false))
     (fileCards (snd (filterFiles "  INFRACAO " samplePage))).
Proof.
  apply (filterFiles_term_insensitive "  INFRACAO " samplePage)
    with (file := noteNamed "2025_07_15_DP_001 - Infracao penal fixacao.html")
         (pre := "2025_07_15_DP_001 - ") (w := "Infracao") (post := " penal fixacao.html").
  - left. reflexivity.
  - reflexivity.
  - reflexivity.
  - reflexivity.
Defined.

(** ** The timer of the automatic update *)

(** the handles that are running were all handed out already *)
Lemma visibilityChange_invariant (t : Timers) (documentHidden : bool) :
  singleTimer t /\ Forall (fun h => (h < nextHandle t)%positive) (activeIntervals t) ->
  let t' := visibilityChange t documentHidden in
  (singleTimer t' /\ Forall (fun h => (h < nextHandle t')%positive) (activeIntervals t')) /\
  (documentHidden = true -> autoUpdateInterval t' = None) /\
  (documentHidden = false -> exists h, autoUpdateInterval t' = Some h).
Proof.
  intros [Hone Hfresh]. cbv zeta. unfold singleTimer in *. unfold visibilityChange.
  destruct documentHidden.
  - unfold pauseAutoUpdate. destruct (autoUpdateInterval t) as [h|] eqn:Hh.
    + simpl. rewrite Hone. rewrite filter_cons_False by (intros Hne; by apply Hne).
      split; [split; [done | constructor]|]. split; [done | intros [=]].
    + rewrite Hh. split; [done|]. split; [done | intros [=]].
  - unfold resumeAutoUpdate. destruct (autoUpdateInterval t) as [h|] eqn:Hh.
    + rewrite Hh. split; [done|]. split; [intros [=] | intros _; by exists h].
    + unfold setupAutoUpdate. simpl. rewrite Hone.
      split; [split; [done|]|].
      * constructor; [lia | constructor].
      * split; [intros [=] | intros _; by eexists].
Qed.

Lemma visibilityChanges_invariant (events : list bool) (t : Timers) :
  singleTimer t /\ Forall (fun h => (h < nextHandle t)%positive) (activeIntervals t) ->
  let t' := foldl visibilityChange t events in
  (singleTimer t' /\ Forall (fun h => (h < nextHandle t')%positive) (activeIntervals t')) /\
  (last events = Some true -> autoUpdateInterval t' = None) /\
  (last events = Some false -> exists h, autoUpdateInterval t' = Some h).
Proof.
  induction events as [|b events IH] using rev_ind; intros Hinv t'.
  - split; [exact Hinv|]. split; intros [=].
  - unfold t'. rewrite foldl_app. simpl. rewrite last_snoc.
    destruct (IH Hinv) as (Hinv' & _).
    destruct (visibilityChange_invariant _ b Hinv') as (Hinv'' & Hhidden & Hshown).
    split; [exact Hinv''|]. split; intros [= ->]; auto.
Qed.

Lemma newTimers_invariant (next : positive) :
  singleTimer (newTimers next) /\
  Forall (fun h => (h < nextHandle (newTimers next))%positive) (activeIntervals (newTimers next)).
Proof. split; [done | constructor]. Qed.

Lemma initDuring_run `{Builtins} (events : list bool) (a : App) (v : View) :
  filesContainer (machine a) = Some v ->
  initDuring events a =
  mkApp (run (loadFiles false) (machine a))
    (setupAutoUpdate (foldl visibilityChange (timers a) events)).
Proof.
  intros Hc. unfold initDuring. rewrite Hc.
  pose proof (loadFilesFrom_returns knownFiles false (machine a)) as Hret.
  unfold result, run, loadFiles in *.
  destruct (loadFilesFrom knownFiles false (machine a)) as [[[]|e] m']; [done | discriminate].
Qed.

(** X13.  One timer at most.  Without its container [init] neither loads
    nor starts a timer.  With it, [init] runs the first load and starts the
    timer, whatever the load did; from then on, after any sequence of
    visibility changes, the only interval that can be running is the one
    whose handle the object holds: none after the page was hidden, exactly
    one after it was shown again, and none after [destroy]. *)
Theorem autoUpdate_single_timer `{Builtins} (a : App) (next : positive) :
  timers a = newTimers next ->
  (filesContainer (machine a) = None -> init a = a) /\
  (forall v events,
     filesContainer (machine a) = Some v ->
     let t := foldl visibilityChange (timers (init a)) events in
     machine (init a) = run (loadFiles false) (machine a) /\
     timers (init a) = mkTimers (Some next) [next] (Pos.succ next) /\
     singleTimer t /\
     (last events = Some true -> activeIntervals t = []) /\
     (last events = Some false -> exists h, activeIntervals t = [h]) /\
     activeIntervals (destroy t) = []).
Proof.
  intros Ht. split.
  - intros Hc. unfold init, initDuring. by rewrite Hc.
  - intros v events Hc t.
    assert (Hinit : init a = mkApp (run (loadFiles false) (machine a))
                              (mkTimers (Some next) [next] (Pos.succ next))).
    { unfold init. rewrite (initDuring_run [] a v Hc). simpl. by rewrite Ht. }
    unfold t. clear t. rewrite Hinit. cbn [machine timers].
    split; [done|]. split; [done|].
    destruct (visibilityChanges_invariant events
                (mkTimers (Some next) [next] (Pos.succ next))) as ((Hone & _) & Hhid & Hvis).
    { split; [done|]. constructor; [simpl; lia | constructor]. }
    split; [exact Hone|]. unfold singleTimer in Hone. split; [|split].
    + intros Hlast. by rewrite Hone, (Hhid Hlast).
    + intros Hlast. destruct (Hvis Hlast) as [h Hh]. exists h. by rewrite Hone, Hh.
    + set (shown := foldl _ _ _) in *. unfold destroy, pauseAutoUpdate.
      destruct (autoUpdateInterval shown) as [h|] eqn:Hh; simpl; rewrite Hone, ?Hh; [|done].
      by rewrite filter_cons_False by (intros Hne; by apply Hne).
Qed.

(** X13 at work: the sample page is hidden and shown again *)
Lemma autoUpdate_single_timer_witness :
  singleTimer (foldl visibilityChange (timers (@init plainBuiltins sampleApp)) [true; false]).
Proof.
  pose proof (@autoUpdate_single_timer plainBuiltins sampleApp 1 eq_refl) as [_ Hthm].
  specialize (Hthm Blank [true; false] eq_refl). cbv zeta in Hthm.
  exact (proj1 (proj2 (proj2 Hthm))).
Defined.

(** X14.  A visibility change during the first load leaks a timer.  The
    listener is installed before the first load is awaited; when the last
    change that arrives during that load shows the page, [resumeAutoUpdate]
    starts a timer, and [init] then starts a second one without stopping
    the first: two intervals are running, the object holds the handle of
    the second only, and the first is still running after [destroy]. *)
Theorem initDuring_leaks_timer `{Builtins} (a : App) (v : View) (next : positive)
    (events : list bool) :
  filesContainer (machine a) = Some v -> timers a = newTimers next ->
  last events = Some false ->
  let t := timers (initDuring events a) in
  exists first second,
    first <> second /\
    activeIntervals t = [second; first] /\
    autoUpdateInterval t = Some second /\
    activeIntervals (destroy t) = [first].
Proof.
  intros Hc Ht Hlast t. unfold t. rewrite (initDuring_run events a v Hc). cbn [timers].
  rewrite Ht.
  destruct (visibilityChanges_invariant events (newTimers next) (newTimers_invariant next))
    as ((Hone & Hfresh) & _ & Hvis).
  destruct (Hvis Hlast) as [h Hh]. unfold singleTimer in Hone. rewrite Hh in Hone.
  set (during := foldl visibilityChange (newTimers next) events) in *.
  rewrite Hone in Hfresh. apply Forall_cons in Hfresh as [Hlt _].
  exists h, (nextHandle during). split; [lia|].
  unfold setupAutoUpdate, destroy, pauseAutoUpdate. simpl. rewrite Hone.
  split; [done|]. split; [done|].
  rewrite filter_cons_False by (intros Hne; by apply Hne).
  rewrite filter_cons_True by lia. done.
Qed.

(** X14 at work: the page is hidden and shown again while the first load
    runs *)
Lemma initDuring_leaks_timer_witness :
  exists first second,
    first <> second /\
    activeIntervals (timers (@initDuring plainBuiltins [true; false] sampleApp))
    = [second; first] /\
    autoUpdateInterval (timers (@initDuring plainBuiltins [true; false] sampleApp))
    = Some second /\
    activeIntervals (destroy (timers (@initDuring plainBuiltins [true; false] sampleApp)))
    = [first].
Proof.
  exact (@initDuring_leaks_timer plainBuiltins sampleApp Blank 1 [true; false]
           eq_refl eq_refl eq_refl).
Defined.

(** ** The repository of a GitHub Pages site *)

Lemma endsWith_app (a t : string) : endsWith (a +:+ t) t = true.
Proof.
  induction a as [|c a IH].
  - rewrite str_app_nil_l. destruct t; simpl; by rewrite ?String.eqb_refl, ?Ascii.eqb_refl.
  - rewrite str_app_cons. simpl. rewrite IH. apply orb_true_r.
Qed.

Lemma includes_char_cons (c sep : ascii) (a : string) :
  includes (String c a) (String sep "") = Ascii.eqb c sep || includes a (String sep "").
Proof. simpl. by destruct (Ascii.eqb c sep). Qed.

(** the text before the first separator is the first segment *)
Lemma split_first (sep : ascii) (a b : string) :
  includes a (String sep "") = false ->
  split sep (a +:+ String sep b) = a :: split sep b.
Proof.
  induction a as [|c a IH]; intros Ha.
  - rewrite str_app_nil_l. simpl. by rewrite Ascii.eqb_refl.
  - rewrite includes_char_cons in Ha. apply orb_false_iff in Ha as [Hc Ha].
    rewrite str_app_cons. simpl. by rewrite Hc, (IH Ha).
Qed.

Lemma split_whole (sep : ascii) (a : string) :
  includes a (String sep "") = false -> split sep a = [a].
Proof.
  induction a as [|c a IH]; intros Ha; [done|].
  rewrite includes_char_cons in Ha. apply orb_false_iff in Ha as [Hc Ha].
  simpl. by rewrite Hc, (IH Ha).
Qed.

Lemma split_nonempty (sep : ascii) (s : string) : split sep s <> [].
Proof.
  induction s as [|c s IH]; simpl; [done|].
  destruct (Ascii.eqb c sep); [done|]. by destruct (split sep s).
Qed.

(** X15.  The repository is read off the address of a GitHub Pages site.
    On a host [<owner>.github.io] that does not contain the text 'local',
    with a protocol other than [file:], the record is remote-enabled, its
    owner is the text before the first dot of the host and its repository
    is the first segment of the path, or the host name itself at the root
    of a user site; the API that is listed is
    [https://api.github.com/repos/<owner>/<repo>/contents/notes].  A host
    that contains 'local' anywhere, also under [github.io], gives the local
    record. *)
Theorem extractRepoInfo_pages_site (ownerName repoName rest protocol : string) :
  includes ownerName "." = false ->
  includes (ownerName +:+ ".github.io") "local" = false ->
  protocol <> "file:" ->
  repoName <> "" -> includes repoName "/" = false ->
  let hostname := ownerName +:+ ".github.io" in
  let site := mkRepo ownerName repoName "main" false (Some true) in
  extractRepoInfo hostname ("/" +:+ repoName +:+ "/" +:+ rest) protocol = site /\
  extractRepoInfo hostname ("/" +:+ repoName) protocol = site /\
  extractRepoInfo hostname "/" protocol = mkRepo ownerName hostname "main" false (Some true) /\
  apiUrlOf site
  = "https://api.github.com/repos/" +:+ ownerName +:+ "/" +:+ repoName +:+ "/contents/notes" /\
  (forall host pathname,
     includes host "local" = true ->
     extractRepoInfo host pathname protocol = mkRepo "local" "dev_notes" "main" true (Some false)).
Proof.
  intros Howner Hlocal Hproto Hrepo Hslash hostname site.
  assert (Henv : isLocalEnvironment hostname protocol = false).
  { unfold isLocalEnvironment. fold hostname in Hlocal. rewrite Hlocal.
    assert (H1 : String.eqb hostname "localhost" = false).
    { apply String.eqb_neq. intros Heq. by rewrite Heq in Hlocal. }
    assert (H2 : String.eqb hostname "127.0.0.1" = false).
    { apply String.eqb_neq. intros Heq. apply (f_equal String.length) in Heq.
      unfold hostname in Heq. rewrite str_length_app in Heq. simpl in Heq. lia. }
    assert (H3 : String.eqb protocol "file:" = false) by (by apply String.eqb_neq).
    assert (H4 : String.eqb hostname "" = false).
    { apply String.eqb_neq. intros Heq. apply (f_equal String.length) in Heq.
      unfold hostname in Heq. rewrite str_length_app in Heq. simpl in Heq. lia. }
    assert (H5 : includes hostname "." = true).
    { apply includes_spec. by exists ownerName, "github.io". }
    by rewrite H1, H2, H3, H4, H5. }
  assert (Hhead : hd EmptyString (split "." hostname) = ownerName).
  { unfold hostname. change (ownerName +:+ ".github.io") with (ownerName +:+ String "." "github.io").
    by rewrite (split_first "." ownerName "github.io" Howner). }
  assert (Hends : endsWith hostname ".github.io" = true) by apply endsWith_app.
  assert (Hne : negb (String.eqb repoName "") = true).
  { apply negb_true_iff. by apply String.eqb_neq. }
  split; [|split; [|split; [|split]]].
  - unfold extractRepoInfo. rewrite Henv, Hends, Hhead.
    change ("/" +:+ repoName +:+ "/" +:+ rest) with (String "/" (repoName +:+ String "/" rest)).
    cbn [split]. rewrite Ascii.eqb_refl, (split_first "/" repoName rest Hslash).
    cbn [List.filter String.eqb negb]. by rewrite Hne.
  - unfold extractRepoInfo. rewrite Henv, Hends, Hhead.
    change ("/" +:+ repoName) with (String "/" repoName).
    cbn [split]. rewrite Ascii.eqb_refl, (split_whole "/" repoName Hslash).
    cbn [List.filter String.eqb negb]. by rewrite Hne.
  - unfold extractRepoInfo. by rewrite Henv, Hends, Hhead.
  - reflexivity.
  - intros host pathname Hhost. unfold extractRepoInfo, isLocalEnvironment.
    rewrite Hhost, !orb_true_r. reflexivity.
Qed.

(** X15 at work on the address of the project *)
Lemma extractRepoInfo_pages_site_witness :
  extractRepoInfo "tiagolimasoares.github.io" "/dev_notes/index.html" "https:"
  = mkRepo "tiagolimasoares" "dev_notes" "main" false (Some true).
Proof.
  apply (extractRepoInfo_pages_site "tiagolimasoares" "dev_notes" "index.html" "https:");
    [reflexivity | reflexivity | discriminate | discriminate | reflexivity].
Defined.

(** X20.  The two scripts agree where the current one goes remote.
    Whenever [extractRepoInfo] of [main.js] gives a remote-enabled record,
    the earlier script reads the same owner and the same repository off the
    address and is remote as well.  The converse fails on every host that
    is neither local nor under [github.io]: there the current script stays
    local, while the earlier one asks the API for [user/dev_notes]. *)
Theorem extractRepoInfo_agrees_with_legacy (hostname pathname protocol : string) :
  (remoteEnabled (extractRepoInfo hostname pathname protocol) ->
   Legacy.extractRepoInfo hostname pathname
   = mkRepo (owner (extractRepoInfo hostname pathname protocol))
       (repo (extractRepoInfo hostname pathname protocol)) "main" false None) /\
  (isLocalEnvironment hostname protocol = false ->
   endsWith hostname ".github.io" = false ->
   isLocal (extractRepoInfo hostname pathname protocol) = true /\
   Legacy.extractRepoInfo hostname pathname = mkRepo "user" "dev_notes" "main" false None).
Proof.
  split.
  - intros [Henv Hends]%extractRepoInfo_remote.
    unfold extractRepoInfo, Legacy.extractRepoInfo. rewrite Henv, Hends.
    unfold isLocalEnvironment in Henv. rewrite !orb_false_iff in Henv.
    destruct Henv as [[[[[H1 H2] H3] _] _] _]. by rewrite H1, H2, H3.
  - intros Henv Hends. unfold extractRepoInfo, Legacy.extractRepoInfo. rewrite Henv, Hends.
    unfold isLocalEnvironment in Henv. rewrite !orb_false_iff in Henv.
    destruct Henv as [[[[[H1 H2] H3] _] _] _]. by rewrite H1, H2, H3.
Qed.

(** X20 at work on a host of its own *)
Lemma extractRepoInfo_agrees_with_legacy_witness :
  isLocal (extractRepoInfo "notes.example.com" "/" "https:") = true /\
  Legacy.extractRepoInfo "notes.example.com" "/" = mkRepo "user" "dev_notes" "main" false None.
Proof.
  apply (extractRepoInfo_agrees_with_legacy "notes.example.com" "/" "https:"); reflexivity.
Defined.

(** ** Counting the files by category *)

Lemma sum_indicator (x : string) (keys : list string) :
  NoDup keys -> In x keys ->
  sum_list_with (fun k => if decide (x = k) then 1%nat else 0%nat) keys = 1%nat.
Proof.
  induction 1 as [|k keys Hk Hnd IH]; [done|]. simpl. intros [<- | Hin].
  - rewrite decide_True by done. f_equal.
    clear IH Hnd. induction keys as [|k' keys IH]; [done|]. simpl.
    rewrite decide_False.
    + apply IH. intros Hx. apply Hk. by right.
    + intros <-. apply Hk. by left.
  - rewrite decide_False; [by apply IH|].
    intros <-. by apply Hk, list_elem_of_In.
Qed.

Lemma sum_list_with_plus {A} (f g : A -> nat) (l : list A) :
  sum_list_with (fun x => (f x + g x)%nat) l = (sum_list_with f l + sum_list_with g l)%nat.
Proof. induction l as [|x l IH]; simpl; [done|]. rewrite IH. lia. Qed.

Lemma sum_list_with_ext {A} (f g : A -> nat) (l : list A) :
  (forall x, In x l -> f x = g x) -> sum_list_with f l = sum_list_with g l.
Proof.
  induction l as [|x l IH]; simpl; [done|]. intros Hfg.
  rewrite (Hfg x) by (by left). rewrite IH; [done|]. intros y Hy. apply Hfg. by right.
Qed.

Lemma sum_list_with_fmap {A B} (f : B -> nat) (g : A -> B) (l : list A) :
  sum_list_with f (g <$> l) = sum_list_with (fun x => f (g x)) l.
Proof.
  induction l as [|x l IH]; [done|]. rewrite fmap_cons.
  change (f (g x) + sum_list_with f (g <$> l) = f (g x) + sum_list_with (fun x => f (g x)) l)%nat.
  by rewrite IH.
Qed.

Lemma sum_list_with_positive {A} (f : A -> nat) (l : list A) :
  sum_list_with f (filter (fun x => (0 < f x)%nat) l) = sum_list_with f l.
Proof.
  induction l as [|x l IH]; [done|].
  destruct (decide (0 < f x)%nat) as [Hpos | Hzero].
  - rewrite filter_cons_True by done. simpl. by rewrite IH.
  - rewrite filter_cons_False by done. simpl. rewrite IH. lia.
Qed.

(** every file counts for exactly one key *)
Lemma filesOf_count (keys : list string) (l : list NoteFile) :
  NoDup keys -> (forall f, In f l -> In (detectFileCategory (name f)) keys) ->
  sum_list_with (fun k => length (filesOf k l)) keys = length l.
Proof.
  intros Hnd. induction l as [|f l IH]; intros Hkeys.
  - clear Hnd Hkeys. induction keys as [|k keys IHk]; [done|]. exact IHk.
  - rewrite (sum_list_with_ext _
      (fun k => ((if decide (detectFileCategory (name f) = k) then 1 else 0)
                 + length (filesOf k l))%nat)).
    + rewrite sum_list_with_plus, sum_indicator, IH; [done | | done |].
      * intros g Hg. apply Hkeys. by right.
      * apply Hkeys. by left.
    + intros k _. unfold filesOf.
      destruct (decide (detectFileCategory (name f) = k)) as [Hk | Hk].
      * by rewrite filter_cons_True.
      * by rewrite filter_cons_False.
Qed.

Lemma constructorKeys_NoDup : NoDup constructorKeys.
Proof. apply (bool_decide_unpack _). by vm_compute. Qed.

Lemma constructorKeys_categoryKeys (k : string) : In k constructorKeys <-> In k categoryKeys.
Proof. unfold constructorKeys, categoryKeys, categoryPriority. simpl. tauto. Qed.

Lemma StronglySorted_map {A B} (R : A -> A -> Prop) (S : B -> B -> Prop) (f : A -> B)
    (l : list A) :
  (forall x y, R x y -> S (f x) (f y)) -> StronglySorted R l -> StronglySorted S (f <$> l).
Proof.
  intros Hf. induction 1 as [|x l Hs IH Hx]; simpl; constructor; [done|].
  apply Forall_fmap. apply (Forall_impl _ _ _ Hx). intros y. apply Hf.
Qed.

Lemma omap_all_Some {A B} (g : A -> option B) (d : B) (keys : list A) :
  (forall k, In k keys -> is_Some (g k)) ->
  omap (fun k => (fun b => (k, b)) <$> g k) keys = (fun k => (k, default d (g k))) <$> keys.
Proof.
  induction keys as [|k keys IH]; intros Hall; [done|]. simpl.
  destruct (Hall k) as [b Hb]; [by left|]. rewrite Hb. simpl. f_equal.
  apply IH. intros k' Hk'. apply Hall. by right.
Qed.

(** the entries of the table after [categorizeFiles] *)
Lemma entries_categorized `{Builtins} (m : Machine) :
  hasAllCategories m ->
  exists catOf : string -> Category,
    entries (run categorizeFiles m) = (fun k => (k, catOf k)) <$> constructorKeys /\
    forall k, In k constructorKeys ->
              length (members (catOf k)) = length (filesOf k (files m)).
Proof.
  intros Hall. destruct (categorizeFiles_run m Hall) as (cats' & Hrun & Hlook & _).
  exists (fun k => default (mkCategory "" "" "" []) (cats' !! k)). split.
  - unfold entries, run. rewrite Hrun. cbn [snd categories set_files set_categories].
    apply omap_all_Some. intros k Hk%constructorKeys_categoryKeys.
    rewrite Hlook. destruct (Hall k Hk) as [c ->]. by eexists.
  - intros k Hk%constructorKeys_categoryKeys. rewrite Hlook.
    destruct (Hall k Hk) as [c ->]. simpl.
    rewrite sortBy_length. unfold membersOf, filesOf. apply length_fmap.
Qed.

(** ** The tab bar *)

(** X16.  The tab bar adds up.  After [categorizeFiles] the first tab is
    'Todos' with the number of all files; the other tabs are the
    categories that hold at least one file, each once, each with the number
    of files that the categorizer sends to it, in the order of decreasing
    counts; every file has the tab of its category, and the counts of the
    category tabs add up to the count of 'Todos'. *)
Theorem renderCategoryTabs_counts `{Builtins} (m : Machine) :
  hasAllCategories m ->
  let tabs := renderCategoryTabs (run categorizeFiles m) in
  exists rest,
    tabs = mkTab "todos" "Todos" (length (files m)) (String.eqb (activeCategory m) "todos")
             :: rest /\
    sum_list_with tabCount rest = length (files m) /\
    Forall (fun t => In (tabKey t) constructorKeys /\ (0 < tabCount t)%nat /\
                     tabCount t = length (filesOf (tabKey t) (files m))) rest /\
    NoDup (tabKey <$> tabs) /\
    StronglySorted (fun a b => (tabCount b <= tabCount a)%nat) rest /\
    (forall f, In f (files m) -> In (detectFileCategory (name f)) (tabKey <$> rest)).
Proof.
  intros Hall tabs.
  destruct (entries_categorized m Hall) as (catOf & Hentries & Hlen).
  destruct (categorizeFiles_run m Hall) as (cats' & Hrun & _).
  assert (Hfiles : length (files (run categorizeFiles m)) = length (files m)).
  { unfold run. rewrite Hrun. apply sortBy_length. }
  assert (Hactive : activeCategory (run categorizeFiles m) = activeCategory m).
  { unfold run. by rewrite Hrun. }
  clear Hrun cats'. unfold tabs, renderCategoryTabs. rewrite Hfiles, Hactive, Hentries.
  set (G := fun k : string => (k, catOf k)).
  set (size := fun entry : string * Category => length (members (snd entry))).
  set (L := filter (fun entry : string * Category => (0 < length (members (snd entry)))%nat)
              (G <$> constructorKeys)).
  set (F := fun entry : string * Category =>
              mkTab (fst entry) (title (snd entry)) (length (members (snd entry)))
                (String.eqb (activeCategory m) (fst entry))).
  assert (HinL : forall e, In e (sortBy compareBySize L) <->
                           exists k, e = G k /\ In k constructorKeys /\ (0 < size e)%nat).
  { intros e. rewrite <- !list_elem_of_In, (sortBy_Permutation compareBySize L).
    unfold L. rewrite list_elem_of_filter, list_elem_of_fmap. split.
    - intros [Hpos (k & -> & Hk%list_elem_of_In)]. by exists k.
    - intros (k & -> & Hk%list_elem_of_In & Hpos). split; [done | by exists k]. }
  eexists. split; [reflexivity|]. split; [|split; [|split; [|split]]].
  - rewrite sum_list_with_fmap. change (fun x => tabCount (F x)) with size.
    rewrite (sortBy_Permutation compareBySize L). unfold L.
    rewrite (sum_list_with_positive size), sum_list_with_fmap.
    rewrite (sum_list_with_ext _ (fun k => length (filesOf k (files m)))).
    + apply filesOf_count; [apply constructorKeys_NoDup|].
      intros f _. apply constructorKeys_categoryKeys, detectFileCategory_key.
    + intros k Hk. by apply Hlen.
  - apply Forall_fmap, Forall_forall. intros e He%list_elem_of_In.
    apply HinL in He as (k & -> & Hk & Hpos). simpl. split; [done|]. split; [done|].
    by apply Hlen.
  - rewrite fmap_cons. cbn [tabKey]. rewrite <- list_fmap_compose.
    change (tabKey ∘ F) with (@fst string Category).
    apply NoDup_cons. split.
    + intros Hin%list_elem_of_fmap. destruct Hin as (e & Hkey & He%list_elem_of_In).
      apply HinL in He as (k & -> & Hk & _). simpl in Hkey. subst k.
      unfold constructorKeys in Hk. simpl in Hk.
      repeat destruct Hk as [Hk | Hk]; done.
    + rewrite (sortBy_Permutation compareBySize L).
      assert (Hkeys : NoDup (fst <$> (G <$> constructorKeys))).
      { rewrite <- list_fmap_compose. change (fst ∘ G) with (@id string).
        rewrite list_fmap_id. apply constructorKeys_NoDup. }
      eapply sublist_NoDup; [exact Hkeys|]. apply fmap_sublist, sublist_filter.
  - apply (StronglySorted_map (fun x y => (size y <= size x)%nat)); [done|].
    apply (sortBy_sorted compareBySize _ (fun _ => True)).
    + intros x y _ _. unfold order, compareBySize. simpl. intros Hxy%Z.leb_le.
      unfold size. lia.
    + intros x y _ _. unfold order, compareBySize. simpl. intros Hxy%Z.leb_gt.
      unfold size. lia.
    + intros x y z _ _ _. lia.
    + by apply Forall_forall.
  - intros f Hf. rewrite <- list_fmap_compose.
    change (tabKey ∘ F) with (@fst string Category).
    apply in_map_iff. exists (G (detectFileCategory (name f))). split; [done|].
    apply HinL. eexists. split; [done|].
    assert (Hk : In (detectFileCategory (name f)) constructorKeys)
      by apply constructorKeys_categoryKeys, detectFileCategory_key.
    split; [done|]. unfold size, G. cbn [snd]. rewrite (Hlen _ Hk).
    assert (Hin : In f (filesOf (detectFileCategory (name f)) (files m))).
    { apply list_elem_of_In, list_elem_of_filter. split; [done | by apply list_elem_of_In]. }
    destruct (filesOf _ _); [done | simpl; lia].
Qed.

(** X16 at work on the sample machine: three files, three tabs after
    'Todos' *)
Lemma renderCategoryTabs_counts_witness :
  exists rest,
    renderCategoryTabs (run (@categorizeFiles plainBuiltins) sampleMachine)
    = mkTab "todos" "Todos" 3 true :: rest /\
    sum_list_with tabCount rest = 3%nat.
Proof.
  destruct (@renderCategoryTabs_counts plainBuiltins sampleMachine) as (rest & Htabs & Hsum & _).
  - apply hasAllCategories_initial. reflexivity.
  - exists rest. split; [exact Htabs | exact Hsum].
Defined.

(** ** What a load never does *)

(** choose the alternative that holds by computation *)
Ltac pick :=
  first [ reflexivity | left; reflexivity | right; reflexivity
        | right; left; reflexivity | right; right; reflexivity ].

Section NeverFacts.
Context `{Builtins}.

Lemma categorizeFiles_preserves {C} (p : Machine -> C) :
  (forall v m, p (set_categories v m) = p m) ->
  (forall v m, p (set_files v m) = p m) ->
  preserves p categorizeFiles.
Proof.
  intros Hcats Hfiles. unfold categorizeFiles.
  apply preserves_bind; [apply preserves_step; intros m; apply Hcats | intros _].
  apply preserves_bind.
  { apply preserves_bind; [apply preserves_ask | intros fs].
    apply preserves_forEach. intros f m. unfold placeFile.
    destruct (categories m !! _); [apply Hcats | done]. }
  intros _. apply preserves_bind; [apply preserves_step; intros m; apply Hcats | intros _].
  apply preserves_step. intros m. apply Hfiles.
Qed.

(** the calls of the source: the timer of the static list, the request of
    the API, or the request and then the timer *)
Lemma loadSource_calls table m :
  exists m3,
    loadSource table m = (Returned tt, m3) /\
    localStorage m3 = localStorage m /\
    (calls m3 = calls m ++ [CallSetTimeout 500] \/
     calls m3 = calls m ++ [CallFetch (apiUrlOf (currentRepo m))] \/
     calls m3 = calls m ++ [CallFetch (apiUrlOf (currentRepo m)); CallSetTimeout 500]).
Proof.
  unfold loadSource, bind, ask.
  destruct (bool_decide (useGitHubAPI (currentRepo m) = Some false) || isLocal (currentRepo m)).
  - rewrite loadLocalFilesFrom_run. eexists. split; [done|]. split; [done | by left].
  - unfold tryCatch.
    assert (Hcases : remoteFails (network m) \/
              exists status statusText data,
                network m = Responded status statusText (Some data) /\ ok status = true).
    { destruct (network m) as [message | status statusText [data|]]; simpl.
      - by left.
      - destruct (ok status) eqn:Hok; [right; by eauto | left; by left].
      - left. by right. }
    destruct Hcases as [Hfail | (status & statusText & data & Hnet & Hok)].
    + destruct (loadFromGitHub_failure m Hfail) as (e & -> & _).
      rewrite loadLocalFilesFrom_run. eexists. split; [done|]. split; [done|].
      right. right. simpl. by rewrite <- List.app_assoc.
    + rewrite (loadFromGitHub_success m status statusText data Hnet Hok).
      eexists. split; [done|]. split; [done|]. right. by left.
Qed.

End NeverFacts.

(** X18.  A load writes the persisted cache and never reads it.  Whatever
    the state of the object and of the network, the browser calls of
    [loadFiles] are, in this order, at most one [fetch] of the listing, at
    most one 500 ms timer and at most one [setItem]: [getItem] and
    [removeItem] are never called, so what an earlier visit has stored is
    never used.  The stored item is left as it was or replaced by the
    current file list with the current time. *)
Theorem loadFiles_never_reads_storage `{Builtins} (m : Machine) (force : bool) :
  let m' := run (loadFiles force) m in
  (exists requests timers writes,
     calls m' = calls m ++ requests ++ timers ++ writes /\
     (requests = [] \/ requests = [CallFetch (apiUrlOf (currentRepo m))]) /\
     (timers = [] \/ timers = [CallSetTimeout 500]) /\
     (writes = [] \/ writes = [CallSetItem])) /\
  (localStorage m' = localStorage m \/
   localStorage m' = Some (Stored (files m') (clock m') "1.0.0")).
Proof.
  intros m'.
  assert (Hrender : forall m0,
            (calls (renderFiles m0) = calls m0 ++ [] \/
             calls (renderFiles m0) = calls m0 ++ [CallSetItem]) /\
            (localStorage (renderFiles m0) = localStorage m0 \/
             localStorage (renderFiles m0)
             = Some (Stored (files (renderFiles m0)) (clock (renderFiles m0)) "1.0.0"))).
  { intros m0. split.
    - rewrite List.app_nil_r. apply renderFiles_calls.
    - rewrite renderFiles_storage, renderFiles_files.
      destruct (renderFiles_frame m0) as (_ & -> & _).
      destruct (filesContainer m0); [|by left].
      destruct (length (getActiveFiles m0) =? 0)%nat; [by left|].
      destruct (storageWritable m0); [by right | by left]. }
  unfold m', run, loadFiles.
  destruct (filesContainer m) as [v|] eqn:Hc.
  2: { unfold loadFilesFrom. rewrite Hc. cbn [snd]. split; [|by left].
       exists [], [], []. rewrite !List.app_nil_r. auto. }
  destruct (negb force && isCacheValid m) eqn:Hhit.
  { unfold loadFilesFrom. rewrite Hc, Hhit. cbn [snd].
    destruct (Hrender m) as [Hcalls Hstore]. split; [|exact Hstore].
    destruct Hcalls as [-> | ->].
    - exists [], [], []. auto.
    - exists [], [], [CallSetItem]. auto. }
  assert (Hforce : force = true \/ isCacheValid m = false).
  { destruct force; [by left | by right]. }
  rewrite (loadFilesFrom_unfold knownFiles force m v Hc Hforce).
  set (m1 := set_loadingState true (set_view LoadingView m)).
  unfold tryFinally.
  match goal with |- context [tryCatch ?c ?h m1] => set (T := tryCatch c h m1) end.
  assert (HT : exists source writes,
            calls (snd T) = (calls m ++ source) ++ writes /\
            (source = [CallSetTimeout 500] \/
             source = [CallFetch (apiUrlOf (currentRepo m))] \/
             source = [CallFetch (apiUrlOf (currentRepo m)); CallSetTimeout 500]) /\
            (writes = [] \/ writes = [CallSetItem]) /\
            (localStorage (snd T) = localStorage m \/
             localStorage (snd T) = Some (Stored (files (snd T)) (clock (snd T)) "1.0.0"))).
  { destruct (loadSource_calls knownFiles m1) as (m3 & Hsrc & Hstore3 & Hcalls3).
    change (calls m1) with (calls m) in Hcalls3.
    change (currentRepo m1) with (currentRepo m) in Hcalls3.
    change (localStorage m1) with (localStorage m) in Hstore3.
    set (m4 := set_lastUpdate (Some (clock m3)) m3).
    assert (Hcalls4 : calls m4 = calls m3) by reflexivity.
    assert (Hstore4 : localStorage m4 = localStorage m3) by reflexivity.
    pose proof (categorizeFiles_preserves calls (fun _ _ => eq_refl) (fun _ _ => eq_refl) m4)
      as Hcalls5.
    pose proof (categorizeFiles_preserves localStorage (fun _ _ => eq_refl)
                  (fun _ _ => eq_refl) m4) as Hstore5.
    destruct (categorizeFiles m4) as [[[]|e] m5] eqn:Hcat; cbn [snd] in Hcalls5, Hstore5.
    - assert (HT : snd T = renderFiles m5).
      { unfold T, tryCatch. unfold bind at 1. rewrite Hsrc.
        unfold bind at 1. unfold step at 1. fold m4. unfold bind at 1. by rewrite Hcat. }
      rewrite HT. destruct (Hrender m5) as [Hcalls Hstore].
      rewrite Hcalls5, Hcalls4 in Hcalls. rewrite Hstore5, Hstore4, Hstore3 in Hstore.
      destruct Hcalls3 as [Hs | [Hs | Hs]]; rewrite Hs in Hcalls;
        destruct Hcalls as [Hw | Hw]; eexists _, _;
        (split; [exact Hw | split; [pick | split; [pick | exact Hstore]]]).
    - assert (HT : snd T
                   = renderError "Erro ao carregar as notas. Verifique a conexão." m5).
      { unfold T, tryCatch. unfold bind at 1. rewrite Hsrc.
        unfold bind at 1. unfold step at 1. fold m4. unfold bind at 1. by rewrite Hcat. }
      rewrite HT. unfold renderError. cbn [calls localStorage set_view].
      rewrite Hcalls5, Hcalls4, Hstore5, Hstore4, Hstore3.
      destruct Hcalls3 as [Hs | [Hs | Hs]]; rewrite Hs;
        eexists _, [];
        (split; [by rewrite List.app_nil_r | split; [pick | split; [pick | by left]]]). }
  clearbody T. destruct T as [r mx]. cbn [snd] in *.
  cbn [calls localStorage files clock set_loadingState].
  destruct HT as (source & writes & Hcalls & Hsource & Hwrites & Hstore).
  split; [|exact Hstore]. rewrite Hcalls.
  destruct Hsource as [-> | [-> | ->]].
  - exists [], [CallSetTimeout 500], writes. rewrite <- List.app_assoc. auto.
  - exists [CallFetch (apiUrlOf (currentRepo m))], [], writes. rewrite <- List.app_assoc. auto.
  - exists [CallFetch (apiUrlOf (currentRepo m))], [CallSetTimeout 500], writes.
    rewrite <- List.app_assoc. auto.
Qed.
